(** * Senlin: the LBaaS driver and the cluster endpoint of the v1 API

    A shallow embedding of
    - [senlin/drivers/openstack/lbaas.py] (class [LoadBalancerDriver]) and
    - [senlin/api/openstack/v1/clusters.py] (class [ClusterController]),
      with the names of the request classes of
      [senlin/objects/requests/clusters.py],
    together with a model of the lock table described by the design
    document.  Python code that raises and that talks to an external
    service is written in a state-and-exception monad; the external
    services (the Neutron client, the RPC client, the request-object
    helpers) are parameters.  Of the driver, the creation and deletion
    of a load balancer, the pool members and the cached client are
    embedded; of the controller, the operations that change a cluster
    and those that read. *)

From Stdlib Require Import ZArith String.
From stdpp Require Import gmap strings list pretty.
From Equations Require Import Equations.

Set Warnings "-register-all".
Local Open Scope Z_scope.

(** ** Python values *)

(** The JSON-like values that travel through request bodies, RPC
    responses and driver properties.  Floats are not modelled. *)
Inductive pyval :=
| PNone
| PBool (b : bool)
| PInt (z : Z)
| PStr (s : string)
| PList (l : list pyval)
| PDict (d : gmap string pyval).

(** Truth value of an object, as used by [if x:], [not x] and [x or y]. *)
Definition py_truthy (v : pyval) : bool :=
  match v with
  | PNone => false
  | PBool b => b
  | PInt z => negb (z =? 0)
  | PStr s => negb (String.eqb s "")
  | PList l => match l with [] => false | _ => true end
  | PDict d => negb (bool_decide (size d = 0%nat))
  end.

(** [isinstance(v, dict)] *)
Definition is_dict (v : pyval) : bool :=
  match v with PDict _ => true | _ => false end.

(** [v is None] *)
Definition is_none (v : pyval) : bool :=
  match v with PNone => true | _ => false end.

(** ** Exceptions and the monad *)

Inductive exn :=
| HTTPBadRequest (msg : string)
| InvalidParameter (name : string) (value : pyval)
| KeyError (key : string)
| AttributeError (msg : string)
| TypeError (msg : string)
| ValueError (msg : string)
| ValidationError (msg : string)
| ServiceError (msg : string).

Inductive outcome (A : Type) :=
| Ret (a : A)
| Raise (e : exn).
Arguments Ret {A} a.
Arguments Raise {A} e.

(** A computation over a world [W]: it returns or raises, and leaves a
    world behind in both cases. *)
Definition M (W A : Type) : Type := W -> outcome A * W.

Definition ret {W A} (a : A) : M W A := fun w => (Ret a, w).
Definition raise {W A} (e : exn) : M W A := fun w => (Raise e, w).
Definition bind {W A B} (m : M W A) (k : A -> M W B) : M W B :=
  fun w =>
    match m w with
    | (Ret a, w') => k a w'
    | (Raise e, w') => (Raise e, w')
    end.

(** [try: m except <handled by h>: ...]; an exception [h] does not
    handle keeps propagating. *)
Definition try_except {W A} (m : M W A) (h : exn -> option (M W A)) : M W A :=
  fun w =>
    match m w with
    | (Ret a, w') => (Ret a, w')
    | (Raise e, w') =>
        match h e with
        | Some k => k w'
        | None => (Raise e, w')
        end
    end.

(** A pure helper that may raise. *)
Definition lift {W A} (o : outcome A) : M W A := fun w => (o, w).

Notation "x <- m ;; k" := (bind m (fun x => k))
  (at level 100, m at next level, right associativity).
Notation "m ;;; k" := (bind m (fun _ => k))
  (at level 100, right associativity).

(** A computation that leaves the world as it found it, whatever it
    returns or raises. *)
Definition quiet {W A} (m : M W A) : Prop := forall w, snd (m w) = w.

(** [d[key]] on a dict *)
Definition getitem {W A} (d : gmap string A) (key : string) : M W A :=
  match d !! key with
  | Some v => ret v
  | None => raise (KeyError key)
  end.

(** [d.get(key, default)] on a dict *)
Definition dict_get {A} (d : gmap string A) (key : string) (default : A) : A :=
  match d !! key with
  | Some v => v
  | None => default
  end.


(** ** The LBaaS driver ([senlin/drivers/openstack/lbaas.py]) *)

Module LoadBalancerDriver.

(** What the Neutron client hands back for a load balancer, a listener
    or a pool: the driver reads [id] and the two status attributes. *)
Record resource := Resource {
  id : string;
  provisioning_status : string;
  operating_status : string
}.

Inductive kind := Loadbalancer | Listener | Pool | Healthmonitor.

(** What the driver did to the outside, in order.  [Created] and
    [Deleted] record a Neutron call that returned; a call that raised
    leaves no event. *)
Inductive event :=
| Created (k : kind) (i : string)
| Deleted (k : kind) (i : string)
| Polled (i : string) (seen : option resource)
| Slept (secs : Z)
| LogError (msg : string).

Record world (B : Type) := World { backend : B; trace : list event }.
Arguments World {B} backend trace.
Arguments backend {B} w.
Arguments trace {B} w.

(** [senlin.drivers.openstack.neutron_v2.NeutronClient] is not part of
    the sources at hand: its methods are parameters, each a transition
    of an arbitrary backend state [B] that returns or raises. *)
Class NeutronClient (B : Type) := {
  loadbalancer_create :
    pyval -> pyval -> pyval -> B -> outcome resource * B;
  loadbalancer_get : string -> B -> outcome (option resource) * B;
  loadbalancer_delete : string -> B -> outcome unit * B;
  listener_create :
    string -> pyval -> pyval -> pyval -> pyval -> B -> outcome resource * B;
  listener_delete : string -> B -> outcome unit * B;
  pool_create : pyval -> string -> pyval -> pyval -> B -> outcome resource * B;
  pool_delete : string -> B -> outcome unit * B;
  healthmonitor_delete : string -> B -> outcome unit * B
}.

Section Driver.
Context {B : Type} `{NeutronClient B}.

(** A call of [self.nc().<method>(...)]: the backend moves, and a call
    that returned is recorded. *)
Definition call {A} (op : B -> outcome A * B) (ev : A -> event)
  : M (world B) A :=
  fun w =>
    match op (backend w) with
    | (Ret a, b) => (Ret a, World b (trace w ++ [ev a]))
    | (Raise e, b) => (Raise e, World b (trace w))
    end.

Definition emit (e : event) : M (world B) unit :=
  fun w => (Ret tt, World (backend w) (trace w ++ [e])).

(** [lb_ready] as computed in the loop body of [_wait_for_lb_ready]. *)
Definition lb_ready (ignore_not_found : bool) (lb : option resource) : bool :=
  match lb with
  | None => ignore_not_found
  | Some r =>
      String.eqb (provisioning_status r) "ACTIVE"
      && String.eqb (operating_status r) "ONLINE"
  end.

(** The [while waited < timeout] loop of [_wait_for_lb_ready], from a
    given value of [waited].  [LOG.debug] has no effect here. *)
Equations? wait_loop (waited : Z) (lb_id : string) (timeout : Z)
    (ignore_not_found : bool) : M (world B) bool
    by wf (Z.to_nat (timeout - waited)) lt :=
  wait_loop waited lb_id timeout ignore_not_found :=
    match decide (waited < timeout) with
    | left _ =>
        lb <- call (loadbalancer_get lb_id) (Polled lb_id) ;;
        if lb_ready ignore_not_found lb then ret true
        else
          emit (Slept 2) ;;;
          wait_loop (waited + 2) lb_id timeout ignore_not_found
    | right _ => ret false
    end.
Proof. lia. Qed.

Definition _wait_for_lb_ready (lb_id : string) (timeout : Z)
    (ignore_not_found : bool) : M (world B) bool :=
  wait_loop 0 lb_id timeout ignore_not_found.

(** Readiness as the docstring of [_wait_for_lb_ready] words it: the
    load balancer's [provisioning_status] is ACTIVE and its
    [operating_status] is ONLINE; a load balancer that does not exist
    is acceptable when [ignore_not_found] is set. *)
Definition is_ready (ignore_not_found : bool) (lb : option resource) : Prop :=
  match lb with
  | None => ignore_not_found = true
  | Some r => provisioning_status r = "ACTIVE" /\ operating_status r = "ONLINE"
  end.

(** [polling lb_id ignore_not_found n w o w'] : a bounded retry loop of
    at most [n] polls of the backend, as the docstring has it.  With no
    poll left the answer is False.  Otherwise [loadbalancer_get] is
    asked: its exception ends the loop; an answer that is ready ends it
    with True; any other answer is followed by a sleep of 2 seconds and
    the loop goes on with one poll less. *)
Inductive polling (lb_id : string) (ignore_not_found : bool)
  : nat -> world B -> outcome bool -> world B -> Prop :=
| polling_timeout w :
    polling lb_id ignore_not_found 0 w (Ret false) w
| polling_raises n w e b :
    loadbalancer_get lb_id (backend w) = (Raise e, b) ->
    polling lb_id ignore_not_found (S n) w (Raise e) (World b (trace w))
| polling_ready n w lb b :
    loadbalancer_get lb_id (backend w) = (Ret lb, b) ->
    is_ready ignore_not_found lb ->
    polling lb_id ignore_not_found (S n) w (Ret true)
      (World b (trace w ++ [Polled lb_id lb]))
| polling_again n w lb b o w' :
    loadbalancer_get lb_id (backend w) = (Ret lb, b) ->
    ~ is_ready ignore_not_found lb ->
    polling lb_id ignore_not_found n
      (World b (trace w ++ [Polled lb_id lb; Slept 2])) o w' ->
    polling lb_id ignore_not_found (S n) w o w'.

(** [x = kwargs.pop(key, None)] followed by [if x: body(x)]; the ids are
    strings, so [x] is true when it is present and not empty. *)
Definition if_id (x : option string) (body : string -> M (world B) unit)
  : M (world B) unit :=
  match x with
  | Some i => if String.eqb i "" then ret tt else body i
  | None => ret tt
  end.

(** [lb_delete], called with keyword arguments.  The last wait is written
    [self._wait_for_lb_ready(lb_id, True)]: the positional [True] is
    bound to [timeout], where it counts as the number 1, and
    [ignore_not_found] keeps its default [False]. *)
Definition lb_delete (kwargs : gmap string string)
  : M (world B) (bool * string) :=
  lb_id <- getitem kwargs "loadbalancer" ;;
  if_id (kwargs !! "healthmonitor") (fun healthmonitor_id =>
    call (healthmonitor_delete healthmonitor_id)
         (fun _ => Deleted Healthmonitor healthmonitor_id) ;;;
    _wait_for_lb_ready lb_id 60 false ;;; ret tt) ;;;
  if_id (kwargs !! "pool") (fun pool_id =>
    call (pool_delete pool_id) (fun _ => Deleted Pool pool_id) ;;;
    _wait_for_lb_ready lb_id 60 false ;;; ret tt) ;;;
  if_id (kwargs !! "listener") (fun listener_id =>
    call (listener_delete listener_id)
         (fun _ => Deleted Listener listener_id) ;;;
    _wait_for_lb_ready lb_id 60 false ;;; ret tt) ;;;
  call (loadbalancer_delete lb_id) (fun _ => Deleted Loadbalancer lb_id) ;;;
  _wait_for_lb_ready lb_id (Z.b2z true) false ;;;
  ret (true, "LB deletion succeeded").

(** The second component of what [lb_create] returns: a message on
    failure, the dict of created ids on success. *)
Inductive payload :=
| Msg (s : string)
| Result (d : gmap string string).

(** The local function [_cleanup] of [lb_create]: a message and
    keyword arguments. *)
Definition _cleanup (msg : string) (kwargs : gmap string string)
  : M (world B) unit :=
  emit (LogError msg) ;;;
  lb_delete kwargs ;;;
  ret tt.

Definition lb_create (vip pool : gmap string pyval)
  : M (world B) (bool * payload) :=
  let result : gmap string string := ∅ in
  (* Create loadbalancer *)
  subnet <- getitem vip "subnet" ;;
  let address := dict_get vip "address" PNone in
  admin_state_up <- getitem vip "admin_state_up" ;;
  lb <- call (loadbalancer_create subnet address admin_state_up)
             (fun lb => Created Loadbalancer (id lb)) ;;
  let result := <["loadbalancer" := id lb]> result in
  res <- _wait_for_lb_ready (id lb) 60 false ;;
  if negb res then
    let msg := "Failed in creating load balancer (" +:+ id lb +:+ ")." in
    _cleanup msg result ;;;
    ret (false, Msg msg)
  else
  (* Create listener *)
  protocol <- getitem vip "protocol" ;;
  protocol_port <- getitem vip "protocol_port" ;;
  let connection_limit := dict_get vip "connection_limit" PNone in
  admin_state_up <- getitem vip "admin_state_up" ;;
  listener <- call (listener_create (id lb) protocol protocol_port
                                    connection_limit admin_state_up)
                   (fun l => Created Listener (id l)) ;;
  let result := <["listener" := id listener]> result in
  res <- _wait_for_lb_ready (id lb) 60 false ;;
  if negb res then
    let msg := "Failed in creating listener (" +:+ id listener +:+ ")." in
    _cleanup msg result ;;;
    ret (res, Msg msg)
  else
  (* Create pool *)
  lb_method <- getitem pool "lb_method" ;;
  pool_protocol <- getitem pool "protocol" ;;
  pool_admin <- getitem pool "admin_state_up" ;;
  pool_obj <- call (pool_create lb_method (id listener) pool_protocol
                                pool_admin)
                   (fun p => Created Pool (id p)) ;;
  let result := <["pool" := id pool_obj]> result in
  res <- _wait_for_lb_ready (id lb) 60 false ;;
  if negb res then
    let msg := "Failed in creating pool (" +:+ id pool_obj +:+ ")." in
    _cleanup msg result ;;;
    ret (res, Msg msg)
  else
    ret (true, Result result).

(** *** Runs of [lb_create] *)

Definition creates_loadbalancer (vip : gmap string pyval) (w : world B)
    (lb : resource) (w1 : world B) : Prop :=
  exists subnet admin_state_up,
    vip !! "subnet" = Some subnet /\
    vip !! "admin_state_up" = Some admin_state_up /\
    call (loadbalancer_create subnet (dict_get vip "address" PNone)
                              admin_state_up)
         (fun lb => Created Loadbalancer (id lb)) w = (Ret lb, w1).

Definition creates_listener (vip : gmap string pyval) (lb : resource)
    (w : world B) (listener : resource) (w1 : world B) : Prop :=
  exists protocol protocol_port admin_state_up,
    vip !! "protocol" = Some protocol /\
    vip !! "protocol_port" = Some protocol_port /\
    vip !! "admin_state_up" = Some admin_state_up /\
    call (listener_create (id lb) protocol protocol_port
                          (dict_get vip "connection_limit" PNone)
                          admin_state_up)
         (fun l => Created Listener (id l)) w = (Ret listener, w1).

Definition creates_pool (pool : gmap string pyval) (listener : resource)
    (w : world B) (pool_obj : resource) (w1 : world B) : Prop :=
  exists lb_method protocol admin_state_up,
    pool !! "lb_method" = Some lb_method /\
    pool !! "protocol" = Some protocol /\
    pool !! "admin_state_up" = Some admin_state_up /\
    call (pool_create lb_method (id listener) protocol admin_state_up)
         (fun p => Created Pool (id p)) w = (Ret pool_obj, w1).

(** The readiness poll that follows each step of [lb_create]. *)
Definition waits (lb : resource) (res : bool) (w w' : world B) : Prop :=
  _wait_for_lb_ready (id lb) 60 false w = (Ret res, w').

(** The keyword under which [lb_create] records a resource. *)
Definition key_of (k : kind) : string :=
  match k with
  | Loadbalancer => "loadbalancer"
  | Listener => "listener"
  | Pool => "pool"
  | Healthmonitor => "healthmonitor"
  end.

(** The dict [result] of [lb_create] once the resources of [created]
    have been recorded, oldest first. *)
Definition result_of (created : list (kind * string)) : gmap string string :=
  foldl (fun d c => <[key_of (fst c) := snd c]> d) ∅ created.

(** [failing_step vip pool w created msg w'] : started in [w],
    [lb_create vip pool] has created the resources [created], in this
    order, the readiness poll after the last of them has returned False
    in world [w'], and [msg] is the message of that failure. *)
Inductive failing_step (vip pool : gmap string pyval) (w : world B)
  : list (kind * string) -> string -> world B -> Prop :=
| fails_at_loadbalancer lb w1 w2 :
    creates_loadbalancer vip w lb w1 -> waits lb false w1 w2 ->
    failing_step vip pool w [(Loadbalancer, id lb)]
      ("Failed in creating load balancer (" +:+ id lb +:+ ").") w2
| fails_at_listener lb w1 w2 listener w3 w4 :
    creates_loadbalancer vip w lb w1 -> waits lb true w1 w2 ->
    creates_listener vip lb w2 listener w3 -> waits lb false w3 w4 ->
    failing_step vip pool w [(Loadbalancer, id lb); (Listener, id listener)]
      ("Failed in creating listener (" +:+ id listener +:+ ").") w4
| fails_at_pool lb w1 w2 listener w3 w4 pool_obj w5 w6 :
    creates_loadbalancer vip w lb w1 -> waits lb true w1 w2 ->
    creates_listener vip lb w2 listener w3 -> waits lb true w3 w4 ->
    creates_pool pool listener w4 pool_obj w5 -> waits lb false w5 w6 ->
    failing_step vip pool w
      [(Loadbalancer, id lb); (Listener, id listener); (Pool, id pool_obj)]
      ("Failed in creating pool (" +:+ id pool_obj +:+ ").") w6.

(** [succeeding_run vip pool w lb listener pool_obj w'] : started in
    [w], the three steps of [lb_create vip pool] have been carried out in
    order, the readiness poll after each has returned True, and the last
    poll has ended in world [w']. *)
Definition succeeding_run (vip pool : gmap string pyval) (w : world B)
    (lb listener pool_obj : resource) (w' : world B) : Prop :=
  exists w1 w2 w3 w4 w5,
    creates_loadbalancer vip w lb w1 /\ waits lb true w1 w2 /\
    creates_listener vip lb w2 listener w3 /\ waits lb true w3 w4 /\
    creates_pool pool listener w4 pool_obj w5 /\ waits lb true w5 w'.

(** The backend never hands out an empty id for a listener or a pool. *)
Definition proper_ids : Prop :=
  (forall a b c d e s r s',
      listener_create a b c d e s = (Ret r, s') -> id r <> "") /\
  (forall a b c d s r s', pool_create a b c d s = (Ret r, s') -> id r <> "").

End Driver.

(** The events that change what exists outside. *)
Definition is_created (e : event) : bool :=
  match e with Created _ _ => true | _ => false end.
Definition is_deleted (e : event) : bool :=
  match e with Deleted _ _ => true | _ => false end.
Definition is_mutation (e : event) : bool := is_created e || is_deleted e.

Definition mutations (t : list event) : list event :=
  List.filter is_mutation t.

(** Net count of external resources: creations minus deletions. *)
Definition net_count (t : list event) : Z :=
  Z.of_nat (length (List.filter is_created t))
  - Z.of_nat (length (List.filter is_deleted t)).

Definition created_ev (c : kind * string) : event := Created (fst c) (snd c).
Definition deleted_ev (c : kind * string) : event := Deleted (fst c) (snd c).

(** The delete event of [x = kwargs.pop(key, None)], [if x: delete(x)]. *)
Definition dels (k : kind) (x : option string) : list event :=
  match x with
  | Some i => if String.eqb i "" then [] else [Deleted k i]
  | None => []
  end.

(** Number of passes through the loop of [_wait_for_lb_ready] that a
    timeout allows from a given value of [waited]: ⌈(timeout - waited) / 2⌉,
    and none when the timeout is already reached. *)
Definition rounds (waited timeout : Z) : nat :=
  Z.to_nat ((timeout - waited + 1) / 2).

(** The events of a pass that saw [seen] and found it not ready. *)
Definition idle_round (lb_id : string) (seen : option resource) : list event :=
  [Polled lb_id seen; Slept 2].

(** The events of a wait that returned True: passes that found the load
    balancer not ready, then the poll that saw [s]. *)
Definition successful_wait (lb_id : string) (seen : list (option resource))
    (s : option resource) : list event :=
  flat_map (idle_round lb_id) seen ++ [Polled lb_id s].

End LoadBalancerDriver.

(** ** A scripted Neutron backend

    A concrete client on which the driver can be run: the answers of
    the successive [loadbalancer_get] calls are scripted (an exhausted
    script answers that the load balancer is absent), and the delete
    calls of one chosen kind may raise. *)

Module Scripted.
Import LoadBalancerDriver.

Record script := Script {
  answers : list (option resource);
  broken_delete : option kind
}.

Definition ready (i : string) : option resource :=
  Some (Resource i "ACTIVE" "ONLINE").
Definition pending (i : string) : option resource :=
  Some (Resource i "PENDING_CREATE" "OFFLINE").

Definition kind_eqb (a b : kind) : bool :=
  match a, b with
  | Loadbalancer, Loadbalancer | Listener, Listener
  | Pool, Pool | Healthmonitor, Healthmonitor => true
  | _, _ => false
  end.

Definition create (i : string) (b : script) : outcome resource * script :=
  (Ret (Resource i "PENDING_CREATE" "OFFLINE"), b).

Definition remove (k : kind) (b : script) : outcome unit * script :=
  match broken_delete b with
  | Some k' =>
      if kind_eqb k k' then (Raise (ServiceError "delete refused"), b)
      else (Ret tt, b)
  | None => (Ret tt, b)
  end.

Definition poll (b : script) : outcome (option resource) * script :=
  match answers b with
  | [] => (Ret None, b)
  | a :: rest => (Ret a, Script rest (broken_delete b))
  end.

#[export] Instance client : NeutronClient script := {|
  loadbalancer_create _ _ _ := create "lb-1";
  loadbalancer_get _ := poll;
  loadbalancer_delete _ := remove Loadbalancer;
  listener_create _ _ _ _ _ := create "listener-1";
  listener_delete _ := remove Listener;
  pool_create _ _ _ _ := create "pool-1";
  pool_delete _ := remove Pool;
  healthmonitor_delete _ := remove Healthmonitor
|}.

Definition vip : gmap string pyval :=
  <["subnet" := PStr "subnet-1"]>
  (<["admin_state_up" := PBool true]>
  (<["protocol" := PStr "HTTP"]>
  (<["protocol_port" := PInt 80]> ∅))).

Definition pool : gmap string pyval :=
  <["lb_method" := PStr "ROUND_ROBIN"]>
  (<["protocol" := PStr "HTTP"]>
  (<["admin_state_up" := PBool true]> ∅)).

Definition start (answers : list (option resource))
    (broken : option kind) : world script :=
  World (Script answers broken) [].

End Scripted.

(** ** The cluster endpoint ([senlin/api/openstack/v1/clusters.py]) *)

Module ClusterController.

(** *** Python helpers used by the controller *)

(** [v.get(key)] : a dict answers (None when the key is missing), any
    other value has no such method. *)
Definition py_get {W} (v : pyval) (key : string) : M W pyval :=
  match v with
  | PDict d => ret (dict_get d key PNone)
  | _ => raise (AttributeError "get")
  end.

(** [v.get(key, default)] *)
Definition py_get_default {W} (v : pyval) (key : string) (default : pyval)
  : M W pyval :=
  match v with
  | PDict d => ret (dict_get d key default)
  | _ => raise (AttributeError "get")
  end.

(** [len(v)] *)
Definition py_len {W} (v : pyval) : M W Z :=
  match v with
  | PDict d => ret (Z.of_nat (size d))
  | PList l => ret (Z.of_nat (length l))
  | PStr s => ret (Z.of_nat (String.length s))
  | _ => raise (TypeError "len")
  end.

(** [list(v.keys())[0]] *)
Definition first_key {W} (v : pyval) : M W string :=
  match v with
  | PDict d =>
      match map_to_list d with
      | (k, _) :: _ => ret k
      | [] => raise (ValueError "list index out of range")
      end
  | _ => raise (AttributeError "keys")
  end.

(** [v in t] for a tuple [t] of strings.  *)
Definition py_in (v : pyval) (t : list string) : bool :=
  match v with
  | PStr s => bool_decide (s ∈ t)
  | _ => false
  end.

(** What a value counts as inside a [set]: None, numbers (True and False
    are the numbers 1 and 0) and strings can be members, lists and dicts
    cannot. *)
Inductive hkey :=
| HNone
| HNum (z : Z)
| HStr (s : string).

#[export] Instance hkey_eq_dec : EqDecision hkey.
Proof. solve_decision. Defined.

Definition py_hash (v : pyval) : option hkey :=
  match v with
  | PNone => Some HNone
  | PBool b => Some (HNum (Z.b2z b))
  | PInt z => Some (HNum z)
  | PStr s => Some (HStr s)
  | PList _ | PDict _ => None
  end.

(** [len(list(set(vs)))] *)
Definition py_set_len {W} (vs : list pyval) : M W Z :=
  match mapM py_hash vs with
  | Some ks => ret (Z.of_nat (length (remove_dups ks)))
  | None => raise (TypeError "unhashable type")
  end.

(** *** What the controller gets from other modules *)

(** [senlin.common.consts]: the names of the resize parameters and of the
    policy properties, and the supported adjustment types. *)
Class Consts := {
  ADJUSTMENT_TYPE : string;
  ADJUSTMENT_NUMBER : string;
  ADJUSTMENT_MIN_SIZE : string;
  ADJUSTMENT_MAX_SIZE : string;
  ADJUSTMENT_MIN_STEP : string;
  ADJUSTMENT_STRICT : string;
  ADJUSTMENT_TYPES : list string;
  CP_POLICY_ID : string;
  CP_ENABLED : string
}.

(** [senlin.common.utils], and the text Python gives for a value
    ([str], as used by the [%s] conversion) and for an exception
    ([six.text_type]). *)
Class Utils := {
  parse_int_param : string -> pyval -> bool -> outcome Z;
  parse_bool_param : string -> pyval -> outcome bool;
  py_str : pyval -> string;
  text_type : exn -> string;
  py_str_PStr : forall s, py_str (PStr s) = s
}.

(** [senlin.objects.base] and [jsonschema]: building and validating a
    request object of a named class. [validate norm_req obj] stands for
    [jsonschema.validate(norm_req, obj.to_json_schema())]. *)
Class Objects (sobj : Type) := {
  normalize_req : string -> pyval -> option string -> outcome pyval;
  obj_from_primitive : string -> pyval -> outcome sobj;
  validate : pyval -> sobj -> outcome unit;
  obj_cluster : sobj -> outcome sobj
}.

(** The calls the controller makes on [self.rpc_client]. *)
Inductive rpc_call (context sobj : Type) :=
| call2 (ctx : context) (method : string) (obj : sobj)
| cluster_resize (ctx : context) (cluster_id : string) (adj_type : pyval)
    (number min_size max_size min_step : option Z) (strict : bool)
| cluster_replace_nodes (ctx : context) (cluster_id : string)
    (nodes : gmap string pyval)
| cluster_scale_out (ctx : context) (cluster_id : string) (count : pyval)
| cluster_scale_in (ctx : context) (cluster_id : string) (count : pyval)
| cluster_policy_attach (ctx : context) (cluster_id : string)
    (data : gmap string pyval)
| cluster_policy_detach (ctx : context) (cluster_id : string)
    (policy_id : pyval)
| cluster_policy_update (ctx : context) (cluster_id : string)
    (data : gmap string pyval)
| cluster_check (ctx : context) (cluster_id : string) (params : pyval)
| cluster_recover (ctx : context) (cluster_id : string) (params : pyval)
| cluster_delete (ctx : context) (cluster_id : string) (cast : bool).
Arguments call2 {context sobj}.
Arguments cluster_resize {context sobj}.
Arguments cluster_replace_nodes {context sobj}.
Arguments cluster_scale_out {context sobj}.
Arguments cluster_scale_in {context sobj}.
Arguments cluster_policy_attach {context sobj}.
Arguments cluster_policy_detach {context sobj}.
Arguments cluster_policy_update {context sobj}.
Arguments cluster_check {context sobj}.
Arguments cluster_recover {context sobj}.
Arguments cluster_delete {context sobj}.

(** The engine behind the RPC client: a call moves it and answers with
    a dict, or raises. *)
Class RpcClient (R context sobj : Type) := {
  rpc : rpc_call context sobj -> R -> outcome (gmap string pyval) * R
}.

(** The engine, and the RPC calls issued so far. *)
Record world (R context sobj : Type) := World {
  engine : R;
  calls : list (rpc_call context sobj)
}.
Arguments World {R context sobj} engine calls.
Arguments engine {R context sobj} w.
Arguments calls {R context sobj} w.

Section Controller.
Context {R context sobj request : Type}.
Context `{Consts} `{Utils} `{Objects sobj} `{RpcClient R context sobj}.

(** [req.context] *)
Variable req_context : request -> context.

(** The decorators [util.policy_enforce] and
    [wsgi.Controller.api_version] are not part of the sources at hand:
    each is a parameter that is given the name of the handler (or the
    version), the request and the body of the method it guards. *)
Variable policy_enforce :
  forall A, string -> request ->
    M (world R context sobj) A -> M (world R context sobj) A.
Variable api_version :
  forall A, string -> request ->
    M (world R context sobj) A -> M (world R context sobj) A.

Local Abbreviation W := (world R context sobj).

(** A call on [self.rpc_client]: it is recorded, the engine moves, and
    its answer or its exception comes back. *)
Definition rpc_client (c : rpc_call context sobj)
  : M W (gmap string pyval) :=
  fun w =>
    match rpc c (engine w) with
    | (o, r) => (o, World r (calls w ++ [c]))
    end.

Definition ADD_NODES : string := "add_nodes".
Definition DEL_NODES : string := "del_nodes".
Definition SCALE_OUT : string := "scale_out".
Definition SCALE_IN : string := "scale_in".
Definition RESIZE : string := "resize".
Definition POLICY_ATTACH : string := "policy_attach".
Definition POLICY_DETACH : string := "policy_detach".
Definition POLICY_UPDATE : string := "policy_update".
Definition CHECK : string := "check".
Definition RECOVER : string := "recover".
Definition REPLACE_NODES : string := "replace_nodes".

Definition SUPPORTED_ACTIONS : list string :=
  [ADD_NODES; DEL_NODES; SCALE_OUT; SCALE_IN; RESIZE;
   POLICY_ATTACH; POLICY_DETACH; POLICY_UPDATE;
   CHECK; RECOVER; REPLACE_NODES].

(** [v[key] = x] *)
Definition py_setitem (v : pyval) (key : string) (x : pyval) : M W pyval :=
  match v with
  | PDict d => ret (PDict (<[key := x]> d))
  | _ => raise (TypeError "item assignment")
  end.

(** The block
    [try: obj = cls.obj_from_primitive(norm_req); jsonschema.validate(...)]
    with its two handlers, as [update], [get] and [index] have it, for
    a class that [vorc] defines. *)
Definition checked_request (cls : string) (norm_req : pyval) : M W sobj :=
  try_except
    (obj <- lift (obj_from_primitive cls norm_req) ;;
     lift (validate norm_req obj) ;;;
     ret obj)
    (fun ex =>
       match ex with
       | ValueError _ => Some (raise (HTTPBadRequest (text_type ex)))
       | ValidationError message => Some (raise (HTTPBadRequest message))
       | _ => None
       end).

(** The request classes that [senlin/objects/requests/clusters.py]
    defines.  The controller imports that module as [vorc] and reaches a
    class as an attribute of it. *)
Definition vorc : list string :=
  ["ClusterListRequestBody"; "ClusterCreateRequestBody";
   "ClusterCreateRequest"; "ClusterGetRequest"; "ClusterUpdateRequest"].

(** [vorc.<name>]: the class of that name, when the module defines it. *)
Definition vorc_getattr (name : string) : M W string :=
  if bool_decide (name ∈ vorc) then ret name
  else raise (AttributeError name).

(** The [try] block of [_add_nodes] and [_del_nodes], with its two
    handlers.  It begins with the lookup of a class that [vorc] does
    not define. *)
Definition checked_vorc_request (name : string) (norm_req : pyval)
  : M W sobj :=
  try_except
    (cls <- vorc_getattr name ;;
     obj <- lift (obj_from_primitive cls norm_req) ;;
     lift (validate norm_req obj) ;;;
     ret obj)
    (fun ex =>
       match ex with
       | ValueError _ => Some (raise (HTTPBadRequest (text_type ex)))
       | ValidationError message => Some (raise (HTTPBadRequest message))
       | _ => None
       end).

(** [location = {'location': '/actions/%s' % res['action']}],
    [res.update(location)], [return res]. *)
Definition with_location (res : gmap string pyval)
  : M W (gmap string pyval) :=
  action_id <- getitem res "action" ;;
  ret (<["location" := PStr ("/actions/" +:+ py_str action_id)]> res).

Definition create (req : request) (body : pyval)
  : M W (gmap string pyval) :=
  policy_enforce _ "create" req (
    obj <- try_except
      (norm_req <- lift (normalize_req "ClusterCreateRequest" body
                                       (Some "cluster")) ;;
       obj <- lift (obj_from_primitive "ClusterCreateRequest" norm_req) ;;
       lift (validate norm_req obj) ;;;
       ret obj)
      (fun ex =>
         match ex with
         | ValueError _ => Some (raise (HTTPBadRequest (text_type ex)))
         | _ => None
         end) ;;
    cluster_obj <- lift (obj_cluster obj) ;;
    cluster <- rpc_client (call2 (req_context req) "cluster_create2"
                                 cluster_obj) ;;
    action_id <- getitem cluster "action" ;;
    let cluster := base.delete "action" cluster in
    ret (<["location" := PStr ("/actions/" +:+ py_str action_id)]>
         (<["cluster" := PDict cluster]> ∅))).

Definition update (req : request) (cluster_id : string) (body : pyval)
  : M W (gmap string pyval) :=
  policy_enforce _ "update" req (
    data <- py_get body "cluster" ;;
    if is_none data then
      raise (HTTPBadRequest
        "Malformed request data, missing 'cluster' key in request body.")
    else
    params <- py_setitem data "identity" (PStr cluster_id) ;;
    norm_req <- lift (normalize_req "ClusterUpdateRequest" params None) ;;
    obj <- checked_request "ClusterUpdateRequest" norm_req ;;
    cluster <- rpc_client (call2 (req_context req) "cluster_update2" obj) ;;
    action_id <- getitem cluster "action" ;;
    let cluster := base.delete "action" cluster in
    ret (<["location" := PStr ("/actions/" +:+ py_str action_id)]>
         (<["cluster" := PDict cluster]> ∅))).

(** A parameter of a resize that is parsed when it is given. *)
Definition parsed (name : string) (value : pyval) (allow_negative : bool)
  : M W (option Z) :=
  if negb (is_none value) then
    n <- lift (parse_int_param name value allow_negative) ;; ret (Some n)
  else ret None.

Definition _do_resize (req : request) (cluster_id this_action : string)
    (body : pyval) : M W (gmap string pyval) :=
  data <- py_get body this_action ;;
  adj_type <- py_get data ADJUSTMENT_TYPE ;;
  number <- py_get data ADJUSTMENT_NUMBER ;;
  min_size <- py_get data ADJUSTMENT_MIN_SIZE ;;
  max_size <- py_get data ADJUSTMENT_MAX_SIZE ;;
  min_step <- py_get data ADJUSTMENT_MIN_STEP ;;
  strict <- py_get data ADJUSTMENT_STRICT ;;
  (if negb (is_none adj_type) then
     (if negb (py_in adj_type ADJUSTMENT_TYPES) then
        raise (InvalidParameter "adjustment_type" adj_type)
      else ret tt) ;;;
     (if is_none number then
        raise (HTTPBadRequest "Missing number value for resize operation.")
      else ret tt)
   else ret tt) ;;;
  number <-
    (if negb (is_none number) then
       (if is_none adj_type then
          raise (HTTPBadRequest
            "Missing adjustment_type value for resize operation.")
        else ret tt) ;;;
       n <- lift (parse_int_param ADJUSTMENT_NUMBER number true) ;;
       ret (Some n)
     else ret None) ;;
  min_size <- parsed ADJUSTMENT_MIN_SIZE min_size false ;;
  max_size <- parsed ADJUSTMENT_MAX_SIZE max_size true ;;
  match min_size, max_size with
  | Some n, Some m =>
      if (0 <? m) && (m <? n) then
        raise (HTTPBadRequest
          ("The specified min_size (" +:+ py_str (PInt n)
           +:+ ") is greater than the specified max_size ("
           +:+ py_str (PInt m) +:+ ")."))
      else ret tt
  | _, _ => ret tt
  end ;;;
  min_step <- parsed ADJUSTMENT_MIN_STEP min_step false ;;
  strict <-
    (if negb (is_none strict) then
       lift (parse_bool_param ADJUSTMENT_STRICT strict)
     else ret true) ;;
  result <- rpc_client (cluster_resize (req_context req) cluster_id adj_type
                                       number min_size max_size min_step
                                       strict) ;;
  with_location result.

Definition _sanitize_policy (data : pyval) : M W (gmap string pyval) :=
  match data with
  | PDict d =>
      if negb (bool_decide (is_Some (d !! CP_POLICY_ID))) then
        raise (HTTPBadRequest
          "The 'policy_id' field is missing in the request.")
      else
        match d !! CP_ENABLED with
        | Some enabled =>
            enabled <- try_except
              (lift (parse_bool_param CP_ENABLED enabled))
              (fun ex =>
                 match ex with
                 | InvalidParameter _ _ =>
                     Some (raise (HTTPBadRequest (text_type ex)))
                 | _ => None
                 end) ;;
            ret (<[CP_ENABLED := PBool enabled]> d)
        | None => ret d
        end
  | _ => raise (HTTPBadRequest "The data provided is not a map.")
  end.

(** The loop over [params.items()] of [_replace_nodes]. *)
Fixpoint check_nodes (items : list (string * pyval)) : M W unit :=
  match items with
  | [] => ret tt
  | (old_node, new_node) :: rest =>
      if negb (py_truthy (PStr old_node)) then
        raise (HTTPBadRequest "The original node id could not be empty.")
      else if negb (py_truthy new_node) then
        raise (HTTPBadRequest "The replacement node id could not be empty.")
      else check_nodes rest
  end.

Definition _replace_nodes (req : request) (cluster_id this_action : string)
    (body : pyval) : M W (gmap string pyval) :=
  api_version _ "1.3" req (
    data <- py_get body this_action ;;
    params <- py_get data "nodes" ;;
    match params with
    | PDict nodes =>
        if negb (py_truthy params) then
          raise (HTTPBadRequest "The data provided is not a map.")
        else
        let new_nodes := (map_to_list nodes).*2 in
        distinct <- py_set_len new_nodes ;;
        if negb (Z.of_nat (length new_nodes) =? distinct) then
          raise (HTTPBadRequest
            "The data provided contains duplicated nodes.")
        else
        check_nodes (map_to_list nodes) ;;;
        res <- rpc_client (cluster_replace_nodes (req_context req)
                                                 cluster_id nodes) ;;
        with_location res
    | _ => raise (HTTPBadRequest "The data provided is not a map.")
    end).

Definition _add_nodes (ctx : context) (cid : string) (nodes : pyval)
  : M W (gmap string pyval) :=
  let params := PDict (<["identity" := PStr cid]> (<["nodes" := nodes]> ∅)) in
  norm_req <- lift (normalize_req "ClusterAddNodesRequest" params None) ;;
  obj <- checked_vorc_request "ClusterAddNodesRequest" norm_req ;;
  rpc_client (call2 ctx "cluster_add_nodes2" obj).

Definition _del_nodes (ctx : context) (cid : string) (nodes : pyval)
  : M W (gmap string pyval) :=
  let params := PDict (<["identity" := PStr cid]> (<["nodes" := nodes]> ∅)) in
  norm_req <- lift (normalize_req "ClusterDelNodesRequest" params None) ;;
  obj <- checked_vorc_request "ClusterDelNodesRequest" norm_req ;;
  rpc_client (call2 ctx "cluster_del_nodes2" obj).

Definition action (req : request) (cluster_id : string) (body : pyval)
  : M W (gmap string pyval) :=
  policy_enforce _ "action" req (
    let body := if py_truthy body then body else PDict ∅ in
    n <- py_len body ;;
    if n <? 1 then raise (HTTPBadRequest "No action specified") else
    if 1 <? n then raise (HTTPBadRequest "Multiple actions specified") else
    this_action <- first_key body ;;
    if negb (bool_decide (this_action ∈ SUPPORTED_ACTIONS)) then
      raise (HTTPBadRequest
        ("Unrecognized action '" +:+ this_action +:+ "' specified"))
    else
    if String.eqb this_action ADD_NODES then
      data <- py_get body this_action ;;
      nodes <- py_get_default data "nodes" (PList []) ;;
      res <- _add_nodes (req_context req) cluster_id nodes ;;
      with_location res
    else if String.eqb this_action DEL_NODES then
      data <- py_get body this_action ;;
      nodes <- py_get_default data "nodes" (PList []) ;;
      res <- _del_nodes (req_context req) cluster_id nodes ;;
      with_location res
    else if String.eqb this_action RESIZE then
      _do_resize req cluster_id this_action body
    else if String.eqb this_action SCALE_OUT then
      data <- py_get body this_action ;;
      count <- py_get data "count" ;;
      res <- rpc_client (cluster_scale_out (req_context req) cluster_id
                                           count) ;;
      with_location res
    else if String.eqb this_action SCALE_IN then
      data <- py_get body this_action ;;
      count <- py_get data "count" ;;
      res <- rpc_client (cluster_scale_in (req_context req) cluster_id
                                          count) ;;
      with_location res
    else if String.eqb this_action POLICY_ATTACH then
      raw_data <- py_get body this_action ;;
      data <- _sanitize_policy raw_data ;;
      res <- rpc_client (cluster_policy_attach (req_context req) cluster_id
                                               data) ;;
      with_location res
    else if String.eqb this_action POLICY_DETACH then
      data <- py_get body this_action ;;
      policy_id <- py_get_default data "policy_id" PNone ;;
      if negb (py_truthy policy_id) then
        raise (HTTPBadRequest "No policy specified for detach.")
      else
      res <- rpc_client (cluster_policy_detach (req_context req) cluster_id
                                               policy_id) ;;
      with_location res
    else if String.eqb this_action POLICY_UPDATE then
      raw_data <- py_get body this_action ;;
      data <- _sanitize_policy raw_data ;;
      res <- rpc_client (cluster_policy_update (req_context req) cluster_id
                                               data) ;;
      with_location res
    else if String.eqb this_action CHECK then
      params <- py_get body this_action ;;
      if negb (is_dict params) then
        raise (HTTPBadRequest "The params provided is not a map.")
      else
      res <- rpc_client (cluster_check (req_context req) cluster_id params) ;;
      with_location res
    else if String.eqb this_action REPLACE_NODES then
      _replace_nodes req cluster_id this_action body
    else
      params <- py_get body this_action ;;
      if negb (is_dict params) then
        raise (HTTPBadRequest "The params provided is not a map.")
      else
      res <- rpc_client (cluster_recover (req_context req) cluster_id
                                         params) ;;
      with_location res).

Definition delete (req : request) (cluster_id : string)
  : M W (gmap string pyval) :=
  policy_enforce _ "delete" req (
    res <- rpc_client (cluster_delete (req_context req) cluster_id false) ;;
    action_id <- getitem res "action" ;;
    ret (<["location" := PStr ("/actions/" +:+ py_str action_id)]> ∅)).

(** *** Requests that [action] turns down at once *)

(** A body that is empty, that has several keys, or whose only key is
    not a supported action. *)
Inductive malformed : pyval -> Prop :=
| no_action body : py_truthy body = false -> malformed body
| multiple_actions d : (1 < size d)%nat -> malformed (PDict d)
| unrecognized_action k v :
    k ∉ SUPPORTED_ACTIONS -> malformed (PDict {[k := v]}).

(** *** The operations that change a cluster *)

Inductive operation :=
| Create (body : pyval)
| Update (cluster_id : string) (body : pyval)
| Delete (cluster_id : string)
| Action (cluster_id : string) (body : pyval).

Definition perform (req : request) (op : operation)
  : M W (gmap string pyval) :=
  match op with
  | Create body => create req body
  | Update cluster_id body => update req cluster_id body
  | Delete cluster_id => delete req cluster_id
  | Action cluster_id body => action req cluster_id body
  end.

(** [redirected w result w'] : between [w] and [w'] exactly one RPC
    call was made, it returned a dict with an ['action'] entry, and the
    ['location'] entry of [result] is ['/actions/'] followed by the text
    of that action id. *)
Definition redirected (w : W) (result : gmap string pyval) (w' : W) : Prop :=
  exists c resp action_id,
    calls w' = calls w ++ [c] /\
    rpc c (engine w) = (Ret resp, engine w') /\
    resp !! "action" = Some action_id /\
    result !! "location" = Some (PStr ("/actions/" +:+ py_str action_id)).

(** The decorators let the request through to the method. *)
Definition authorized (req : request) : Prop :=
  forall A handler (m : M W A), policy_enforce A handler req m = m.
Definition versioned (req : request) : Prop :=
  forall A version (m : M W A), api_version A version req m = m.

End Controller.
End ClusterController.

(** ** A canned engine

    An instance of everything the controller is parameterised by, on
    which it can be run: the engine answers every call with the same
    action id, the request objects are the primitives themselves, and
    the decorators let every request through. *)

Module Canned.
Import ClusterController.

#[export] Instance consts : Consts := {|
  ADJUSTMENT_TYPE := "adjustment_type";
  ADJUSTMENT_NUMBER := "number";
  ADJUSTMENT_MIN_SIZE := "min_size";
  ADJUSTMENT_MAX_SIZE := "max_size";
  ADJUSTMENT_MIN_STEP := "min_step";
  ADJUSTMENT_STRICT := "strict";
  ADJUSTMENT_TYPES :=
    ["EXACT_CAPACITY"; "CHANGE_IN_CAPACITY"; "CHANGE_IN_PERCENTAGE"];
  CP_POLICY_ID := "policy_id";
  CP_ENABLED := "enabled"
|}.

Definition parse_int (name : string) (value : pyval) (allow_negative : bool)
  : outcome Z :=
  match value with
  | PInt z =>
      if allow_negative || (0 <=? z) then Ret z
      else Raise (InvalidParameter name value)
  | _ => Raise (InvalidParameter name value)
  end.

Definition parse_bool (name : string) (value : pyval) : outcome bool :=
  match value with
  | PBool b => Ret b
  | _ => Raise (InvalidParameter name value)
  end.

Definition str (v : pyval) : string :=
  match v with
  | PStr s => s
  | PInt z => pretty z
  | PBool true => "True"
  | PBool false => "False"
  | _ => "None"
  end.

#[export] Instance utils : Utils := {|
  parse_int_param := parse_int;
  parse_bool_param := parse_bool;
  py_str := str;
  text_type _ := "invalid";
  py_str_PStr _ := eq_refl
|}.

#[export] Instance objects : Objects pyval := {|
  normalize_req _ body _ := Ret body;
  obj_from_primitive _ norm_req := Ret norm_req;
  validate _ _ := Ret tt;
  obj_cluster obj := Ret obj
|}.

#[export] Instance engine : RpcClient unit unit pyval := {|
  rpc _ r := (Ret {["action" := PStr "action-1"]}, r)
|}.

Definition pass (A : Type) (name : string) (req : unit)
    (m : M (world unit unit pyval) A) : M (world unit unit pyval) A := m.

Definition start : world unit unit pyval := World tt [].

(** The controller on the canned engine. *)
Definition run_action (cluster_id : string) (body : pyval) :=
  action (fun _ => tt) pass pass tt cluster_id body start.
Definition run_do_resize (cluster_id : string) (body : pyval) :=
  _do_resize (fun _ => tt) tt cluster_id "resize" body start.
Definition run_replace_nodes (cluster_id : string) (body : pyval) :=
  _replace_nodes (fun _ => tt) pass tt cluster_id "replace_nodes" body start.

End Canned.


(** ** The lock manager

    The sources at hand hold no lock manager.  This module follows the
    design document (its sections on the data model, on the lock
    manager and on the concurrency model). *)

Module LockManager.

Inductive resource_type := CLUSTER | NODE.

#[export] Instance resource_type_eq_dec : EqDecision resource_type.
Proof. solve_decision. Defined.

(** A resource is named by its type and its id: the key of the locks
    table. *)
Definition resource : Type := resource_type * string.

(** Modelled from the spec: the Lock row of the data model, which the
    sources at hand do not define: "resource type + resource id (unique
    key), holder action id, holder engine instance id, acquisition
    timestamp, lease expiry". *)
Record lock := Lock {
  target : resource;
  holder_action : string;
  holder_engine : string;
  acquired : Z;
  expiry : Z
}.

(** Modelled from the spec: the shared lock store, which the sources at
    hand do not define.  The table is a plain list of rows, without any
    uniqueness constraint of its own, next to the clock that leases are
    compared with. *)
Record store := Store {
  now : Z;
  rows : list lock
}.

(** Modelled from the spec: a "live (non-expired)" lock, which the
    sources at hand do not define: its lease expiry lies ahead. *)
Definition live (t : Z) (l : lock) : bool := t <? expiry l.

Definition on (r : resource) (l : lock) : bool := bool_decide (target l = r).

(** The live locks on a resource. *)
Definition held (s : store) (r : resource) : list lock :=
  List.filter (fun l => on r l && live (now s) l) (rows s).

(** Modelled from the spec: [tryAcquire], which the sources at hand do
    not define: it "succeeds iff no live lock exists for the key; fails
    (non-blocking) otherwise". *)
Definition tryAcquire (r : resource) (action_id engine_id : string)
    (leaseDuration : Z) (s : store) : bool * store :=
  match held s r with
  | [] =>
      (true,
       Store (now s)
         (Lock r action_id engine_id (now s) (now s + leaseDuration)
          :: rows s))
  | _ :: _ => (false, s)
  end.

(** Modelled from the spec: [release], which the sources at hand do
    not define: it "removes the lock only if the caller is the current
    holder; releasing a lock you do not hold is a no-op reported as a
    logic error to the caller".  The boolean is false for that error. *)
Definition release (r : resource) (action_id : string) (s : store)
  : bool * store :=
  let mine l := on r l && String.eqb (holder_action l) action_id in
  if existsb mine (held s r) then
    (true, Store (now s) (List.filter (fun l => negb (mine l)) (rows s)))
  else (false, s).

(** Modelled from the spec: [reclaimExpired], which the sources at hand
    do not define: a sweep "that deletes locks whose lease has expired
    without renewal". *)
Definition reclaimExpired (s : store) : store :=
  Store (now s) (List.filter (live (now s)) (rows s)).

(** Modelled from the spec: what submitters and workers do to the
    store.  Each request is applied in one piece ("an atomic
    conditional update"); requests of different submitters interleave
    in any order, and time passes in between. *)
Inductive request :=
| TryAcquire (r : resource) (action_id engine_id : string)
    (leaseDuration : Z)
| Release (r : resource) (action_id : string)
| ReclaimExpired
| Tick (dt : N).

Definition apply (s : store) (q : request) : store :=
  match q with
  | TryAcquire r a e d => snd (tryAcquire r a e d s)
  | Release r a => snd (release r a s)
  | ReclaimExpired => reclaimExpired s
  | Tick dt => Store (now s + Z.of_N dt) (rows s)
  end.

Definition run (qs : list request) (s : store) : store := foldl apply s qs.

(** The store before anything was submitted, at time [t]. *)
Definition initial (t : Z) : store := Store t [].

(** Modelled from the spec: an in-flight mutation, which the sources at
    hand do not define.  A worker changes a resource between acquiring
    its lock and releasing it: an action has a mutation of a resource in
    flight while it holds a live lock on it. *)
Definition in_flight (s : store) (r : resource) (action_id : string) : Prop :=
  exists l, In l (held s r) /\ holder_action l = action_id.

End LockManager.

(** ** More runs on the scripted backend *)

Module ScriptedRuns.
Import LoadBalancerDriver.
Import Scripted.

(** A [vip] that lacks the properties of the listener. *)
Definition vip_without_protocol : gmap string pyval :=
  <["subnet" := PStr "subnet-1"]> (<["admin_state_up" := PBool true]> ∅).

(** Everything a call of [lb_delete] can be asked to delete. *)
Definition everything : gmap string string :=
  <["loadbalancer" := "lb-1"]>
  (<["listener" := "listener-1"]>
  (<["pool" := "pool-1"]>
  (<["healthmonitor" := "hm-1"]> ∅))).

End ScriptedRuns.

(** ** The pool members of the LBaaS driver
    ([member_add], [member_remove], [_get_node_address]) *)

Module LoadBalancerMembers.
Import LoadBalancerDriver.

(** What [node.get_details] returns, as far as the driver reads it: the
    entry 'addresses' (None when the key is missing), which maps the name
    of a network to the list of the addresses of the node on it, each
    address a dict. *)
Record node_detail := NodeDetail {
  addresses : option (gmap string (list (gmap string pyval)))
}.

(** The node objects and the methods of the Neutron client that the
    member operations use are not part of the sources at hand: they are
    parameters. [exn_text] stands for [six.text_type] on an exception. *)
Class MemberClient (B N : Type) := {
  node_id : N -> string;
  get_details : N -> B -> outcome node_detail * B;
  subnet_get : string -> B -> outcome (gmap string pyval) * B;
  network_get : pyval -> B -> outcome (gmap string pyval) * B;
  pool_member_create :
    string -> pyval -> pyval -> string -> B -> outcome resource * B;
  pool_member_delete : string -> string -> B -> outcome unit * B;
  exn_text : exn -> string
}.

(** What the member operations did to the pool, in order. *)
Inductive member_event :=
| MemberCreated (pool_id : string) (address port : pyval) (subnet : string)
    (member_id : string)
| MemberDeleted (pool_id member_id : string)
| MemberLogError (msg : string).

(** The world of the driver, and next to it what happened to the pool. *)
Record mworld (B : Type) := MWorld {
  driver : world B;
  members : list member_event
}.
Arguments MWorld {B} driver members.
Arguments driver {B} _.
Arguments members {B} _.

Section Members.
Context {B N : Type} `{NeutronClient B} `{MemberClient B N}.

(** A computation of the driver, here [_wait_for_lb_ready]. *)
Definition in_driver {A} (m : M (world B) A) : M (mworld B) A :=
  fun w =>
    match m (driver w) with
    | (o, d) => (o, MWorld d (members w))
    end.

(** A call of a method of the client (or of the node): the backend
    moves, and a call that returned leaves the events [ev]. *)
Definition ncall {A} (op : B -> outcome A * B) (ev : A -> list member_event)
  : M (mworld B) A :=
  fun w =>
    match op (backend (driver w)) with
    | (Ret a, b) =>
        (Ret a, MWorld (World b (trace (driver w))) (members w ++ ev a))
    | (Raise e, b) =>
        (Raise e, MWorld (World b (trace (driver w))) (members w))
    end.

Definition log_error (msg : string) : M (mworld B) unit :=
  fun w => (Ret tt, MWorld (driver w) (members w ++ [MemberLogError msg])).

(** [v == n] for an integer [n] ([True] and [False] are 1 and 0). *)
Definition py_eq_int (v : pyval) (n : Z) : bool :=
  match v with
  | PInt z => z =? n
  | PBool b => Z.b2z b =? n
  | _ => false
  end.

(** The inner loop of [_get_node_address]:
    [for addr in node_addresses[network]]. *)
Fixpoint scan_addrs (version : Z) (network : string)
    (addrs : list (gmap string pyval)) (address : gmap string pyval)
  : M (mworld B) (gmap string pyval) :=
  match addrs with
  | [] => ret address
  | addr :: rest =>
      v <- getitem addr "version" ;;
      if py_eq_int v version then
        a <- getitem addr "addr" ;;
        scan_addrs version network rest (<[network := a]> address)
      else scan_addrs version network rest address
  end.

(** The outer loop: [for network in node_addresses]. *)
Fixpoint scan_networks (version : Z)
    (items : list (string * list (gmap string pyval)))
    (address : gmap string pyval) : M (mworld B) (gmap string pyval) :=
  match items with
  | [] => ret address
  | (network, addrs) :: rest =>
      address <- scan_addrs version network addrs address ;;
      scan_networks version rest address
  end.

Definition _get_node_address (node : N) (version : Z)
  : M (mworld B) (gmap string pyval) :=
  node_detail <- ncall (get_details node) (fun _ => []) ;;
  match addresses node_detail with
  | Some node_addresses =>
      scan_networks version (map_to_list node_addresses) ∅
  | None => raise (TypeError "'NoneType' object is not iterable")
  end.

Definition member_add (node : N) (lb_id pool_id : string) (port : pyval)
    (subnet : string) : M (mworld B) (option string) :=
  addresses <- _get_node_address node 4 ;;
  if bool_decide (size addresses = 0%nat) then
    log_error ("Node (" +:+ node_id node
               +:+ ") does not have valid IPv4 address.") ;;;
    ret None
  else
  subnet_obj <- ncall (subnet_get subnet) (fun _ => []) ;;
  net_id <- getitem subnet_obj "network_id" ;;
  net <- ncall (network_get net_id) (fun _ => []) ;;
  net_name <- getitem net "name" ;;
  match net_name with
  | PList _ | PDict _ => raise (TypeError "unhashable type")
  | _ =>
      match match net_name with
            | PStr s => addresses !! s
            | _ => None
            end with
      | None =>
          log_error ("Node is not in subnet " +:+ subnet) ;;;
          ret None
      | Some address =>
          member <- ncall (pool_member_create pool_id address port subnet)
                          (fun m => [MemberCreated pool_id address port
                                                   subnet (id m)]) ;;
          in_driver (_wait_for_lb_ready lb_id 60 false) ;;;
          ret (Some (id member))
      end
  end.

Definition member_remove (lb_id pool_id member_id : string)
  : M (mworld B) bool :=
  try_except
    (ncall (pool_member_delete pool_id member_id)
           (fun _ => [MemberDeleted pool_id member_id]) ;;;
     in_driver (_wait_for_lb_ready lb_id 60 false) ;;;
     ret true)
    (fun ex =>
       Some (log_error ("Failed in removing member " +:+ member_id
                        +:+ " from pool " +:+ pool_id +:+ ": "
                        +:+ exn_text ex) ;;;
             ret false)).

(** *** What [_get_node_address] computes *)

(** An address of the wanted version. *)
Definition of_version (version : Z) (addr : gmap string pyval) : bool :=
  match addr !! "version" with
  | Some v => py_eq_int v version
  | None => false
  end.

(** The 'addr' of the last address of the wanted version in a list. *)
Definition last_address (version : Z) (addrs : list (gmap string pyval))
  : option pyval :=
  last (List.filter (of_version version) addrs) ≫= (fun addr => addr !! "addr").

(** Every address has a 'version', and those of the wanted version have
    an 'addr'. *)
Definition well_formed (version : Z)
    (node_addresses : gmap string (list (gmap string pyval))) : Prop :=
  forall network addrs addr,
    node_addresses !! network = Some addrs -> addr ∈ addrs ->
    is_Some (addr !! "version") /\
    (of_version version addr = true -> is_Some (addr !! "addr")).

End Members.
End LoadBalancerMembers.

(** ** A scripted node and pool

    A node with scripted details on top of the scripted Neutron
    backend; the subnet "subnet-1" lies in the network "private", and
    the pool "full" refuses new members. *)

Module ScriptedMembers.
Import LoadBalancerDriver.
Import LoadBalancerMembers.
Import Scripted.

Definition address (version : Z) (addr : string) : gmap string pyval :=
  <["version" := PInt version]> {["addr" := PStr addr]}.

Definition two_networks : gmap string (list (gmap string pyval)) :=
  <["private" := [address 4 "10.0.0.3"; address 6 "fe80::3";
                  address 4 "10.0.0.4"]]>
  {["public" := [address 6 "2001:db8::1"]]}.

Definition ipv6_only : gmap string (list (gmap string pyval)) :=
  {["private" := [address 6 "fe80::3"]]}.

#[export] Instance members_client
  : MemberClient script (option (gmap string (list (gmap string pyval)))) := {|
  node_id _ := "node-1";
  get_details n b := (Ret (NodeDetail n), b);
  subnet_get s b :=
    if String.eqb s "subnet-1" then (Ret {["network_id" := PStr "net-1"]}, b)
    else (Raise (ServiceError "no such subnet"), b);
  network_get _ b := (Ret {["name" := PStr "private"]}, b);
  pool_member_create p _ _ _ b :=
    if String.eqb p "full" then (Raise (ServiceError "pool is full"), b)
    else (Ret (Resource "member-1" "ACTIVE" "ONLINE"), b);
  pool_member_delete _ _ b := remove Pool b;
  exn_text _ := "error"
|}.

Definition mstart (answers : list (option resource))
    (broken : option kind) : mworld script :=
  MWorld (start answers broken) [].

End ScriptedMembers.

(** ** What the operations of the cluster endpoint answer *)

Module ClusterAnswers.
Import ClusterController.

Section Answers.
Context {R context sobj request : Type}.
Context `{Consts} `{Utils} `{Objects sobj} `{RpcClient R context sobj}.

(** The text of ['/actions/%s' % action_id]. *)
Definition location_of (action_id : pyval) : pyval :=
  PStr ("/actions/" +:+ py_str action_id).

(** What an operation returns when the engine has answered [resp], with
    the action [action_id]: [create] and [update] wrap the answer, less
    its 'action', under 'cluster'; [delete] returns the location alone;
    [action] returns the answer itself with the location added. *)
Definition expected_result (op : operation) (resp : gmap string pyval)
    (action_id : pyval) : gmap string pyval :=
  match op with
  | Create _ | Update _ _ =>
      <["location" := location_of action_id]>
        (<["cluster" := PDict (base.delete "action" resp)]> ∅)
  | Delete _ => <["location" := location_of action_id]> ∅
  | Action _ _ => <["location" := location_of action_id]> resp
  end.

(** [after_call w c build o w'] : between [w] and [w'] the call [c], and
    no other, was made.  Its exception is the outcome [o]; its answer
    without an 'action' gives [KeyError]; its answer with the action [a]
    gives the result [build resp a]. *)
Definition after_call (w : world R context sobj) (c : rpc_call context sobj)
    (build : gmap string pyval -> pyval -> gmap string pyval)
    (o : outcome (gmap string pyval)) (w' : world R context sobj) : Prop :=
  exists oc,
    calls w' = calls w ++ [c] /\
    rpc c (engine w) = (oc, engine w') /\
    match oc with
    | Raise e => o = Raise e
    | Ret resp =>
        match resp !! "action" with
        | None => o = Raise (KeyError "action")
        | Some a => o = Ret (build resp a)
        end
    end.

(** What a handler does once it has settled on the call [c]: the call
    is made and its answer gets the location of the action added. *)
Definition answered (c : rpc_call context sobj)
  : M (world R context sobj) (gmap string pyval) :=
  res <- rpc_client c ;; with_location res.

(** [given_as value parse r] : a parameter of a request is absent and
    [r] is None, or it is given, [parse] accepted it as [z], and [r] is
    that [z]. *)
Definition given_as {A} (value : pyval) (parse : outcome A) (r : option A)
  : Prop :=
  (value = PNone /\ r = None) \/
  (value <> PNone /\ exists z, parse = Ret z /\ r = Some z).

(** The two steps inside the [try] of [update], [get] and [index], as
    one value: [obj_from_primitive], then [jsonschema.validate]. *)
Definition checked (cls : string) (norm_req : pyval) : outcome sobj :=
  match obj_from_primitive cls norm_req with
  | Raise e => Raise e
  | Ret obj =>
      match validate norm_req obj with
      | Raise e => Raise e
      | Ret _ => Ret obj
      end
  end.

(** What the clauses [except ValueError] and
    [except jsonschema.exceptions.ValidationError] make of an
    exception. *)
Definition converted (e : exn) : exn :=
  match e with
  | ValueError _ => HTTPBadRequest (text_type e)
  | ValidationError message => HTTPBadRequest message
  | _ => e
  end.

(** The three steps that build and check a request object, as one
    value: [normalize_req], [obj_from_primitive], [jsonschema.validate]. *)
Definition built_request (cls : string) (params : pyval) (key : option string)
  : outcome sobj :=
  match normalize_req cls params key with
  | Raise e => Raise e
  | Ret norm_req =>
      match obj_from_primitive cls norm_req with
      | Raise e => Raise e
      | Ret obj =>
          match validate norm_req obj with
          | Raise e => Raise e
          | Ret _ => Ret obj
          end
      end
  end.

(** Data that the action named turns down: not a dict where one is
    needed, or a policy without its id, or with an 'enabled' that is no
    boolean. *)
Inductive bad_data : string -> pyval -> Prop :=
| bad_check v : is_dict v = false -> bad_data "check" v
| bad_recover v : is_dict v = false -> bad_data "recover" v
| bad_policy v name :
    name = "policy_attach" \/ name = "policy_update" ->
    is_dict v = false -> bad_data name v
| bad_policy_id d name :
    name = "policy_attach" \/ name = "policy_update" ->
    d !! CP_POLICY_ID = None -> bad_data name (PDict d)
| bad_policy_enabled d name v p x :
    name = "policy_attach" \/ name = "policy_update" ->
    d !! CP_ENABLED = Some v ->
    parse_bool_param CP_ENABLED v = Raise (InvalidParameter p x) ->
    bad_data name (PDict d)
| bad_detach d :
    py_truthy (dict_get d "policy_id" PNone) = false ->
    bad_data "policy_detach" (PDict d).

End Answers.
End ClusterAnswers.

(** ** The operations that read
    ([index], [get] and [collect] of [ClusterController]) *)

Module ClusterQueries.
Import ClusterController.

(** [senlin.common.consts]: the names of the query parameters of a
    cluster listing. *)
Class QueryConsts := {
  CLUSTER_NAME : string;
  CLUSTER_STATUS : string;
  PARAM_LIMIT : string;
  PARAM_MARKER : string;
  PARAM_SORT : string;
  PARAM_GLOBAL_PROJECT : string
}.

(** The calls of [index] and [collect] on [self.rpc_client]; their
    answers are handed back as they are, whatever they are. *)
Inductive query (context sobj : Type) :=
| cluster_list2 (ctx : context) (obj : sobj)
| cluster_collect (ctx : context) (cluster_id : string) (path : string).
Arguments cluster_list2 {context sobj}.
Arguments cluster_collect {context sobj}.

(** [util.get_allowed_params], which is not part of the sources at
    hand, and the engine's answers to the calls above. *)
Class QueryClient (R context sobj : Type) := {
  get_allowed_params :
    list (string * pyval) -> gmap string string -> gmap string pyval;
  ask : query context sobj -> R -> outcome pyval * R
}.

(** The world of the controller, and the queries issued so far. *)
Record qworld (R context sobj : Type) := QWorld {
  controller : world R context sobj;
  asked : list (query context sobj)
}.
Arguments QWorld {R context sobj} controller asked.
Arguments controller {R context sobj} _.
Arguments asked {R context sobj} _.

Section Queries.
Context {R context sobj request : Type}.
Context `{Consts} `{Utils} `{Objects sobj} `{RpcClient R context sobj}.
Context `{QueryConsts} `{QueryClient R context sobj}.

Variable req_context : request -> context.

(** [req.params]: the query parameters in the order of the request; a
    name may come more than once. *)
Variable req_params : request -> list (string * pyval).

(** [str.isspace] on a character: what [str.strip] removes. *)
Variable is_space : Ascii.ascii -> bool.

Local Abbreviation W := (world R context sobj).
Local Abbreviation QW := (qworld R context sobj).

(** The decorators, as for the operations that change a cluster; here
    they guard computations over either world. *)
Variable policy_enforce :
  forall V A, string -> request -> M V A -> M V A.
Variable api_version :
  forall V A, string -> request -> M V A -> M V A.

(** A step of the controller that makes no query. *)
Definition in_controller {A} (m : M W A) : M QW A :=
  fun w =>
    match m (controller w) with
    | (o, c) => (o, QWorld c (asked w))
    end.

(** A query on [self.rpc_client]: it is recorded, the engine moves, and
    its answer or its exception comes back. *)
Definition rpc_query (q : query context sobj) : M QW pyval :=
  fun w =>
    match ask q (engine (controller w)) with
    | (o, r) => (o, QWorld (World r (calls (controller w))) (asked w ++ [q]))
    end.

(** The dict literal [whitelist] of [index]. *)
Definition whitelist : gmap string string :=
  <[PARAM_GLOBAL_PROJECT := "single"]>
  (<[PARAM_SORT := "single"]>
  (<[PARAM_MARKER := "single"]>
  (<[PARAM_LIMIT := "single"]>
  (<[CLUSTER_STATUS := "mixed"]>
  (<[CLUSTER_NAME := "mixed"]> ∅))))).

(** The loop [for key in req.params.keys()] of [index]. *)
Fixpoint check_keys (keys : list string) : M QW unit :=
  match keys with
  | [] => ret tt
  | key :: rest =>
      if negb (bool_decide (is_Some (whitelist !! key))) then
        raise (HTTPBadRequest
          ("Invalid parameter '" +:+ key +:+ "'"))
      else check_keys rest
  end.

Definition index (req : request) : M QW (gmap string pyval) :=
  policy_enforce _ _ "index" req (
    check_keys (req_params req).*1 ;;;
    let params := get_allowed_params (req_params req) whitelist in
    let is_global := dict_get params PARAM_GLOBAL_PROJECT (PBool false) in
    let params := base.delete PARAM_GLOBAL_PROJECT params in
    unsafe <- lift (parse_bool_param PARAM_GLOBAL_PROJECT is_global) ;;
    let params := <["project_safe" := PBool (negb unsafe)]> params in
    norm_req <- lift (normalize_req "ClusterListRequestBody" (PDict params)
                                    None) ;;
    obj <- in_controller (checked_request "ClusterListRequestBody"
                                          norm_req) ;;
    clusters <- rpc_query (cluster_list2 (req_context req) obj) ;;
    ret (<["clusters" := clusters]> ∅)).

Definition get (req : request) (cluster_id : string)
  : M W (gmap string pyval) :=
  policy_enforce _ _ "get" req (
    norm_req <- lift (normalize_req "ClusterGetRequest"
                        (PDict (<["identity" := PStr cluster_id]> ∅))
                        None) ;;
    obj <- checked_request "ClusterGetRequest" norm_req ;;
    cluster <- rpc_client (call2 (req_context req) "cluster_get2" obj) ;;
    ret (<["cluster" := PDict cluster]> ∅)).

(** [str.lstrip], [str.rstrip] and [str.strip] without argument. *)
Fixpoint lstrip (s : string) : string :=
  match s with
  | String c rest => if is_space c then lstrip rest else s
  | EmptyString => EmptyString
  end.

Fixpoint rstrip (s : string) : string :=
  match s with
  | String c rest =>
      match rstrip rest with
      | EmptyString => if is_space c then EmptyString
                       else String c EmptyString
      | kept => String c kept
      end
  | EmptyString => EmptyString
  end.

Definition strip (s : string) : string := rstrip (lstrip s).

Definition collect (req : request) (cluster_id path : string)
  : M QW pyval :=
  api_version _ _ "1.2" req (
    policy_enforce _ _ "collect" req (
      let stripped_path := strip path in
      if String.eqb stripped_path "" then
        raise (HTTPBadRequest "Required path attribute is missing.")
      else
        rpc_query (cluster_collect (req_context req) cluster_id
                                   stripped_path))).

(** A string of whitespace only. *)
Fixpoint blank (s : string) : bool :=
  match s with
  | String c rest => is_space c && blank rest
  | EmptyString => true
  end.

(** The decorators let the request through to the method. *)
Definition let_through (req : request) : Prop :=
  (forall V A handler (m : M V A), policy_enforce V A handler req m = m) /\
  (forall V A version (m : M V A), api_version V A version req m = m).

End Queries.
End ClusterQueries.

(** ** Request objects that can be turned down

    A second instance of the request-object helpers, on which the
    controller's handling of their exceptions can be run:
    [normalize_req] raises [ValueError] when the key it is given is not
    in the body, and validation fails on a request without a name. *)

Module Picky.
Import ClusterController.

Definition normalize (cls : string) (body : pyval) (key : option string)
  : outcome pyval :=
  match key, body with
  | None, _ => Ret body
  | Some k, PDict d =>
      match d !! k with
      | Some _ => Ret body
      | None => Raise (ValueError "Request body missing key")
      end
  | Some _, _ => Raise (ValueError "Request body missing key")
  end.

Definition named (norm_req : pyval) : outcome unit :=
  match norm_req with
  | PDict d =>
      match d !! "name" with
      | Some _ => Ret tt
      | None => Raise (ValidationError "'name' is a required property")
      end
  | _ => Ret tt
  end.

Definition objects : Objects pyval := {|
  normalize_req := normalize;
  obj_from_primitive _ norm_req := Ret norm_req;
  validate norm_req _ := named norm_req;
  obj_cluster obj := Ret obj
|}.

End Picky.

(** ** A canned engine for the queries *)

Module CannedQueries.
Import ClusterController ClusterQueries.

#[export] Instance names : QueryConsts := {|
  CLUSTER_NAME := "name";
  CLUSTER_STATUS := "status";
  PARAM_LIMIT := "limit";
  PARAM_MARKER := "marker";
  PARAM_SORT := "sort";
  PARAM_GLOBAL_PROJECT := "global_project"
|}.

#[export] Instance answers : QueryClient unit unit pyval := {|
  get_allowed_params params _ := list_to_map params;
  ask _ r := (Ret (PList []), r)
|}.

Definition pass (V A : Type) (name : string) (req : list (string * pyval))
    (m : M V A) : M V A := m.

(** A request is its list of query parameters. *)
Definition begin : qworld unit unit pyval := QWorld (World tt []) [].

Definition blank_char (c : Ascii.ascii) : bool :=
  Ascii.eqb c (Ascii.ascii_of_nat 32).

End CannedQueries.

(** ** The driver's Neutron client ([__init__] and [nc]) *)

Module LoadBalancerClient.

Section Client.
Context {C N : Type}.

(** [neutronclient.NeutronClient(ctx)], which is not part of the
    sources at hand: it builds a client or raises. *)
Variable NeutronClient : C -> outcome N.

(** The truth value of a client object, as [if self._nc:] takes it. *)
Variable truthy : N -> bool.

(** The attributes of the driver, and the number of clients built so
    far. *)
Record driver := Driver {
  ctx : C;
  _nc : option N;
  built : nat
}.

Definition __init__ (ctx : C) : driver := Driver ctx None 0.

Definition nc : M driver N :=
  fun self =>
    match _nc self with
    | Some c =>
        if truthy c then (Ret c, self)
        else
          match NeutronClient (ctx self) with
          | Ret c' => (Ret c', Driver (ctx self) (Some c') (S (built self)))
          | Raise e => (Raise e, self)
          end
    | None =>
        match NeutronClient (ctx self) with
        | Ret c' => (Ret c', Driver (ctx self) (Some c') (S (built self)))
        | Raise e => (Raise e, self)
        end
    end.

(** [n] calls of [nc] in a row; the clients they returned, the first
    call first. *)
Fixpoint nc_times (n : nat) : M driver (list N) :=
  match n with
  | O => ret []
  | S n => c <- nc ;; cs <- nc_times n ;; ret (c :: cs)
  end.

End Client.
End LoadBalancerClient.

(** * Facts *)

Lemma bind_ret_l {W A B} (a : A) (k : A -> M W B) w :
  bind (ret a) k w = k a w.
Proof. reflexivity. Qed.

Lemma bind_inv_Ret {W A B} (m : M W A) (k : A -> M W B) w b w' :
  bind m k w = (Ret b, w') ->
  exists a w1, m w = (Ret a, w1) /\ k a w1 = (Ret b, w').
Proof.
  unfold bind. destruct (m w) as [[a|e] w1]; intros H.
  - exists a, w1. split; [reflexivity | exact H].
  - discriminate H.
Qed.

Lemma bind_Ret {W A B} (m : M W A) (k : A -> M W B) w a w1 :
  m w = (Ret a, w1) -> bind m k w = k a w1.
Proof. unfold bind. intros ->. reflexivity. Qed.

Lemma bind_Raise {W A B} (m : M W A) (k : A -> M W B) w e w1 :
  m w = (Raise e, w1) -> bind m k w = (Raise e, w1).
Proof. unfold bind. intros ->. reflexivity. Qed.

Lemma getitem_inv_Ret {W A} (d : gmap string A) key (w : W) v w' :
  getitem d key w = (Ret v, w') -> d !! key = Some v /\ w' = w.
Proof.
  unfold getitem. destruct (d !! key) as [x|]; cbn; intros H.
  - injection H as -> ->. split; reflexivity.
  - discriminate H.
Qed.

Lemma quiet_ret {W A} (a : A) : quiet (ret (W := W) a).
Proof. intros w. reflexivity. Qed.

Lemma quiet_raise {W A} e : quiet (raise (W := W) (A := A) e).
Proof. intros w. reflexivity. Qed.

Lemma quiet_lift {W A} (o : outcome A) : quiet (lift (W := W) o).
Proof. intros w. reflexivity. Qed.

Lemma quiet_bind {W A B} (m : M W A) (k : A -> M W B) :
  quiet m -> (forall a, quiet (k a)) -> quiet (bind m k).
Proof.
  intros Hm Hk w. unfold bind. specialize (Hm w).
  destruct (m w) as [[a|e] w1]; cbn in *; subst w1; [apply Hk|reflexivity].
Qed.

Lemma quiet_try_except {W A} (m : M W A) h :
  quiet m -> (forall e k, h e = Some k -> quiet k) -> quiet (try_except m h).
Proof.
  intros Hm Hh w. unfold try_except. specialize (Hm w).
  destruct (m w) as [[a|e] w1]; cbn in *; subst w1; [reflexivity|].
  destruct (h e) as [k|] eqn:He; [eapply Hh, He|reflexivity].
Qed.

Lemma quiet_getitem {W A} (d : gmap string A) key : quiet (getitem (W := W) d key).
Proof. intros w. unfold getitem. destruct (d !! key); reflexivity. Qed.

(** What a quiet computation does in front of a continuation. *)
Lemma quiet_bind_cases {W A B} (m : M W A) (k : A -> M W B) w :
  quiet m ->
  (exists a, m w = (Ret a, w) /\ bind m k w = k a w) \/
  (exists e, m w = (Raise e, w) /\ bind m k w = (Raise e, w)).
Proof.
  intros Hm. specialize (Hm w). unfold bind.
  destruct (m w) as [[a|e] w1]; cbn in Hm; subst w1; eauto.
Qed.

Lemma getitem_Some {W A} (d : gmap string A) key (w : W) v :
  d !! key = Some v -> getitem d key w = (Ret v, w).
Proof. unfold getitem. intros ->. reflexivity. Qed.

(** ** The driver *)

Module LoadBalancerDriverFacts.
Import LoadBalancerDriver.

Lemma rounds_0 waited timeout : rounds waited timeout = 0%nat -> timeout <= waited.
Proof.
  unfold rounds. intros Hr.
  destruct (Z_lt_le_dec waited timeout) as [Hlt|Hle]; [|exact Hle].
  assert (1 <= (timeout - waited + 1) / 2) by (apply Z.div_le_lower_bound; lia).
  lia.
Qed.

Lemma rounds_S waited timeout n :
  rounds waited timeout = S n ->
  waited < timeout /\ rounds (waited + 2) timeout = n.
Proof.
  unfold rounds. intros Hr. split.
  - destruct (Z_lt_le_dec waited timeout) as [Hlt|Hle]; [exact Hlt|].
    assert ((timeout - waited + 1) / 2 <= 0).
    { apply Z.lt_succ_r. apply Z.div_lt_upper_bound; lia. }
    lia.
  - replace (timeout - (waited + 2) + 1) with ((timeout - waited + 1) + (-1) * 2)
      by lia.
    rewrite Z.div_add by lia. lia.
Qed.

Lemma rounds_bound waited timeout :
  timeout - waited <= 2 * Z.of_nat (rounds waited timeout).
Proof.
  unfold rounds.
  destruct (Z_lt_le_dec waited timeout) as [Hlt|Hle].
  - rewrite Z2Nat.id by (apply Z.div_pos; lia).
    pose proof (Z.mod_pos_bound (timeout - waited + 1) 2 ltac:(lia)).
    pose proof (Z.div_mod (timeout - waited + 1) 2 ltac:(lia)). lia.
  - lia.
Qed.

Section Facts.
Context {B : Type} `{NeutronClient B}.

Lemma call_inv_Ret {A} (op : B -> outcome A * B) ev w a w' :
  call op ev w = (Ret a, w') ->
  op (backend w) = (Ret a, backend w') /\ trace w' = trace w ++ [ev a].
Proof.
  unfold call. destruct (op (backend w)) as [[x|e] b]; intros Hc.
  - injection Hc as -> <-. split; reflexivity.
  - discriminate Hc.
Qed.

Lemma call_inv_Raise {A} (op : B -> outcome A * B) ev w e w' :
  call op ev w = (Raise e, w') ->
  op (backend w) = (Raise e, backend w') /\ trace w' = trace w.
Proof.
  unfold call. destruct (op (backend w)) as [[x|e'] b]; intros Hc.
  - discriminate Hc.
  - injection Hc as -> <-. split; reflexivity.
Qed.

(** One pass of the loop, as the source has it. *)
Lemma wait_loop_unfold waited lb_id timeout inf (w : world B) :
  wait_loop waited lb_id timeout inf w =
  if decide (waited < timeout) then
    match call (loadbalancer_get lb_id) (Polled lb_id) w with
    | (Ret lb, w1) =>
        if lb_ready inf lb then (Ret true, w1)
        else wait_loop (waited + 2) lb_id timeout inf
               (World (backend w1) (trace w1 ++ [Slept 2]))
    | (Raise e, w1) => (Raise e, w1)
    end
  else (Ret false, w).
Proof.
  rewrite wait_loop_equation_1.
  destruct (decide (waited < timeout)); [|reflexivity].
  unfold bind. destruct (call _ _ w) as [[lb|e] w1]; [|reflexivity].
  destruct (lb_ready inf lb); reflexivity.
Qed.

(** What a wait does, pass by pass. [seen] lists what the passes that
    did not end the loop saw. *)
Lemma wait_loop_spec n : forall waited lb_id timeout inf (w : world B),
  rounds waited timeout = n ->
  exists o w' (seen : list (option resource)),
    wait_loop waited lb_id timeout inf w = (o, w') /\
    Forall (fun s => lb_ready inf s = false) seen /\
    match o with
    | Ret true =>
        exists s, lb_ready inf s = true /\ (length seen < n)%nat /\
          trace w' = trace w ++ flat_map (idle_round lb_id) seen
                             ++ [Polled lb_id s]
    | Ret false =>
        length seen = n /\
        trace w' = trace w ++ flat_map (idle_round lb_id) seen
    | Raise e =>
        (length seen < n)%nat /\
        trace w' = trace w ++ flat_map (idle_round lb_id) seen
    end.
Proof.
  induction n as [|n IH]; intros waited lb_id timeout inf w Hr.
  - apply rounds_0 in Hr.
    exists (Ret false), w, []. rewrite wait_loop_unfold.
    destruct (decide (waited < timeout)); [lia|].
    split; [reflexivity|]. split; [constructor|].
    split; [reflexivity|]. cbn. rewrite app_nil_r. reflexivity.
  - apply rounds_S in Hr as [Hlt Hr].
    rewrite wait_loop_unfold.
    destruct (decide (waited < timeout)); [|lia].
    destruct (call (loadbalancer_get lb_id) (Polled lb_id) w) as [[lb|e] w1] eqn:Hc.
    + apply call_inv_Ret in Hc as [_ Ht].
      destruct (lb_ready inf lb) eqn:Hready.
      * exists (Ret true), w1, []. split; [reflexivity|]. split; [constructor|].
        exists lb. split; [exact Hready|]. split; [cbn; lia|]. exact Ht.
      * destruct (IH (waited + 2) lb_id timeout inf
                    (World (backend w1) (trace w1 ++ [Slept 2])) Hr)
          as (o & w' & seen & Hrun & Hall & Ho).
        exists o, w', (lb :: seen). split; [exact Hrun|].
        split; [constructor; assumption|].
        cbn [trace] in Ho. rewrite Ht in Ho.
        destruct o as [[|]|e].
        -- destruct Ho as (s & Hs & Hlen & Htr). exists s.
           split; [exact Hs|]. split; [cbn; lia|].
           rewrite Htr. cbn. rewrite <- !app_assoc. reflexivity.
        -- destruct Ho as [Hlen Htr]. split; [cbn; lia|].
           rewrite Htr. cbn. rewrite <- !app_assoc. reflexivity.
        -- destruct Ho as [Hlen Htr]. split; [cbn; lia|].
           rewrite Htr. cbn. rewrite <- !app_assoc. reflexivity.
    + apply call_inv_Raise in Hc as [_ Ht].
      exists (Raise e), w1, []. split; [reflexivity|]. split; [constructor|].
      split; [cbn; lia|]. cbn. rewrite app_nil_r. exact Ht.
Qed.

(** The test of the loop body is readiness as the docstring words it. *)
Lemma lb_ready_is_ready inf lb : lb_ready inf lb = true <-> is_ready inf lb.
Proof.
  unfold lb_ready, is_ready. destruct lb as [r|]; [|tauto].
  rewrite andb_true_iff, !String.eqb_eq. tauto.
Qed.

Lemma lb_ready_not_ready inf lb : lb_ready inf lb = false <-> ~ is_ready inf lb.
Proof.
  rewrite <- lb_ready_is_ready. destruct (lb_ready inf lb); split;
    congruence.
Qed.

(** The loop is the bounded retry loop of the docstring, with as many
    polls as the timeout has steps of two seconds left. *)
Lemma wait_loop_polling n : forall waited lb_id timeout inf (w : world B),
  rounds waited timeout = n ->
  polling lb_id inf n w (fst (wait_loop waited lb_id timeout inf w))
                        (snd (wait_loop waited lb_id timeout inf w)).
Proof.
  induction n as [|n IH]; intros waited lb_id timeout inf w Hr.
  - apply rounds_0 in Hr. rewrite wait_loop_unfold.
    destruct (decide (waited < timeout)); [lia|]. constructor.
  - apply rounds_S in Hr as [Hlt Hr].
    rewrite wait_loop_unfold.
    destruct (decide (waited < timeout)); [|lia].
    unfold call.
    destruct (loadbalancer_get lb_id (backend w)) as [[lb|e] b] eqn:Hget.
    + destruct (lb_ready inf lb) eqn:Hready.
      * apply polling_ready; [exact Hget|].
        apply lb_ready_is_ready. exact Hready.
      * cbn [backend trace]. rewrite <- app_assoc.
        eapply polling_again; [exact Hget| |].
        -- apply lb_ready_not_ready. exact Hready.
        -- apply (IH (waited + 2) lb_id timeout inf). exact Hr.
    + apply polling_raises. exact Hget.
Qed.

(** C4. [_wait_for_lb_ready lb_id timeout ignore_not_found] always ends,
    and what it does is the bounded retry loop of its docstring, with
    at most ⌈timeout / 2⌉ polls: each poll asks the backend's
    [loadbalancer_get]; the first answer that is ACTIVE and ONLINE (or
    absent, when [ignore_not_found] holds) ends the loop with True,
    without sleeping again; every other answer is followed by a sleep
    of 2 seconds; after ⌈timeout / 2⌉ such answers, when the time slept
    has reached the timeout, the loop ends with False; and only an
    exception of [loadbalancer_get] makes it raise, that exception. *)
Theorem wait_for_lb_ready_bounded lb_id timeout inf (w : world B) :
  exists o w' (seen : list (option resource)),
    _wait_for_lb_ready lb_id timeout inf w = (o, w') /\
    polling lb_id inf (rounds 0 timeout) w o w' /\
    Forall (fun s => ~ is_ready inf s) seen /\
    (length seen <= rounds 0 timeout)%nat /\
    match o with
    | Ret true =>
        exists s, is_ready inf s /\
          (length seen < rounds 0 timeout)%nat /\
          trace w' = trace w ++ flat_map (idle_round lb_id) seen
                             ++ [Polled lb_id s]
    | Ret false =>
        length seen = rounds 0 timeout /\
        timeout <= 2 * Z.of_nat (length seen) /\
        trace w' = trace w ++ flat_map (idle_round lb_id) seen
    | Raise e =>
        (length seen < rounds 0 timeout)%nat /\
        trace w' = trace w ++ flat_map (idle_round lb_id) seen
    end.
Proof.
  destruct (wait_loop_spec (rounds 0 timeout) 0 lb_id timeout inf w eq_refl)
    as (o & w' & seen & Hrun & Hall & Ho).
  pose proof (wait_loop_polling (rounds 0 timeout) 0 lb_id timeout inf w
                eq_refl) as Hpoll.
  rewrite Hrun in Hpoll. cbn [fst snd] in Hpoll.
  exists o, w', seen. split; [exact Hrun|]. split; [exact Hpoll|].
  split.
  { eapply Forall_impl; [exact Hall|]. intros s. apply lb_ready_not_ready. }
  destruct o as [[|]|e].
  - destruct Ho as (s & Hs & Hlen & Htr). split; [lia|].
    exists s. split; [apply lb_ready_is_ready; exact Hs|]. auto.
  - destruct Ho as [Hlen Htr]. split; [lia|].
    split; [exact Hlen|]. split; [|exact Htr].
    rewrite Hlen. pose proof (rounds_bound 0 timeout). lia.
  - destruct Ho as [Hlen Htr]. split; [lia|]. auto.
Qed.


(** *** Traces *)

Lemma mutations_app (a b : list event) :
  mutations (a ++ b) = mutations a ++ mutations b.
Proof. unfold mutations. apply List.filter_app. Qed.

Lemma mutations_idle lb_id seen :
  mutations (flat_map (idle_round lb_id) seen) = [].
Proof. induction seen as [|s seen IH]; [reflexivity|exact IH]. Qed.

(** A wait changes nothing outside: it only polls and sleeps. *)
Lemma wait_quiet lb_id timeout inf (w : world B) o w' :
  _wait_for_lb_ready lb_id timeout inf w = (o, w') ->
  exists t, trace w' = trace w ++ t /\ mutations t = [].
Proof.
  intros Hrun.
  destruct (wait_loop_spec (rounds 0 timeout) 0 lb_id timeout inf w eq_refl)
    as (o' & w'' & seen & Hrun' & _ & Ho).
  unfold _wait_for_lb_ready in Hrun. rewrite Hrun in Hrun'.
  injection Hrun' as <- <-.
  destruct o as [[|]|e].
  - destruct Ho as (s & _ & _ & Htr). eexists. split; [exact Htr|].
    rewrite mutations_app, mutations_idle. reflexivity.
  - destruct Ho as [_ Htr]. eexists. split; [exact Htr|].
    apply mutations_idle.
  - destruct Ho as [_ Htr]. eexists. split; [exact Htr|].
    apply mutations_idle.
Qed.

Lemma net_count_mutations (t : list event) : net_count t = net_count (mutations t).
Proof.
  unfold net_count, mutations.
  assert (Hc : List.filter is_created (List.filter is_mutation t)
               = List.filter is_created t).
  { induction t as [|e t IH]; [reflexivity|].
    destruct e; cbn; rewrite IH; reflexivity. }
  assert (Hd : List.filter is_deleted (List.filter is_mutation t)
               = List.filter is_deleted t).
  { clear Hc. induction t as [|e t IH]; [reflexivity|].
    destruct e; cbn; rewrite IH; reflexivity. }
  rewrite Hc, Hd. reflexivity.
Qed.

Lemma net_count_balanced (created : list (kind * string)) :
  net_count (map created_ev created ++ map deleted_ev (rev created)) = 0.
Proof.
  unfold net_count.
  assert (Hc : forall l,
             List.filter is_created (map created_ev l) = map created_ev l
             /\ List.filter is_deleted (map created_ev l) = []).
  { induction l as [|c l [IH1 IH2]]; [split; reflexivity|].
    cbn. rewrite IH1, IH2. split; reflexivity. }
  assert (Hd : forall l,
             List.filter is_deleted (map deleted_ev l) = map deleted_ev l
             /\ List.filter is_created (map deleted_ev l) = []).
  { induction l as [|c l [IH1 IH2]]; [split; reflexivity|].
    cbn. rewrite IH1, IH2. split; reflexivity. }
  rewrite !List.filter_app.
  destruct (Hc created) as [-> ->]. destruct (Hd (rev created)) as [-> ->].
  rewrite !length_app, !length_map, length_rev. cbn. lia.
Qed.

(** *** [lb_delete] *)

(** One of the guarded blocks of [lb_delete]: delete, then wait. *)
Lemma delete_block_inv_Ret (k : kind) (op : string -> B -> outcome unit * B)
    lb_id (x : option string) (w : world B) u w' :
  if_id x (fun i =>
    call (op i) (fun _ => Deleted k i) ;;;
    _wait_for_lb_ready lb_id 60 false ;;; ret tt) w = (Ret u, w') ->
  exists t, trace w' = trace w ++ t /\ mutations t = dels k x.
Proof.
  unfold if_id, dels. destruct x as [i|].
  - destruct (String.eqb i "").
    + intros Hr. injection Hr as _ <-. exists []. rewrite app_nil_r. auto.
    + intros Hr.
      apply bind_inv_Ret in Hr as (? & w1 & Hcall & Hr).
      apply bind_inv_Ret in Hr as (? & w2 & Hwait & Hr).
      injection Hr as _ <-.
      apply call_inv_Ret in Hcall as [_ Ht1].
      apply wait_quiet in Hwait as (t2 & Ht2 & Hq).
      exists ([Deleted k i] ++ t2). split.
      * rewrite Ht2, Ht1, <- app_assoc. reflexivity.
      * rewrite mutations_app, Hq. reflexivity.
  - intros Hr. injection Hr as _ <-. exists []. rewrite app_nil_r. auto.
Qed.

(** When [lb_delete] returns, it returns success, and it has issued its
    delete calls in the order of its docstring: health monitor, pool,
    listener, load balancer. *)
Lemma lb_delete_inv_Ret (kwargs : gmap string string) (w : world B) r w' :
  lb_delete kwargs w = (Ret r, w') ->
  exists lb_id t,
    kwargs !! "loadbalancer" = Some lb_id /\
    r = (true, "LB deletion succeeded") /\
    trace w' = trace w ++ t /\
    mutations t = dels Healthmonitor (kwargs !! "healthmonitor")
                  ++ dels Pool (kwargs !! "pool")
                  ++ dels Listener (kwargs !! "listener")
                  ++ [Deleted Loadbalancer lb_id].
Proof.
  unfold lb_delete. intros Hr.
  apply bind_inv_Ret in Hr as (lb_id & w0 & Hget & Hr).
  apply getitem_inv_Ret in Hget as [Hlb ->].
  apply bind_inv_Ret in Hr as (? & w1 & Hhm & Hr).
  apply bind_inv_Ret in Hr as (? & w2 & Hpool & Hr).
  apply bind_inv_Ret in Hr as (? & w3 & Hlis & Hr).
  apply bind_inv_Ret in Hr as (? & w4 & Hdel & Hr).
  apply bind_inv_Ret in Hr as (? & w5 & Hwait & Hr).
  injection Hr as <- <-.
  apply delete_block_inv_Ret in Hhm as (t1 & Ht1 & Hm1).
  apply delete_block_inv_Ret in Hpool as (t2 & Ht2 & Hm2).
  apply delete_block_inv_Ret in Hlis as (t3 & Ht3 & Hm3).
  apply call_inv_Ret in Hdel as [_ Ht4].
  apply wait_quiet in Hwait as (t5 & Ht5 & Hm5).
  exists lb_id, (t1 ++ t2 ++ t3 ++ [Deleted Loadbalancer lb_id] ++ t5).
  split; [exact Hlb|]. split; [reflexivity|]. split.
  - rewrite Ht5, Ht4, Ht3, Ht2, Ht1, <- !app_assoc. reflexivity.
  - rewrite !mutations_app, Hm1, Hm2, Hm3, Hm5, app_nil_r. reflexivity.
Qed.


(** *** [lb_create] *)

Lemma creates_loadbalancer_run vip (w : world B) lb w1 {A}
    (k : resource -> M (world B) A) :
  creates_loadbalancer vip w lb w1 ->
  (subnet <- getitem vip "subnet" ;;
   admin_state_up <- getitem vip "admin_state_up" ;;
   lb <- call (loadbalancer_create subnet (dict_get vip "address" PNone)
                                   admin_state_up)
              (fun lb => Created Loadbalancer (id lb)) ;;
   k lb) w = k lb w1.
Proof.
  intros (subnet & admin & Hs & Ha & Hc).
  unfold bind, getitem. rewrite Hs, Ha. cbn. rewrite Hc. reflexivity.
Qed.

Lemma creates_listener_run vip lb (w : world B) l w1 {A}
    (k : resource -> M (world B) A) :
  creates_listener vip lb w l w1 ->
  (protocol <- getitem vip "protocol" ;;
   protocol_port <- getitem vip "protocol_port" ;;
   admin_state_up <- getitem vip "admin_state_up" ;;
   listener <- call (listener_create (id lb) protocol protocol_port
                       (dict_get vip "connection_limit" PNone) admin_state_up)
                    (fun l => Created Listener (id l)) ;;
   k listener) w = k l w1.
Proof.
  intros (pr & port & admin & Hp & Hpp & Ha & Hc).
  unfold bind, getitem. rewrite Hp, Hpp, Ha. cbn. rewrite Hc. reflexivity.
Qed.

Lemma creates_pool_run pool l (w : world B) p w1 {A}
    (k : resource -> M (world B) A) :
  creates_pool pool l w p w1 ->
  (lb_method <- getitem pool "lb_method" ;;
   pool_protocol <- getitem pool "protocol" ;;
   pool_admin <- getitem pool "admin_state_up" ;;
   pool_obj <- call (pool_create lb_method (id l) pool_protocol pool_admin)
                    (fun p => Created Pool (id p)) ;;
   k pool_obj) w = k p w1.
Proof.
  intros (m & pr & admin & Hm & Hp & Ha & Hc).
  unfold bind, getitem. rewrite Hm, Hp, Ha. cbn. rewrite Hc. reflexivity.
Qed.

Lemma waits_run lb res (w w' : world B) {A} (k : bool -> M (world B) A) :
  waits lb res w w' ->
  (res <- _wait_for_lb_ready (id lb) 60 false ;; k res) w = k res w'.
Proof. intros Hw. apply bind_Ret. exact Hw. Qed.

(** From a failing step on, [lb_create] is its clean-up followed by the
    return of the failure. *)
Lemma lb_create_from_failing_step vip pool (w : world B) created msg w2 :
  failing_step vip pool w created msg w2 ->
  lb_create vip pool w
  = (_cleanup msg (result_of created) ;;; ret (false, Msg msg)) w2.
Proof.
  intros Hf. unfold lb_create.
  destruct Hf as [lb w1 w2 Hlb Hw1
                 |lb w1 w2 l w3 w4 Hlb Hw1 Hl Hw2
                 |lb w1 w2 l w3 w4 p w5 w6 Hlb Hw1 Hl Hw2 Hp Hw3].
  - rewrite (creates_loadbalancer_run _ _ _ _ _ Hlb).
    rewrite (waits_run _ _ _ _ _ Hw1). reflexivity.
  - rewrite (creates_loadbalancer_run _ _ _ _ _ Hlb).
    rewrite (waits_run _ _ _ _ _ Hw1). cbn [negb].
    rewrite (creates_listener_run _ _ _ _ _ _ Hl).
    rewrite (waits_run _ _ _ _ _ Hw2). reflexivity.
  - rewrite (creates_loadbalancer_run _ _ _ _ _ Hlb).
    rewrite (waits_run _ _ _ _ _ Hw1). cbn [negb].
    rewrite (creates_listener_run _ _ _ _ _ _ Hl).
    rewrite (waits_run _ _ _ _ _ Hw2). cbn [negb].
    rewrite (creates_pool_run _ _ _ _ _ _ Hp).
    rewrite (waits_run _ _ _ _ _ Hw3). reflexivity.
Qed.

Lemma lb_create_from_succeeding_run vip pool (w : world B) lb l p w' :
  succeeding_run vip pool w lb l p w' ->
  lb_create vip pool w
  = (Ret (true, Result (result_of
            [(Loadbalancer, id lb); (Listener, id l); (Pool, id p)])), w').
Proof.
  intros (w1 & w2 & w3 & w4 & w5 & Hlb & Hw1 & Hl & Hw2 & Hp & Hw3).
  unfold lb_create.
  rewrite (creates_loadbalancer_run _ _ _ _ _ Hlb).
  rewrite (waits_run _ _ _ _ _ Hw1). cbn [negb].
  rewrite (creates_listener_run _ _ _ _ _ _ Hl).
  rewrite (waits_run _ _ _ _ _ Hw2). cbn [negb].
  rewrite (creates_pool_run _ _ _ _ _ _ Hp).
  rewrite (waits_run _ _ _ _ _ Hw3). reflexivity.
Qed.

(** Every run of [lb_create] that returns is one of the two above. *)
Lemma lb_create_inv_Ret vip pool (w : world B) b p w' :
  lb_create vip pool w = (Ret (b, p), w') ->
  (b = true /\ exists lb l po, succeeding_run vip pool w lb l po w') \/
  (b = false /\ exists created msg w2,
      failing_step vip pool w created msg w2 /\ p = Msg msg).
Proof.
  unfold lb_create. intros Hr.
  apply bind_inv_Ret in Hr as (subnet & ? & Hs & Hr).
  apply getitem_inv_Ret in Hs as [Hs ->].
  apply bind_inv_Ret in Hr as (admin & ? & Ha & Hr).
  apply getitem_inv_Ret in Ha as [Ha ->].
  apply bind_inv_Ret in Hr as (lb & w1 & Hclb & Hr).
  assert (Hlb : creates_loadbalancer vip w lb w1) by (exists subnet, admin; auto).
  apply bind_inv_Ret in Hr as (res1 & w2 & Hw1 & Hr).
  destruct res1; cbn [negb] in Hr.
  2:{ apply bind_inv_Ret in Hr as (? & ? & _ & Hr). injection Hr as <- <- <-.
      right. split; [reflexivity|]. do 3 eexists. split; [|reflexivity].
      eapply fails_at_loadbalancer; eassumption. }
  apply bind_inv_Ret in Hr as (protocol & ? & Hp & Hr).
  apply getitem_inv_Ret in Hp as [Hp ->].
  apply bind_inv_Ret in Hr as (port & ? & Hpp & Hr).
  apply getitem_inv_Ret in Hpp as [Hpp ->].
  apply bind_inv_Ret in Hr as (admin' & ? & Ha' & Hr).
  apply getitem_inv_Ret in Ha' as [Ha' ->].
  apply bind_inv_Ret in Hr as (l & w3 & Hcl & Hr).
  assert (Hl : creates_listener vip lb w2 l w3)
    by (exists protocol, port, admin'; auto).
  apply bind_inv_Ret in Hr as (res2 & w4 & Hw2 & Hr).
  destruct res2; cbn [negb] in Hr.
  2:{ apply bind_inv_Ret in Hr as (? & ? & _ & Hr). injection Hr as <- <- <-.
      right. split; [reflexivity|]. do 3 eexists. split; [|reflexivity].
      eapply fails_at_listener; eassumption. }
  apply bind_inv_Ret in Hr as (lb_method & ? & Hm & Hr).
  apply getitem_inv_Ret in Hm as [Hm ->].
  apply bind_inv_Ret in Hr as (pprot & ? & Hpr & Hr).
  apply getitem_inv_Ret in Hpr as [Hpr ->].
  apply bind_inv_Ret in Hr as (padmin & ? & Hpa & Hr).
  apply getitem_inv_Ret in Hpa as [Hpa ->].
  apply bind_inv_Ret in Hr as (po & w5 & Hcp & Hr).
  assert (Hpo : creates_pool pool l w4 po w5)
    by (exists lb_method, pprot, padmin; auto).
  apply bind_inv_Ret in Hr as (res3 & w6 & Hw3 & Hr).
  destruct res3; cbn [negb] in Hr.
  2:{ apply bind_inv_Ret in Hr as (? & ? & _ & Hr). injection Hr as <- <- <-.
      right. split; [reflexivity|]. do 3 eexists. split; [|reflexivity].
      eapply fails_at_pool; eassumption. }
  injection Hr as <- <- <-. left. split; [reflexivity|].
  exists lb, l, po, w1, w2, w3, w4, w5. auto 10.
Qed.


Lemma creates_loadbalancer_trace vip (w : world B) lb w1 :
  creates_loadbalancer vip w lb w1 ->
  trace w1 = trace w ++ [Created Loadbalancer (id lb)].
Proof.
  intros (? & ? & _ & _ & Hc). apply call_inv_Ret in Hc as [_ Ht]. exact Ht.
Qed.

Lemma creates_listener_trace vip lb (w : world B) l w1 :
  creates_listener vip lb w l w1 ->
  trace w1 = trace w ++ [Created Listener (id l)] /\
  (proper_ids -> String.eqb (id l) "" = false).
Proof.
  intros (? & ? & ? & _ & _ & _ & Hc). apply call_inv_Ret in Hc as [Hop Ht].
  split; [exact Ht|]. intros [Hid _]. apply String.eqb_neq. eapply Hid, Hop.
Qed.

Lemma creates_pool_trace pool l (w : world B) p w1 :
  creates_pool pool l w p w1 ->
  trace w1 = trace w ++ [Created Pool (id p)] /\
  (proper_ids -> String.eqb (id p) "" = false).
Proof.
  intros (? & ? & ? & _ & _ & _ & Hc). apply call_inv_Ret in Hc as [Hop Ht].
  split; [exact Ht|]. intros [_ Hid]. apply String.eqb_neq. eapply Hid, Hop.
Qed.

Lemma waits_trace lb res (w w' : world B) :
  waits lb res w w' -> exists t, trace w' = trace w ++ t /\ mutations t = [].
Proof. apply wait_quiet. Qed.

Lemma waits_true_trace lb (w w' : world B) :
  waits lb true w w' ->
  exists seen s,
    trace w' = trace w ++ successful_wait (id lb) seen s /\
    lb_ready false s = true.
Proof.
  unfold waits, _wait_for_lb_ready. intros Hrun.
  destruct (wait_loop_spec (rounds 0 60) 0 (id lb) 60 false w eq_refl)
    as (o & w1 & seen & Hrun' & _ & Ho).
  rewrite Hrun in Hrun'. injection Hrun' as <- <-.
  destruct Ho as (s & Hs & _ & Htr). exists seen, s. split; [exact Htr|exact Hs].
Qed.

Lemma mutations_successful_wait lb_id seen s :
  mutations (successful_wait lb_id seen s) = [].
Proof.
  unfold successful_wait. rewrite mutations_app, mutations_idle. reflexivity.
Qed.

(** The wait that [lb_delete] ends with, when the load balancer is
    gone: one poll, one sleep, and False. *)
Lemma last_wait_absent lb_id (w : world B) b' :
  loadbalancer_get lb_id (backend w) = (Ret None, b') ->
  _wait_for_lb_ready lb_id (Z.b2z true) false w
  = (Ret false, World b' (trace w ++ [Polled lb_id None; Slept 2])).
Proof.
  intros Hget. unfold _wait_for_lb_ready.
  rewrite wait_loop_unfold. cbn [decide]. unfold call. rewrite Hget.
  cbn [lb_ready backend trace]. rewrite wait_loop_unfold.
  rewrite <- app_assoc. reflexivity.
Qed.

(** Up to the failing poll, the only changes outside are the creations,
    in order. *)
Lemma failing_step_trace vip pool (w : world B) created msg w2 :
  failing_step vip pool w created msg w2 ->
  exists t, trace w2 = trace w ++ t /\ mutations t = map created_ev created.
Proof.
  intros [lb w1 w2' Hlb Hw1
         |lb w1 w2' l w3 w4 Hlb Hw1 Hl Hw2
         |lb w1 w2' l w3 w4 p w5 w6 Hlb Hw1 Hl Hw2 Hp Hw3].
  - apply creates_loadbalancer_trace in Hlb.
    apply waits_trace in Hw1 as (t1 & Ht1 & Hq1).
    eexists. split.
    + rewrite Ht1, Hlb, <- app_assoc. reflexivity.
    + rewrite mutations_app, Hq1. reflexivity.
  - apply creates_loadbalancer_trace in Hlb.
    apply waits_trace in Hw1 as (t1 & Ht1 & Hq1).
    apply creates_listener_trace in Hl as [Hl _].
    apply waits_trace in Hw2 as (t2 & Ht2 & Hq2).
    eexists. split.
    + rewrite Ht2, Hl, Ht1, Hlb, <- !app_assoc. reflexivity.
    + rewrite !mutations_app, Hq1, Hq2. reflexivity.
  - apply creates_loadbalancer_trace in Hlb.
    apply waits_trace in Hw1 as (t1 & Ht1 & Hq1).
    apply creates_listener_trace in Hl as [Hl _].
    apply waits_trace in Hw2 as (t2 & Ht2 & Hq2).
    apply creates_pool_trace in Hp as [Hp _].
    apply waits_trace in Hw3 as (t3 & Ht3 & Hq3).
    eexists. split.
    + rewrite Ht3, Hp, Ht2, Hl, Ht1, Hlb, <- !app_assoc. reflexivity.
    + rewrite !mutations_app, Hq1, Hq2, Hq3. reflexivity.
Qed.

(** The deletions the clean-up issues for what a failing step has
    recorded, when it returns: everything created, newest first. *)
Lemma failing_step_dels vip pool (w : world B) created msg w2 lb_id :
  proper_ids ->
  failing_step vip pool w created msg w2 ->
  result_of created !! "loadbalancer" = Some lb_id ->
  dels Healthmonitor (result_of created !! "healthmonitor")
  ++ dels Pool (result_of created !! "pool")
  ++ dels Listener (result_of created !! "listener")
  ++ [Deleted Loadbalancer lb_id]
  = map deleted_ev (rev created).
Proof.
  intros Hids
    [lb w1 w2' Hlb Hw1
    |lb w1 w2' l w3 w4 Hlb Hw1 Hl Hw2
    |lb w1 w2' l w3 w4 p w5 w6 Hlb Hw1 Hl Hw2 Hp Hw3] Hlook.
  - cbn in Hlook. rewrite lookup_insert_eq in Hlook.
    injection Hlook as <-. reflexivity.
  - apply creates_listener_trace in Hl as [_ Hl]. specialize (Hl Hids).
    cbn in Hlook. rewrite lookup_insert_ne, lookup_insert_eq in Hlook by done.
    injection Hlook as <-.
    cbn. rewrite lookup_insert_eq.
    rewrite !(lookup_insert_ne _ "listener"), !(lookup_insert_ne _ "loadbalancer")
      by done.
    rewrite !lookup_empty. cbn. rewrite Hl. reflexivity.
  - apply creates_listener_trace in Hl as [_ Hl]. specialize (Hl Hids).
    apply creates_pool_trace in Hp as [_ Hp]. specialize (Hp Hids).
    cbn in Hlook.
    rewrite !lookup_insert_ne, lookup_insert_eq in Hlook by done.
    injection Hlook as <-.
    cbn. rewrite lookup_insert_eq.
    rewrite (lookup_insert_ne _ "pool" "listener"), lookup_insert_eq by done.
    rewrite !(lookup_insert_ne _ _ "healthmonitor") by done.
    rewrite lookup_empty. cbn. rewrite Hl, Hp. reflexivity.
Qed.

(** When [lb_create] returns a failure, it is because the readiness
    poll after one of its steps (load balancer, listener, pool) returned
    False; by then everything created so far, the resource of the failing
    step included, has been deleted again, newest first (pool, listener,
    load balancer), and the creations and deletions of the call cancel
    out.  The backend is assumed never to hand out an empty id. *)
Lemma lb_create_failure_balanced vip pool (w : world B) m w' :
  proper_ids ->
  lb_create vip pool w = (Ret (false, m), w') ->
  exists created msg w2 t,
    failing_step vip pool w created msg w2 /\ m = Msg msg /\
    trace w' = trace w ++ t /\
    mutations t = map created_ev created ++ map deleted_ev (rev created) /\
    net_count t = 0.
Proof.
  intros Hids Hrun.
  destruct (lb_create_inv_Ret _ _ _ _ _ _ Hrun)
    as [[Hb _]|[_ (created & msg & w2 & Hfail & ->)]]; [discriminate Hb|].
  rewrite (lb_create_from_failing_step _ _ _ _ _ _ Hfail) in Hrun.
  apply bind_inv_Ret in Hrun as ([] & w3 & Hclean & Hret).
  injection Hret as ->.
  unfold _cleanup in Hclean.
  apply bind_inv_Ret in Hclean as ([] & w2' & Hlog & Hclean).
  injection Hlog as <-.
  apply bind_inv_Ret in Hclean as (r & w4 & Hdel & Hret).
  injection Hret as ->.
  apply lb_delete_inv_Ret in Hdel as (lb_id & td & Hlb & _ & Htd & Hmd).
  cbn [trace] in Htd.
  destruct (failing_step_trace _ _ _ _ _ _ Hfail) as (tc & Htc & Hmc).
  rewrite (failing_step_dels _ _ _ _ _ _ _ Hids Hfail Hlb) in Hmd.
  exists created, msg, w2, (tc ++ [LogError msg] ++ td).
  split; [exact Hfail|]. split; [reflexivity|].
  assert (Hm : mutations (tc ++ [LogError msg] ++ td)
               = map created_ev created ++ map deleted_ev (rev created)).
  { rewrite !mutations_app, Hmc, Hmd. reflexivity. }
  split; [|split; [exact Hm|]].
  - rewrite Htd, Htc, <- !app_assoc. reflexivity.
  - rewrite net_count_mutations, Hm. apply net_count_balanced.
Qed.

(** C3, as the code has it.  Once the readiness poll after a step has
    returned False, [lb_create] logs the failure and calls [lb_delete] on
    what it has recorded: when [lb_delete] returns, [lb_create] returns
    the pair of False and the message of the failing step; when
    [lb_delete] raises, the same exception leaves [lb_create]. *)
Theorem lb_create_failure_outcome vip pool (w : world B) created msg w2 :
  failing_step vip pool w created msg w2 ->
  match lb_delete (result_of created)
          (World (backend w2) (trace w2 ++ [LogError msg])) with
  | (Ret _, w3) => lb_create vip pool w = (Ret (false, Msg msg), w3)
  | (Raise e, w3) => lb_create vip pool w = (Raise e, w3)
  end.
Proof.
  intros Hfail. rewrite (lb_create_from_failing_step _ _ _ _ _ _ Hfail).
  unfold _cleanup, bind, emit.
  destruct (lb_delete _ _) as [[r|e] w3]; reflexivity.
Qed.

(** C5. [lb_create] returns True exactly when its three steps have been
    carried out in the order load balancer, listener, pool, each followed
    by a readiness poll of the load balancer that returned True before
    the next step started; what it returns then maps 'loadbalancer',
    'listener' and 'pool' to the ids of the three resources, and nothing
    else; and what the call did outside is, in this order: create the
    load balancer, poll it until it is ready, create the listener, poll
    the load balancer until it is ready, create the pool, poll the load
    balancer until it is ready. *)
Theorem lb_create_success vip pool (w : world B) :
  (forall p w',
      lb_create vip pool w = (Ret (true, p), w') <->
      exists lb l po,
        succeeding_run vip pool w lb l po w' /\
        p = Result (result_of
              [(Loadbalancer, id lb); (Listener, id l); (Pool, id po)])) /\
  (forall lb l po w',
      succeeding_run vip pool w lb l po w' ->
      let result :=
        result_of [(Loadbalancer, id lb); (Listener, id l); (Pool, id po)] in
      result !! "loadbalancer" = Some (id lb) /\
      result !! "listener" = Some (id l) /\
      result !! "pool" = Some (id po) /\
      dom result = {["loadbalancer"; "listener"; "pool"]} /\
      exists seen1 s1 seen2 s2 seen3 s3,
        trace w' = trace w
          ++ [Created Loadbalancer (id lb)]
          ++ successful_wait (id lb) seen1 s1
          ++ [Created Listener (id l)]
          ++ successful_wait (id lb) seen2 s2
          ++ [Created Pool (id po)]
          ++ successful_wait (id lb) seen3 s3 /\
        lb_ready false s1 = true /\ lb_ready false s2 = true /\
        lb_ready false s3 = true).
Proof.
  split.
  - intros p w'. split.
    + intros Hrun.
      destruct (lb_create_inv_Ret _ _ _ _ _ _ Hrun)
        as [[_ (lb & l & po & Hs)]|[Hb _]]; [|discriminate Hb].
      exists lb, l, po. split; [exact Hs|].
      rewrite (lb_create_from_succeeding_run _ _ _ _ _ _ _ Hs) in Hrun.
      injection Hrun as <-. reflexivity.
    + intros (lb & l & po & Hs & ->).
      apply lb_create_from_succeeding_run. exact Hs.
  - intros lb l po w' (w1 & w2 & w3 & w4 & w5 & Hlb & Hw1 & Hl & Hw2 & Hp & Hw3).
    cbn zeta. unfold result_of. cbn [foldl fst snd key_of].
    split; [rewrite !lookup_insert_ne by done; apply lookup_insert_eq|].
    split; [rewrite lookup_insert_ne by done; apply lookup_insert_eq|].
    split; [apply lookup_insert_eq|].
    split; [rewrite !dom_insert_L, dom_empty_L; set_solver|].
    apply creates_loadbalancer_trace in Hlb.
    apply waits_true_trace in Hw1 as (seen1 & s1 & Ht1 & Hs1).
    apply creates_listener_trace in Hl as [Hl _].
    apply waits_true_trace in Hw2 as (seen2 & s2 & Ht2 & Hs2).
    apply creates_pool_trace in Hp as [Hp _].
    apply waits_true_trace in Hw3 as (seen3 & s3 & Ht3 & Hs3).
    exists seen1, s1, seen2, s2, seen3, s3. split; [|auto].
    rewrite Ht3, Hp, Ht2, Hl, Ht1, Hlb, <- !app_assoc. reflexivity.
Qed.

End Facts.

(** *** Runs on the scripted backend *)

Import Scripted.

Lemma scripted_proper_ids : proper_ids (B := script).
Proof.
  split.
  - intros a b c d e s r s' Hc. cbn in Hc. injection Hc as <- _. discriminate.
  - intros a b c d s r s' Hc. cbn in Hc. injection Hc as <- _. discriminate.
Qed.

(** The load balancer never becomes ready: the first step fails. *)
Lemma scripted_fails_at_loadbalancer broken :
  let w1 := World (Script [] broken) [Created Loadbalancer "lb-1"] in
  failing_step vip pool (start [] broken) [(Loadbalancer, "lb-1")]
    "Failed in creating load balancer (lb-1)."
    (snd (_wait_for_lb_ready "lb-1" 60 false w1)).
Proof.
  intros w1.
  apply (fails_at_loadbalancer vip pool (start [] broken)
           (Resource "lb-1" "PENDING_CREATE" "OFFLINE") w1).
  - exists (PStr "subnet-1"), (PBool true). repeat split.
  - unfold waits. destruct broken as [[]|]; vm_compute; reflexivity.
Defined.

(** C3, as stated, fails: the load balancer never becomes ready, so the
    first step fails, and the backend refuses to delete it; the exception
    of the clean-up leaves [lb_create], which returns nothing. *)
Lemma lb_create_rollback_raises :
  let w := start [] (Some Loadbalancer) in
  (exists created msg w2, failing_step vip pool w created msg w2) /\
  fst (lb_create vip pool w) = Raise (ServiceError "delete refused") /\
  ~ (exists msg w', lb_create vip pool w = (Ret (false, msg), w')).
Proof.
  intros w.
  assert (Hraise : fst (lb_create vip pool w)
                   = Raise (ServiceError "delete refused"))
    by (vm_compute; reflexivity).
  split; [|split; [exact Hraise|]].
  - do 3 eexists. apply scripted_fails_at_loadbalancer.
  - intros (msg & w' & Hrun). rewrite Hrun in Hraise. discriminate Hraise.
Qed.

Lemma lb_create_failure_outcome_witness :
  let w := start [] None in
  let w1 := World (Script [] None) [Created Loadbalancer "lb-1"] in
  let w2 := snd (_wait_for_lb_ready "lb-1" 60 false w1) in
  let msg := "Failed in creating load balancer (lb-1)." in
  failing_step vip pool w [(Loadbalancer, "lb-1")] msg w2 /\
  match lb_delete (result_of [(Loadbalancer, "lb-1")])
          (World (backend w2) (trace w2 ++ [LogError msg])) with
  | (Ret _, w3) => lb_create vip pool w = (Ret (false, Msg msg), w3)
  | (Raise e, w3) => lb_create vip pool w = (Raise e, w3)
  end.
Proof.
  intros w w1 w2 msg. split.
  - apply scripted_fails_at_loadbalancer.
  - apply (lb_create_failure_outcome vip pool w [(Loadbalancer, "lb-1")] msg w2).
    apply scripted_fails_at_loadbalancer.
Defined.

Lemma lb_create_success_witness :
  let w := start [ready "lb-1"; ready "lb-1"; ready "lb-1"] None in
  exists lb l po,
    succeeding_run vip pool w lb l po (snd (lb_create vip pool w)) /\
    Result (result_of
              [(Loadbalancer, "lb-1"); (Listener, "listener-1"); (Pool, "pool-1")])
    = Result (result_of
                [(Loadbalancer, id lb); (Listener, id l); (Pool, id po)]).
Proof.
  intros w.
  apply (proj1 (proj1 (lb_create_success vip pool w) _ _)).
  vm_compute. reflexivity.
Defined.

(** C2. [lb_delete] on a load balancer that the backend no longer has
    returns success (the delete call of this backend does not raise), but
    its last wait, written [_wait_for_lb_ready(lb_id, True)], gives [True]
    to [timeout]: it polls once, finds the load balancer absent, counts
    this as not ready, sleeps, and returns False.  With
    [ignore_not_found] set it would have returned True at once. *)
Theorem lb_delete_absent_last_wait :
  let w := start [] None in
  let w1 := World (Script [] None) [Deleted Loadbalancer "lb-9"] in
  lb_delete {["loadbalancer" := "lb-9"]} w
  = (Ret (true, "LB deletion succeeded"),
     World (Script [] None)
       [Deleted Loadbalancer "lb-9"; Polled "lb-9" None; Slept 2]) /\
  _wait_for_lb_ready "lb-9" (Z.b2z true) false w1
  = (Ret false,
     World (Script [] None)
       [Deleted Loadbalancer "lb-9"; Polled "lb-9" None; Slept 2]) /\
  _wait_for_lb_ready "lb-9" 60 true w1
  = (Ret true,
     World (Script [] None) [Deleted Loadbalancer "lb-9"; Polled "lb-9" None]).
Proof. repeat split; vm_compute; reflexivity. Qed.

End LoadBalancerDriverFacts.

(** ** The controller *)

Module ClusterControllerFacts.
Import ClusterController.
Import ClusterAnswers.

Create HintDb quiet.
#[export] Hint Resolve quiet_ret quiet_raise quiet_lift quiet_getitem : quiet.

Section Facts.
Context {R context sobj request : Type}.
Context `{Consts} `{Utils} `{Objects sobj} `{RpcClient R context sobj}.
Variable req_context : request -> context.
Variable policy_enforce :
  forall A, string -> request ->
    M (world R context sobj) A -> M (world R context sobj) A.
Variable api_version :
  forall A, string -> request ->
    M (world R context sobj) A -> M (world R context sobj) A.

Local Abbreviation W := (world R context sobj).

Lemma quiet_py_get (v : pyval) key : quiet (py_get (W := W) v key).
Proof. destruct v; cbn; auto with quiet. Qed.

Lemma quiet_py_get_default (v : pyval) key d :
  quiet (py_get_default (W := W) v key d).
Proof. destruct v; cbn; auto with quiet. Qed.

Lemma quiet_py_len (v : pyval) : quiet (py_len (W := W) v).
Proof. destruct v; cbn; auto with quiet. Qed.

Lemma quiet_py_set_len (vs : list pyval) : quiet (py_set_len (W := W) vs).
Proof. unfold py_set_len. destruct (mapM py_hash vs); auto with quiet. Qed.

Lemma quiet_parsed name v neg : quiet (parsed (R := R) (context := context) (sobj := sobj) name v neg).
Proof.
  unfold parsed. destruct (negb (is_none v)); [|auto with quiet].
  apply quiet_bind; auto with quiet.
Qed.

Lemma quiet_checked_request cls norm_req :
  quiet (checked_request (R := R) (context := context) cls norm_req).
Proof.
  unfold checked_request. apply quiet_try_except.
  - apply quiet_bind; [auto with quiet|]. intros obj.
    apply quiet_bind; auto with quiet.
  - intros e k He. destruct e; inversion He; auto with quiet.
Qed.

Lemma quiet_vorc_getattr name :
  quiet (vorc_getattr (R := R) (context := context) (sobj := sobj) name).
Proof. unfold vorc_getattr. destruct (bool_decide _); auto with quiet. Qed.

Lemma quiet_checked_vorc_request name norm_req :
  quiet (checked_vorc_request (R := R) (context := context) name norm_req).
Proof.
  unfold checked_vorc_request. apply quiet_try_except.
  - apply quiet_bind; [apply quiet_vorc_getattr|]. intros cls.
    apply quiet_bind; [auto with quiet|]. intros obj.
    apply quiet_bind; auto with quiet.
  - intros e k He. destruct e; inversion He; auto with quiet.
Qed.

Lemma quiet_sanitize_policy data :
  quiet (_sanitize_policy (R := R) (context := context) (sobj := sobj) data).
Proof.
  unfold _sanitize_policy. destruct data; auto with quiet.
  destruct (negb _); [auto with quiet|].
  destruct (d !! CP_ENABLED); [|auto with quiet].
  apply quiet_bind; [|auto with quiet].
  apply quiet_try_except; [auto with quiet|].
  intros e k He. destruct e; inversion He; auto with quiet.
Qed.

Lemma quiet_check_nodes items :
  quiet (check_nodes (R := R) (context := context) (sobj := sobj) items).
Proof.
  induction items as [|[old_node new_node] rest IH]; cbn; [auto with quiet|].
  destruct (negb _); [auto with quiet|].
  destruct (negb _); [auto with quiet|exact IH].
Qed.

(** C6. A request on the action endpoint whose body is empty, has more
    than one key, or names an action outside [SUPPORTED_ACTIONS] is
    answered with [HTTPBadRequest], and the world is as before: no RPC
    call has been made.  The request is one that [policy_enforce] lets
    through. *)
Theorem action_rejects_malformed req cluster_id body (w : W) :
  authorized policy_enforce req ->
  malformed body ->
  exists msg,
    action req_context policy_enforce api_version req cluster_id body w
    = (Raise (HTTPBadRequest msg), w).
Proof.
  intros Hauth Hbad. unfold action. rewrite Hauth.
  destruct Hbad as [body Hfalse|d Hsize|k v Hk].
  - rewrite Hfalse. eexists. reflexivity.
  - assert (Ht : py_truthy (PDict d) = true).
    { cbn. rewrite bool_decide_eq_false_2 by lia. reflexivity. }
    rewrite Ht. unfold bind, py_len, ret.
    destruct (Z.ltb_spec (Z.of_nat (size d)) 1); [lia|].
    destruct (Z.ltb_spec 1 (Z.of_nat (size d))); [|lia].
    eexists. reflexivity.
  - assert (Ht : py_truthy (PDict {[k := v]}) = true).
    { cbn. rewrite map_size_singleton. reflexivity. }
    rewrite Ht. unfold bind, py_len, ret, first_key.
    rewrite map_size_singleton, map_to_list_singleton. cbn.
    rewrite bool_decide_eq_false_2 by exact Hk. cbn.
    eexists. reflexivity.
Qed.


(** *** [_do_resize] *)

Lemma py_get_dict {A} (d : gmap string pyval) key (k : pyval -> M W A) w :
  bind (py_get (PDict d) key) k w = k (dict_get d key PNone) w.
Proof. reflexivity. Qed.

Lemma py_get_Some {A} (d : gmap string pyval) key v (k : pyval -> M W A) w :
  d !! key = Some v -> bind (py_get (PDict d) key) k w = k v w.
Proof. intros Hv. rewrite py_get_dict. unfold dict_get. rewrite Hv. reflexivity. Qed.

Lemma is_none_false v : v <> PNone -> is_none v = false.
Proof. destruct v; intros Hv; [contradiction|reflexivity..]. Qed.

Lemma rpc_client_calls c (w : W) o w' :
  rpc_client c w = (o, w') ->
  calls w' = calls w ++ [c] /\ rpc c (engine w) = (o, engine w').
Proof.
  unfold rpc_client. destruct (rpc c (engine w)) as [o' r] eqn:Hr.
  intros Hc. injection Hc as <- <-. split; reflexivity.
Qed.

Lemma quiet_with_location res :
  quiet (with_location (R := R) (context := context) (sobj := sobj) res).
Proof. unfold with_location. apply quiet_bind; auto with quiet. Qed.

Lemma quiet_snd {A} (m : M W A) w o w' : quiet m -> m w = (o, w') -> w' = w.
Proof. intros Hq Hm. specialize (Hq w). rewrite Hm in Hq. exact Hq. Qed.

(** One step of a run whose head is quiet: either the head raises and
    the run ends where it started, or it returns and the run goes on. *)
Ltac quiet_step Hrun a Hhead :=
  match type of Hrun with
  | bind ?m ?k ?w = _ =>
      let Hq := fresh "Hq" in
      assert (Hq : quiet m);
      [ | let e := fresh "e" in
          let Heq := fresh "Heq" in
          destruct (quiet_bind_cases m k w Hq)
            as [(a & Hhead & Heq)|(e & Hhead & Heq)];
          rewrite Heq in Hrun; clear Heq Hq;
          [ | injection Hrun as <- <-; left; split; [reflexivity|eauto] ] ]
  end.

Ltac solve_quiet :=
  repeat first
    [ apply quiet_py_get | apply quiet_parsed | apply quiet_with_location
    | apply quiet_bind; [|intros ?]
    | progress auto with quiet
    | match goal with
      | |- quiet (if ?b then _ else _) => destruct b
      | |- quiet (match ?x with _ => _ end) => destruct x
      end ].

(** Whatever the supported adjustment types are, some string is none of
    them. *)
Lemma some_type_is_unsupported :
  py_in (PStr (fresh ADJUSTMENT_TYPES)) ADJUSTMENT_TYPES = false.
Proof. cbn. apply bool_decide_eq_false_2, infinite_is_fresh. Qed.

(** [_do_resize] once the parameters have been read from [data]. *)
Lemma do_resize_from_data req cluster_id this_action
    (b data : gmap string pyval) (w : W) :
  b !! this_action = Some (PDict data) ->
  let adj_type := dict_get data ADJUSTMENT_TYPE PNone in
  let number := dict_get data ADJUSTMENT_NUMBER PNone in
  let min_size := dict_get data ADJUSTMENT_MIN_SIZE PNone in
  let max_size := dict_get data ADJUSTMENT_MAX_SIZE PNone in
  let strict := dict_get data ADJUSTMENT_STRICT PNone in
  _do_resize req_context req cluster_id this_action (PDict b) w =
    ((if negb (is_none adj_type) then
        (if negb (py_in adj_type ADJUSTMENT_TYPES) then
           raise (InvalidParameter "adjustment_type" adj_type)
         else ret tt) ;;;
        (if is_none number then
           raise (HTTPBadRequest "Missing number value for resize operation.")
         else ret tt)
      else ret tt) ;;;
     number' <-
       (if negb (is_none number) then
          (if is_none adj_type then
             raise (HTTPBadRequest
               "Missing adjustment_type value for resize operation.")
           else ret tt) ;;;
          n <- lift (parse_int_param ADJUSTMENT_NUMBER number true) ;;
          ret (Some n)
        else ret None) ;;
     min_size' <- parsed ADJUSTMENT_MIN_SIZE min_size false ;;
     max_size' <- parsed ADJUSTMENT_MAX_SIZE max_size true ;;
     match min_size', max_size' with
     | Some n, Some m =>
         if (0 <? m) && (m <? n) then
           raise (HTTPBadRequest
             ("The specified min_size (" +:+ py_str (PInt n)
              +:+ ") is greater than the specified max_size ("
              +:+ py_str (PInt m) +:+ ")."))
         else ret tt
     | _, _ => ret tt
     end ;;;
     min_step' <- parsed ADJUSTMENT_MIN_STEP
                    (dict_get data ADJUSTMENT_MIN_STEP PNone) false ;;
     strict' <-
       (if negb (is_none strict) then
          lift (parse_bool_param ADJUSTMENT_STRICT strict)
        else ret true) ;;
     result <- rpc_client (cluster_resize (req_context req) cluster_id
                             adj_type number' min_size' max_size' min_step'
                             strict') ;;
     with_location result) w.
Proof.
  intros Hdata adj_type number min_size max_size strict.
  unfold _do_resize. rewrite (py_get_Some _ _ _ _ _ Hdata).
  rewrite !py_get_dict. reflexivity.
Qed.

(** Whatever the constants are, a resize with a type that is none of
    the supported ones is answered with [InvalidParameter]. *)
Lemma do_resize_unsupported_type req cluster_id (w : W) :
  let t := PStr (fresh ADJUSTMENT_TYPES) in
  let data : gmap string pyval := {[ADJUSTMENT_TYPE := t]} in
  _do_resize req_context req cluster_id "resize"
             (PDict {["resize" := PDict data]}) w
  = (Raise (InvalidParameter "adjustment_type" t), w).
Proof.
  intros t data.
  rewrite (do_resize_from_data _ _ _ _ data _ (lookup_singleton_eq _ _)).
  assert (Ht : dict_get data ADJUSTMENT_TYPE PNone = t).
  { unfold dict_get, data. rewrite lookup_singleton_eq. reflexivity. }
  rewrite Ht. unfold t at 1 2. cbn [is_none negb].
  rewrite some_type_is_unsupported. reflexivity.
Qed.

(** What [_do_resize] turns down, and the call it makes at most. *)
Lemma do_resize_checks req cluster_id this_action
    (b data : gmap string pyval) (w : W) :
  b !! this_action = Some (PDict data) ->
  let run := _do_resize req_context req cluster_id this_action (PDict b) w in
  let adj_type := dict_get data ADJUSTMENT_TYPE PNone in
  let number := dict_get data ADJUSTMENT_NUMBER PNone in
  let min_size := dict_get data ADJUSTMENT_MIN_SIZE PNone in
  let max_size := dict_get data ADJUSTMENT_MAX_SIZE PNone in
  let strict := dict_get data ADJUSTMENT_STRICT PNone in
  (adj_type <> PNone -> py_in adj_type ADJUSTMENT_TYPES = false ->
   run = (Raise (InvalidParameter "adjustment_type" adj_type), w)) /\
  (adj_type <> PNone -> py_in adj_type ADJUSTMENT_TYPES = true ->
   number = PNone ->
   run = (Raise (HTTPBadRequest "Missing number value for resize operation."),
          w)) /\
  (number <> PNone -> adj_type = PNone ->
   run = (Raise (HTTPBadRequest
                   "Missing adjustment_type value for resize operation."),
          w)) /\
  (forall n m,
     (adj_type = PNone /\ number = PNone) \/
     (py_in adj_type ADJUSTMENT_TYPES = true /\ number <> PNone /\
      exists k, parse_int_param ADJUSTMENT_NUMBER number true = Ret k) ->
     min_size <> PNone -> max_size <> PNone ->
     parse_int_param ADJUSTMENT_MIN_SIZE min_size false = Ret n ->
     parse_int_param ADJUSTMENT_MAX_SIZE max_size true = Ret m ->
     0 < m -> m < n ->
     exists msg, run = (Raise (HTTPBadRequest msg), w)) /\
  (forall o w',
     run = (o, w') ->
     (w' = w /\ exists e, o = Raise e) \/
     (exists number' min_size' max_size' min_step' strict',
        calls w' = calls w ++
          [cluster_resize (req_context req) cluster_id adj_type
             number' min_size' max_size' min_step' strict'] /\
        (strict = PNone -> strict' = true))).
Proof.
  intros Hdata run adj_type number min_size max_size strict.
  pose proof (do_resize_from_data req cluster_id this_action b data w Hdata)
    as Hrun0.
  cbn zeta in Hrun0. fold adj_type number min_size max_size strict in Hrun0.
  fold run in Hrun0.
  clearbody run. rewrite Hrun0. clear Hrun0 run.
  split; [|split; [|split; [|split]]].
  - intros Hadj Hin. rewrite (is_none_false _ Hadj), Hin. reflexivity.
  - intros Hadj Hin Hnum. rewrite (is_none_false _ Hadj), Hin, Hnum.
    reflexivity.
  - intros Hnum Hadj. rewrite (is_none_false _ Hnum), Hadj. reflexivity.
  - intros n m Hhead Hmin Hmax Hpmin Hpmax Hm Hn.
    assert (Hcheck : (0 <? m) && (m <? n) = true).
    { apply andb_true_iff. split; apply Z.ltb_lt; assumption. }
    unfold parsed. rewrite (is_none_false _ Hmin), (is_none_false _ Hmax).
    destruct Hhead as [[-> ->]|(Hin & Hnum & k & Hk)].
    + unfold bind, lift, ret, raise. cbn. rewrite Hpmin, Hpmax, Hcheck.
      eexists. reflexivity.
    + assert (Hadj : is_none adj_type = false).
      { destruct adj_type; try reflexivity. discriminate Hin. }
      rewrite Hadj, Hin, (is_none_false _ Hnum).
      unfold bind, lift, ret, raise. cbn. rewrite Hk, Hpmin, Hpmax, Hcheck.
      eexists. reflexivity.
  - intros o w' Hrun.
    quiet_step Hrun u Hhead; [solve_quiet|].
    quiet_step Hrun number' Hnumber; [solve_quiet|].
    quiet_step Hrun min_size' Hmin; [solve_quiet|].
    quiet_step Hrun max_size' Hmax; [solve_quiet|].
    quiet_step Hrun u' Hcmp; [solve_quiet|].
    quiet_step Hrun min_step' Hstep; [solve_quiet|].
    quiet_step Hrun strict' Hstrict; [solve_quiet|].
    right. unfold bind in Hrun.
    destruct (rpc_client _ w) as [[result|e] w1] eqn:Hrpc.
    + apply rpc_client_calls in Hrpc as [Hcalls _].
      apply (quiet_snd _ _ _ _ (quiet_with_location result)) in Hrun.
      subst w'. exists number', min_size', max_size', min_step', strict'.
      split; [exact Hcalls|]. intros Hs. rewrite Hs in Hstrict.
      cbn in Hstrict. injection Hstrict as <-. reflexivity.
    + apply rpc_client_calls in Hrpc as [Hcalls _].
      injection Hrun as <- <-.
      exists number', min_size', max_size', min_step', strict'.
      split; [exact Hcalls|]. intros Hs. rewrite Hs in Hstrict.
      cbn in Hstrict. injection Hstrict as <-. reflexivity.
Qed.

Lemma parsed_given name v neg r (w : W) :
  given_as v (parse_int_param name v neg) r ->
  parsed name v neg w = (Ret r, w).
Proof.
  unfold parsed. intros [[-> ->]|(Hv & z & Hz & ->)]; [reflexivity|].
  rewrite (is_none_false _ Hv). cbn [negb]. unfold bind, lift, ret.
  rewrite Hz. reflexivity.
Qed.

(** A resize that passes every check goes to the engine. *)
Lemma do_resize_accepted req cluster_id this_action
    (b data : gmap string pyval) (w : W)
    number' min_size' max_size' min_step' strict' :
  b !! this_action = Some (PDict data) ->
  let adj_type := dict_get data ADJUSTMENT_TYPE PNone in
  let number := dict_get data ADJUSTMENT_NUMBER PNone in
  let min_size := dict_get data ADJUSTMENT_MIN_SIZE PNone in
  let max_size := dict_get data ADJUSTMENT_MAX_SIZE PNone in
  let min_step := dict_get data ADJUSTMENT_MIN_STEP PNone in
  let strict := dict_get data ADJUSTMENT_STRICT PNone in
  (adj_type = PNone /\ number = PNone) \/
  (py_in adj_type ADJUSTMENT_TYPES = true /\ number <> PNone) ->
  given_as number (parse_int_param ADJUSTMENT_NUMBER number true) number' ->
  given_as min_size (parse_int_param ADJUSTMENT_MIN_SIZE min_size false)
           min_size' ->
  given_as max_size (parse_int_param ADJUSTMENT_MAX_SIZE max_size true)
           max_size' ->
  (forall n m, min_size' = Some n -> max_size' = Some m -> m <= 0 \/ n <= m) ->
  given_as min_step (parse_int_param ADJUSTMENT_MIN_STEP min_step false)
           min_step' ->
  (strict = PNone /\ strict' = true) \/
  (strict <> PNone /\
   parse_bool_param ADJUSTMENT_STRICT strict = Ret strict') ->
  _do_resize req_context req cluster_id this_action (PDict b) w
  = answered (cluster_resize (req_context req) cluster_id adj_type number'
                             min_size' max_size' min_step' strict') w.
Proof.
  intros Hdata adj_type number min_size max_size min_step strict
    Hhead Hnum Hmin Hmax Hcmp Hstep Hstrict.
  pose proof (do_resize_from_data req cluster_id this_action
                b data w Hdata) as Hrun.
  cbn zeta in Hrun.
  fold adj_type number min_size max_size min_step strict in Hrun.
  rewrite Hrun. clear Hrun.
  assert (Hadj : forall v, is_none v = true -> v = PNone).
  { intros v Hv. destruct v; try discriminate Hv. reflexivity. }
  erewrite bind_Ret; cycle 1.
  { destruct Hhead as [[Ha Hn]|[Hin Hn]].
    - rewrite Ha. reflexivity.
    - destruct (is_none adj_type) eqn:Hnone.
      + apply Hadj in Hnone. rewrite Hnone in Hin. discriminate Hin.
      + cbn [negb]. rewrite Hin, (is_none_false _ Hn). reflexivity. }
  erewrite bind_Ret; cycle 1.
  { destruct Hnum as [[Hn ->]|(Hn & z & Hz & ->)].
    - rewrite Hn. reflexivity.
    - rewrite (is_none_false _ Hn). cbn [negb].
      destruct Hhead as [[_ Hn']|[Hin _]]; [contradiction|].
      destruct (is_none adj_type) eqn:Hnone.
      + apply Hadj in Hnone. rewrite Hnone in Hin. discriminate Hin.
      + unfold bind, lift, ret. rewrite Hz. reflexivity. }
  erewrite bind_Ret by (apply parsed_given; exact Hmin).
  erewrite bind_Ret by (apply parsed_given; exact Hmax).
  erewrite bind_Ret; cycle 1.
  { destruct min_size' as [n|], max_size' as [m|]; try reflexivity.
    destruct (Hcmp n m eq_refl eq_refl) as [Hle|Hle].
    - replace (0 <? m) with false by (symmetry; apply Z.ltb_ge; lia).
      reflexivity.
    - replace (m <? n) with false by (symmetry; apply Z.ltb_ge; lia).
      rewrite andb_false_r. reflexivity. }
  erewrite bind_Ret by (apply parsed_given; exact Hstep).
  erewrite bind_Ret; cycle 1.
  { destruct Hstrict as [[Hs ->]|[Hs Hp]].
    - rewrite Hs. reflexivity.
    - rewrite (is_none_false _ Hs). cbn [negb]. unfold lift. rewrite Hp.
      reflexivity. }
  reflexivity.
Qed.

(** C7, as the code has it.  [data] is the dict given for the action.
    - An [adjustment_type] outside [consts.ADJUSTMENT_TYPES] is answered
      with [InvalidParameter].
    - A supported [adjustment_type] without [number], and a [number]
      without [adjustment_type], are answered with [HTTPBadRequest].
    - When these two parameters are both absent, or both given with a
      supported type and a number that [parse_int_param] accepts, and
      [min_size] and [max_size] are given and parsed to [n] and [m] with
      [0 < m < n], the answer is [HTTPBadRequest].
    - In all these cases the world is as before: no RPC call was made.
    - Whatever the request, either [_do_resize] raises without having
      made an RPC call, or it has made exactly one, [cluster_resize];
      when [strict] was not given, that call has [strict] True.
    - Otherwise the call is made: when the type and the number are both
      absent or both given with a supported type, every parameter that
      is given is accepted by its parser, and the bounds, when both are
      given, are not [0 < m < n], [_do_resize] calls
      [cluster_resize] with the type as given, the parsed values (None
      for what is absent) and [strict] True when it is absent, and
      returns its answer with the location added. *)
Theorem do_resize_validation req cluster_id this_action
    (b data : gmap string pyval) (w : W) :
  b !! this_action = Some (PDict data) ->
  let run := _do_resize req_context req cluster_id this_action (PDict b) w in
  let adj_type := dict_get data ADJUSTMENT_TYPE PNone in
  let number := dict_get data ADJUSTMENT_NUMBER PNone in
  let min_size := dict_get data ADJUSTMENT_MIN_SIZE PNone in
  let max_size := dict_get data ADJUSTMENT_MAX_SIZE PNone in
  let strict := dict_get data ADJUSTMENT_STRICT PNone in
  (adj_type <> PNone -> py_in adj_type ADJUSTMENT_TYPES = false ->
   run = (Raise (InvalidParameter "adjustment_type" adj_type), w)) /\
  (adj_type <> PNone -> py_in adj_type ADJUSTMENT_TYPES = true ->
   number = PNone ->
   run = (Raise (HTTPBadRequest "Missing number value for resize operation."),
          w)) /\
  (number <> PNone -> adj_type = PNone ->
   run = (Raise (HTTPBadRequest
                   "Missing adjustment_type value for resize operation."),
          w)) /\
  (forall n m,
     (adj_type = PNone /\ number = PNone) \/
     (py_in adj_type ADJUSTMENT_TYPES = true /\ number <> PNone /\
      exists k, parse_int_param ADJUSTMENT_NUMBER number true = Ret k) ->
     min_size <> PNone -> max_size <> PNone ->
     parse_int_param ADJUSTMENT_MIN_SIZE min_size false = Ret n ->
     parse_int_param ADJUSTMENT_MAX_SIZE max_size true = Ret m ->
     0 < m -> m < n ->
     exists msg, run = (Raise (HTTPBadRequest msg), w)) /\
  (forall o w',
     run = (o, w') ->
     (w' = w /\ exists e, o = Raise e) \/
     (exists number' min_size' max_size' min_step' strict',
        calls w' = calls w ++
          [cluster_resize (req_context req) cluster_id adj_type
             number' min_size' max_size' min_step' strict'] /\
        (strict = PNone -> strict' = true))) /\
  (forall number' min_size' max_size' min_step' strict',
     (adj_type = PNone /\ number = PNone) \/
     (py_in adj_type ADJUSTMENT_TYPES = true /\ number <> PNone) ->
     given_as number (parse_int_param ADJUSTMENT_NUMBER number true)
              number' ->
     given_as min_size (parse_int_param ADJUSTMENT_MIN_SIZE min_size false)
              min_size' ->
     given_as max_size (parse_int_param ADJUSTMENT_MAX_SIZE max_size true)
              max_size' ->
     (forall n m, min_size' = Some n -> max_size' = Some m ->
                  m <= 0 \/ n <= m) ->
     given_as (dict_get data ADJUSTMENT_MIN_STEP PNone)
              (parse_int_param ADJUSTMENT_MIN_STEP
                 (dict_get data ADJUSTMENT_MIN_STEP PNone) false)
              min_step' ->
     (strict = PNone /\ strict' = true) \/
     (strict <> PNone /\
      parse_bool_param ADJUSTMENT_STRICT strict = Ret strict') ->
     run = answered (cluster_resize (req_context req) cluster_id adj_type
                                    number' min_size' max_size' min_step'
                                    strict') w).
Proof.
  intros Hdata run adj_type number min_size max_size strict.
  destruct (do_resize_checks req cluster_id this_action b data w Hdata)
    as (Htype & Hnumber & Hadj & Hbounds & Hcalls).
  split; [exact Htype|]. split; [exact Hnumber|]. split; [exact Hadj|].
  split; [exact Hbounds|]. split; [exact Hcalls|].
  intros number' min_size' max_size' min_step' strict'
    Hhead Hnum Hmin Hmax Hcmp Hstep Hstrict.
  apply do_resize_accepted; assumption.
Qed.


(** *** [_replace_nodes] *)

Lemma remove_dups_length_le `{EqDecision A} (l : list A) :
  (length (remove_dups l) <= length l)%nat.
Proof.
  induction l as [|x l IH]; cbn; [lia|].
  destruct (decide_rel elem_of x l); cbn; lia.
Qed.

Lemma remove_dups_length_NoDup `{EqDecision A} (l : list A) :
  length (remove_dups l) = length l -> NoDup l.
Proof.
  induction l as [|x l IH]; cbn; [constructor|].
  destruct (decide_rel elem_of x l) as [Hin|Hout]; cbn; intros Hlen.
  - pose proof (remove_dups_length_le l). lia.
  - constructor; [exact Hout|]. apply IH. lia.
Qed.

(** Two keys with values that are the same member of a set: the list of
    the values' keys has a duplicate. *)
Lemma duplicated_values (nodes : gmap string pyval) k1 k2 v1 v2 ks :
  k1 <> k2 -> nodes !! k1 = Some v1 -> nodes !! k2 = Some v2 ->
  py_hash v1 = py_hash v2 ->
  mapM py_hash (map_to_list nodes).*2 = Some ks ->
  ~ NoDup ks.
Proof.
  intros Hne Hv1 Hv2 Hh Hks Hnd.
  apply elem_of_map_to_list, list_elem_of_lookup in Hv1 as [i Hi].
  apply elem_of_map_to_list, list_elem_of_lookup in Hv2 as [j Hj].
  apply mapM_Some_1 in Hks.
  assert (Hvi : (map_to_list nodes).*2 !! i = Some v1)
    by (rewrite list_lookup_fmap, Hi; reflexivity).
  assert (Hvj : (map_to_list nodes).*2 !! j = Some v2)
    by (rewrite list_lookup_fmap, Hj; reflexivity).
  destruct (Forall2_lookup_l _ _ _ _ _ Hks Hvi) as (y1 & Hy1 & Hh1).
  destruct (Forall2_lookup_l _ _ _ _ _ Hks Hvj) as (y2 & Hy2 & Hh2).
  assert (y1 = y2) by congruence. subst y2.
  assert (i = j) by (eapply NoDup_alt; eassumption). subst j.
  rewrite Hi in Hj. injection Hj as Hk _. contradiction.
Qed.

Lemma check_nodes_rejects (items : list (string * pyval)) (w : W) :
  (exists k v, (k, v) ∈ items /\ (k = "" \/ py_truthy v = false)) ->
  exists msg, check_nodes items w = (Raise (HTTPBadRequest msg), w).
Proof.
  induction items as [|[k0 v0] rest IH]; intros (k & v & Hin & Hbad).
  - apply elem_of_nil in Hin. contradiction.
  - cbn [check_nodes].
    destruct (negb (py_truthy (PStr k0))) eqn:Hk0; [eexists; reflexivity|].
    destruct (negb (py_truthy v0)) eqn:Hv0; [eexists; reflexivity|].
    apply IH. exists k, v. split; [|exact Hbad].
    apply elem_of_cons in Hin as [Heq|Hin]; [|exact Hin].
    injection Heq as -> ->. exfalso. destruct Hbad as [->|Hv].
    + discriminate Hk0.
    + rewrite Hv in Hv0. discriminate Hv0.
Qed.

Lemma check_nodes_accepts (items : list (string * pyval)) (w w' : W) u :
  check_nodes items w = (Ret u, w') ->
  forall k v, (k, v) ∈ items -> k <> "" /\ py_truthy v = true.
Proof.
  induction items as [|[k0 v0] rest IH]; intros Hrun k v Hin.
  - apply elem_of_nil in Hin. contradiction.
  - cbn [check_nodes] in Hrun.
    destruct (negb (py_truthy (PStr k0))) eqn:Hk0; [discriminate Hrun|].
    destruct (negb (py_truthy v0)) eqn:Hv0; [discriminate Hrun|].
    apply elem_of_cons in Hin as [Heq|Hin]; [|eapply IH; eassumption].
    injection Heq as -> ->. split.
    + intros ->. discriminate Hk0.
    + destruct (py_truthy v0); [reflexivity|discriminate Hv0].
Qed.

Lemma py_truthy_dict (nodes : gmap string pyval) k v :
  nodes !! k = Some v -> py_truthy (PDict nodes) = true.
Proof.
  intros Hk. cbn. rewrite bool_decide_eq_false_2; [reflexivity|].
  eapply map_size_ne_0_lookup_2. rewrite Hk. eauto.
Qed.

(** C10, as the code has it.  [data] is the dict given for the action,
    and the request is one that the version gate lets through.
    - When [nodes] is missing, empty or not a dict, the answer is
      [HTTPBadRequest].
    - When [nodes] is a dict whose values can all be members of a set
      (None, booleans, numbers, strings): two keys with the same value,
      an empty key, or a value that is empty (or otherwise false), are
      answered with [HTTPBadRequest].
    - In these cases the world is as before: no RPC call was made.
    - Whatever the request, either [_replace_nodes] raises without having
      made an RPC call, or it has made exactly one,
      [cluster_replace_nodes] with the dict given, in which no key is
      empty and no value is false. *)
Theorem replace_nodes_validation req cluster_id this_action
    (b data : gmap string pyval) (w : W) :
  versioned api_version req ->
  b !! this_action = Some (PDict data) ->
  let run :=
    _replace_nodes req_context api_version req cluster_id this_action
                   (PDict b) w in
  let params := dict_get data "nodes" PNone in
  (py_truthy params = false \/ is_dict params = false ->
   run = (Raise (HTTPBadRequest "The data provided is not a map."), w)) /\
  (forall nodes,
     params = PDict nodes ->
     (forall k v, nodes !! k = Some v -> is_Some (py_hash v)) ->
     ((exists k1 k2 v1 v2,
         k1 <> k2 /\ nodes !! k1 = Some v1 /\ nodes !! k2 = Some v2 /\
         py_hash v1 = py_hash v2) ->
      run = (Raise (HTTPBadRequest
                      "The data provided contains duplicated nodes."), w)) /\
     ((exists k v, nodes !! k = Some v /\ (k = "" \/ py_truthy v = false)) ->
      exists msg, run = (Raise (HTTPBadRequest msg), w))) /\
  (forall o w',
     run = (o, w') ->
     (w' = w /\ exists e, o = Raise e) \/
     (exists nodes,
        params = PDict nodes /\
        calls w' = calls w ++
          [cluster_replace_nodes (req_context req) cluster_id nodes] /\
        forall k v, nodes !! k = Some v -> k <> "" /\ py_truthy v = true)).
Proof.
  intros Hvers Hdata run params.
  assert (Hrun0 : run =
    (match params with
     | PDict nodes =>
         if negb (py_truthy params) then
           raise (HTTPBadRequest "The data provided is not a map.")
         else
         let new_nodes := (map_to_list nodes).*2 in
         distinct <- py_set_len new_nodes ;;
         if negb (Z.of_nat (length new_nodes) =? distinct) then
           raise (HTTPBadRequest
             "The data provided contains duplicated nodes.")
         else
         check_nodes (map_to_list nodes) ;;;
         res <- rpc_client (cluster_replace_nodes (req_context req)
                                                  cluster_id nodes) ;;
         with_location res
     | _ => raise (HTTPBadRequest "The data provided is not a map.")
     end) w).
  { unfold run, _replace_nodes. rewrite Hvers.
    rewrite (py_get_Some _ _ _ _ _ Hdata), py_get_dict. reflexivity. }
  clearbody run. subst run. clearbody params.
  split; [|split].
  - intros [Hfalse|Hnodict].
    + destruct params; try reflexivity. rewrite Hfalse. reflexivity.
    + destruct params; try reflexivity. discriminate Hnodict.
  - intros nodes -> Hhash.
    assert (Hks : exists ks, mapM py_hash (map_to_list nodes).*2 = Some ks).
    { apply mapM_is_Some_2, Forall_forall. intros v Hv.
      apply list_elem_of_fmap in Hv as ([k v'] & -> & Hin).
      apply elem_of_map_to_list in Hin. eapply Hhash, Hin. }
    destruct Hks as [ks Hks].
    split.
    + intros (k1 & k2 & v1 & v2 & Hne & Hv1 & Hv2 & Hh).
      rewrite (py_truthy_dict _ _ _ Hv1). cbn [negb].
      unfold bind, py_set_len. cbn zeta. rewrite Hks. cbn [ret].
      assert (Hlen : (Z.of_nat (length (map_to_list nodes).*2)
                      =? Z.of_nat (length (remove_dups ks))) = false).
      { apply Z.eqb_neq. intros Heq. apply Nat2Z.inj in Heq.
        rewrite (length_mapM _ _ _ Hks) in Heq.
        eapply duplicated_values; [exact Hne|exact Hv1|exact Hv2|exact Hh
                                  |exact Hks|].
        apply remove_dups_length_NoDup. symmetry. exact Heq. }
      rewrite Hlen. reflexivity.
    + intros (k & v & Hk & Hbad).
      rewrite (py_truthy_dict _ _ _ Hk). cbn [negb].
      unfold bind at 1. unfold py_set_len. cbn zeta. rewrite Hks. cbn [ret].
      destruct (negb _); [eexists; reflexivity|].
      destruct (check_nodes_rejects (map_to_list nodes) w) as [msg Hmsg].
      { exists k, v. split; [|exact Hbad]. apply elem_of_map_to_list, Hk. }
      exists msg. unfold bind. rewrite Hmsg. reflexivity.
  - intros o w' Hrun.
    destruct params as [| | | | |nodes];
      try (injection Hrun as <- <-; left; split; [reflexivity|eauto]).
    destruct (negb (py_truthy (PDict nodes)));
      [injection Hrun as <- <-; left; split; [reflexivity|eauto]|].
    cbn zeta in Hrun.
    quiet_step Hrun distinct Hdistinct; [apply quiet_py_set_len|].
    destruct (negb _);
      [injection Hrun as <- <-; left; split; [reflexivity|eauto]|].
    quiet_step Hrun u Hcheck; [apply quiet_check_nodes|].
    right. exists nodes. split; [reflexivity|].
    assert (Hok : forall k v, nodes !! k = Some v -> k <> "" /\ py_truthy v = true).
    { intros k v Hk. eapply check_nodes_accepts; [exact Hcheck|].
      apply elem_of_map_to_list, Hk. }
    split; [|exact Hok].
    unfold bind in Hrun.
    destruct (rpc_client _ w) as [[result|e] w1] eqn:Hrpc.
    + apply rpc_client_calls in Hrpc as [Hcalls _].
      apply (quiet_snd _ _ _ _ (quiet_with_location result)) in Hrun.
      subst w'. exact Hcalls.
    + apply rpc_client_calls in Hrpc as [Hcalls _].
      injection Hrun as <- <-. exact Hcalls.
Qed.


(** *** The location of the action *)

Lemma bind_quiet_inv_Ret {A C} (m : M W A) (k : A -> M W C) w r w' :
  quiet m -> bind m k w = (Ret r, w') ->
  exists a, m w = (Ret a, w) /\ k a w = (Ret r, w').
Proof.
  intros Hq Hrun.
  destruct (quiet_bind_cases m k w Hq) as [(a & Hm & Heq)|(e & Hm & Heq)];
    rewrite Heq in Hrun; [eauto|discriminate Hrun].
Qed.

Lemma quiet_first_key (v : pyval) : quiet (first_key (W := W) v).
Proof.
  destruct v; cbn; auto with quiet.
  destruct (map_to_list d) as [|[k ?] ?]; auto with quiet.
Qed.

Lemma quiet_py_setitem (v : pyval) key x :
  quiet (py_setitem (R := R) (context := context) (sobj := sobj) v key x).
Proof. destruct v; cbn; auto with quiet. Qed.

Lemma rpc_client_inv_Ret c (w : W) res w1 :
  rpc_client c w = (Ret res, w1) ->
  calls w1 = calls w ++ [c] /\ rpc c (engine w) = (Ret res, engine w1).
Proof. apply rpc_client_calls. Qed.

Lemma with_location_redirected c (w : W) res w1 result w' :
  rpc_client c w = (Ret res, w1) ->
  with_location res w1 = (Ret result, w') ->
  redirected w result w'.
Proof.
  intros Hrpc Hloc. apply rpc_client_inv_Ret in Hrpc as [Hcalls Hrpc].
  unfold with_location in Hloc.
  apply bind_inv_Ret in Hloc as (a & ? & Hget & Hret).
  apply getitem_inv_Ret in Hget as [Hget ->]. injection Hret as <- <-.
  exists c, res, a. split; [exact Hcalls|]. split; [exact Hrpc|].
  split; [exact Hget|]. apply lookup_insert_eq.
Qed.

Lemma rpc_then_location c (w : W) result w' :
  (res <- rpc_client c ;; with_location res) w = (Ret result, w') ->
  redirected w result w'.
Proof.
  intros Hrun. apply bind_inv_Ret in Hrun as (res & w1 & Hrpc & Hloc).
  eapply with_location_redirected; eassumption.
Qed.

Ltac solve_quiet ::=
  repeat first
    [ apply quiet_py_get | apply quiet_py_get_default | apply quiet_py_len
    | apply quiet_first_key | apply quiet_py_setitem
    | apply quiet_parsed | apply quiet_with_location
    | apply quiet_checked_request | apply quiet_checked_vorc_request
    | apply quiet_sanitize_policy
    | apply quiet_py_set_len | apply quiet_check_nodes
    | apply quiet_bind; [|intros ?]
    | apply quiet_try_except;
        [|let e := fresh in let k := fresh in let He := fresh in
          intros e k He; destruct e; inversion He]
    | progress auto with quiet
    | match goal with
      | |- quiet (if ?b then _ else _) => destruct b
      | |- quiet (match ?x with _ => _ end) => destruct x
      end ].

(** Follows a run that returns through its quiet steps and its tests,
    up to the RPC call. *)
Ltac follow Hrun :=
  repeat
    match type of Hrun with
    | raise _ _ = (Ret _, _) => discriminate Hrun
    | (if ?b then _ else _) _ = (Ret _, _) => destruct b eqn:?
    | bind (rpc_client _) _ _ = (Ret _, _) =>
        apply rpc_then_location in Hrun
    | bind (rpc_client _) _ _ = (Ret _, _) => fail 1
    | bind ?m _ _ = (Ret _, _) =>
        let a := fresh "a" in
        let Hm := fresh "Hm" in
        apply bind_quiet_inv_Ret in Hrun as (a & Hm & Hrun); [|solve [solve_quiet]]
    end.

Lemma do_resize_redirected req cluster_id this_action body (w : W) result w' :
  _do_resize req_context req cluster_id this_action body w = (Ret result, w') ->
  redirected w result w'.
Proof.
  unfold _do_resize. intros Hrun. follow Hrun. exact Hrun.
Qed.

Lemma replace_nodes_redirected req cluster_id this_action body (w : W)
    result w' :
  versioned api_version req ->
  _replace_nodes req_context api_version req cluster_id this_action body w
  = (Ret result, w') ->
  redirected w result w'.
Proof.
  unfold _replace_nodes. intros Hvers Hrun. rewrite Hvers in Hrun.
  follow Hrun.
  destruct a0; try discriminate Hrun.
  follow Hrun. exact Hrun.
Qed.


Lemma add_nodes_redirected ctx cid nodes (w : W) result w' :
  (res <- _add_nodes ctx cid nodes ;; with_location res) w = (Ret result, w') ->
  redirected w result w'.
Proof.
  intros Hrun. apply bind_inv_Ret in Hrun as (res & w1 & Hadd & Hloc).
  unfold _add_nodes in Hadd. cbn zeta in Hadd. follow Hadd.
  eapply with_location_redirected; eassumption.
Qed.

Lemma del_nodes_redirected ctx cid nodes (w : W) result w' :
  (res <- _del_nodes ctx cid nodes ;; with_location res) w = (Ret result, w') ->
  redirected w result w'.
Proof.
  intros Hrun. apply bind_inv_Ret in Hrun as (res & w1 & Hdel & Hloc).
  unfold _del_nodes in Hdel. cbn zeta in Hdel. follow Hdel.
  eapply with_location_redirected; eassumption.
Qed.

(** The tail of [create] and [update]. *)
Lemma cluster_redirected c (w : W) result w' :
  (cluster <- rpc_client c ;;
   action_id <- getitem cluster "action" ;;
   let cluster := base.delete "action" cluster in
   ret (<["location" := PStr ("/actions/" +:+ py_str action_id)]>
        (<["cluster" := PDict cluster]> ∅))) w = (Ret result, w') ->
  redirected w result w'.
Proof.
  intros Hrun. apply bind_inv_Ret in Hrun as (res & w1 & Hrpc & Hrun).
  apply rpc_client_inv_Ret in Hrpc as [Hcalls Hrpc].
  apply bind_inv_Ret in Hrun as (a & ? & Hget & Hret).
  apply getitem_inv_Ret in Hget as [Hget ->]. injection Hret as <- <-.
  exists c, res, a. split; [exact Hcalls|]. split; [exact Hrpc|].
  split; [exact Hget|]. apply lookup_insert_eq.
Qed.

(** C8. When [create], [update], [delete] or [action] returns, exactly
    one RPC call has been made, and the ['location'] entry of what is
    returned is ['/actions/'] followed by the ['action'] entry of the
    answer to that call.  The request is one that the decorators let
    through. *)
Theorem perform_redirects req op (w : W) result w' :
  authorized policy_enforce req ->
  versioned api_version req ->
  perform req_context policy_enforce api_version req op w = (Ret result, w') ->
  redirected w result w'.
Proof.
  intros Hauth Hvers Hrun.
  destruct op as [body|cluster_id body|cluster_id|cluster_id body];
    cbn [perform] in Hrun.
  - unfold create in Hrun. rewrite Hauth in Hrun. follow Hrun.
    apply cluster_redirected in Hrun. exact Hrun.
  - unfold update in Hrun. rewrite Hauth in Hrun. follow Hrun.
    apply cluster_redirected in Hrun. exact Hrun.
  - unfold delete in Hrun. rewrite Hauth in Hrun.
    apply bind_inv_Ret in Hrun as (res & w1 & Hrpc & Hrun).
    apply rpc_client_inv_Ret in Hrpc as [Hcalls Hrpc].
    apply bind_inv_Ret in Hrun as (a & ? & Hget & Hret).
    apply getitem_inv_Ret in Hget as [Hget ->]. injection Hret as <- <-.
    eexists _, res, a. split; [exact Hcalls|]. split; [exact Hrpc|].
    split; [exact Hget|]. apply lookup_insert_eq.
  - unfold action in Hrun. rewrite Hauth in Hrun. cbn zeta in Hrun.
    follow Hrun;
      first
        [ exact Hrun
        | apply add_nodes_redirected in Hrun; exact Hrun
        | apply del_nodes_redirected in Hrun; exact Hrun
        | apply do_resize_redirected in Hrun; exact Hrun
        | apply (replace_nodes_redirected _ _ _ _ _ _ _ Hvers) in Hrun;
          exact Hrun ].
Qed.

End Facts.

(** *** Runs on the canned engine *)

Import Canned.

Lemma pass_authorized : authorized (R := unit) (context := unit) (sobj := pyval) pass tt.
Proof. intros A handler m. reflexivity. Defined.

Lemma pass_versioned : versioned (R := unit) (context := unit) (sobj := pyval) pass tt.
Proof. intros A version m. reflexivity. Defined.

Lemma bogus_unsupported : "bogus" ∉ SUPPORTED_ACTIONS.
Proof.
  intros Hin. unfold SUPPORTED_ACTIONS in Hin.
  repeat (apply elem_of_cons in Hin as [Hin|Hin]; [discriminate Hin|]).
  apply elem_of_nil in Hin. exact Hin.
Defined.

Lemma action_rejects_malformed_witness :
  exists msg,
    run_action "c1" (PDict {["bogus" := PNone]})
    = (Raise (HTTPBadRequest msg), start).
Proof.
  unfold run_action.
  apply (action_rejects_malformed (fun _ => tt) pass pass tt "c1" _ start
           pass_authorized).
  apply unrecognized_action, bogus_unsupported.
Defined.

(** C7, as stated, fails: an adjustment type is given, no number is, and
    the answer is [InvalidParameter], not [HTTPBadRequest]. *)
Lemma resize_unknown_type_is_not_bad_request :
  let data : gmap string pyval := {["adjustment_type" := PStr "BOGUS"]} in
  let body := PDict {["resize" := PDict data]} in
  dict_get data ADJUSTMENT_TYPE PNone <> PNone /\
  dict_get data ADJUSTMENT_NUMBER PNone = PNone /\
  run_action "c1" body
  = (Raise (InvalidParameter "adjustment_type" (PStr "BOGUS")), start) /\
  ~ (exists msg, fst (run_action "c1" body) = Raise (HTTPBadRequest msg)).
Proof.
  intros data body.
  assert (Hrun : run_action "c1" body
                 = (Raise (InvalidParameter "adjustment_type" (PStr "BOGUS")),
                    start)) by (vm_compute; reflexivity).
  split; [vm_compute; discriminate|]. split; [vm_compute; reflexivity|].
  split; [exact Hrun|].
  intros [msg Hmsg]. rewrite Hrun in Hmsg. discriminate Hmsg.
Qed.

Lemma do_resize_validation_witness :
  let data : gmap string pyval :=
    {["adjustment_type" := PStr "EXACT_CAPACITY"]} in
  let given : gmap string pyval :=
    <["adjustment_type" := PStr "EXACT_CAPACITY"]>
      (<["number" := PInt 3]> ∅) in
  run_do_resize "c1" (PDict {["resize" := PDict data]})
  = (Raise (HTTPBadRequest "Missing number value for resize operation."),
     start) /\
  run_do_resize "c1" (PDict {["resize" := PDict given]})
  = answered (cluster_resize tt "c1" (PStr "EXACT_CAPACITY") (Some 3)
                             None None None true) start.
Proof.
  intros data given. unfold run_do_resize. split.
  - apply (proj1 (proj2 (do_resize_validation (fun _ => tt) tt "c1" "resize"
                           {["resize" := PDict data]} data start
                           (lookup_singleton_eq _ _)))).
    + vm_compute. discriminate.
    + vm_compute. reflexivity.
    + vm_compute. reflexivity.
  - refine (proj2 (proj2 (proj2 (proj2 (proj2
              (do_resize_validation (fun _ => tt) tt "c1" "resize"
                 {["resize" := PDict given]} given start
                 (lookup_singleton_eq _ _))))))
              (Some 3) None None None true _ _ _ _ _ _ _).
    + right. split; [vm_compute; reflexivity|vm_compute; discriminate].
    + right. split; [vm_compute; discriminate|].
      exists 3. split; [vm_compute; reflexivity|reflexivity].
    + left. split; [vm_compute; reflexivity|reflexivity].
    + left. split; [vm_compute; reflexivity|reflexivity].
    + intros n m Hn. discriminate Hn.
    + left. split; [vm_compute; reflexivity|reflexivity].
    + left. split; [vm_compute; reflexivity|reflexivity].
Defined.

(** C10, as stated, fails: nothing is given for the action, so the nodes
    are missing, and the answer is the [AttributeError] of calling [get]
    on None, not [HTTPBadRequest]. *)
Lemma replace_nodes_without_data_is_not_bad_request :
  let body := PDict {["replace_nodes" := PNone]} in
  run_replace_nodes "c1" body = (Raise (AttributeError "get"), start) /\
  run_action "c1" body = (Raise (AttributeError "get"), start) /\
  ~ (exists msg, fst (run_action "c1" body) = Raise (HTTPBadRequest msg)).
Proof.
  intros body.
  assert (Hrun : run_action "c1" body = (Raise (AttributeError "get"), start))
    by (vm_compute; reflexivity).
  split; [vm_compute; reflexivity|]. split; [exact Hrun|].
  intros [msg Hmsg]. rewrite Hrun in Hmsg. discriminate Hmsg.
Qed.

Lemma replace_nodes_validation_witness :
  let nodes : gmap string pyval :=
    <["node-a" := PStr "node-x"]> {["node-b" := PStr "node-x"]} in
  let data : gmap string pyval := {["nodes" := PDict nodes]} in
  run_replace_nodes "c1" (PDict {["replace_nodes" := PDict data]})
  = (Raise (HTTPBadRequest "The data provided contains duplicated nodes."),
     start).
Proof.
  intros nodes data. unfold run_replace_nodes.
  assert (Hnodes : dict_get data "nodes" PNone = PDict nodes).
  { unfold dict_get, data. rewrite lookup_singleton_eq. reflexivity. }
  assert (Hhash : forall k v, nodes !! k = Some v -> is_Some (py_hash v)).
  { intros k v Hk. apply elem_of_map_to_list in Hk.
    vm_compute in Hk.
    repeat (apply elem_of_cons in Hk as [Hk|Hk];
            [injection Hk as -> ->; eexists; reflexivity|]).
    apply elem_of_nil in Hk. contradiction. }
  apply (proj1 (proj1 (proj2 (replace_nodes_validation (fun _ => tt) pass tt
                         "c1" "replace_nodes"
                         {["replace_nodes" := PDict data]} data start
                         pass_versioned (lookup_singleton_eq _ _)))
                  nodes Hnodes Hhash)).
  exists "node-a", "node-b", (PStr "node-x"), (PStr "node-x").
  repeat split. discriminate.
Defined.

Lemma perform_redirects_witness :
  let op := Action "c1" (PDict {["scale_out" := PDict {["count" := PInt 1]}]}) in
  let run := perform (fun _ => tt) pass pass tt op start in
  exists result, fst run = Ret result /\ redirected start result (snd run).
Proof.
  intros op run. eexists. split; [vm_compute; reflexivity|].
  apply (perform_redirects (fun _ => tt) pass pass tt op start _ (snd run)
           pass_authorized pass_versioned).
  vm_compute. reflexivity.
Defined.

End ClusterControllerFacts.

(** ** The lock manager *)

Module LockManagerFacts.
Import LockManager.

(** Filtering a list again, by a stronger test, does not make it longer. *)
Lemma filter_filter_length {A} (p p' q : A -> bool) (l : list A) :
  (forall x, p' x = true -> p x = true) ->
  (length (List.filter p' (List.filter q l)) <= length (List.filter p l))%nat.
Proof.
  intros Himp. induction l as [|x l IH]; cbn; [lia|].
  destruct (q x); cbn.
  - destruct (p' x) eqn:Hp'.
    + rewrite (Himp x Hp'). cbn. lia.
    + destruct (p x); cbn; lia.
  - destruct (p x); cbn; lia.
Qed.

Lemma filter_length_mono {A} (p p' : A -> bool) (l : list A) :
  (forall x, p' x = true -> p x = true) ->
  (length (List.filter p' l) <= length (List.filter p l))%nat.
Proof.
  intros Himp. induction l as [|x l IH]; cbn; [lia|].
  destruct (p' x) eqn:Hp'.
  - rewrite (Himp x Hp'). cbn. lia.
  - destruct (p x); cbn; lia.
Qed.

(** No request makes the live locks on a resource more than one. *)
Lemma apply_keeps_one s q r :
  (forall r', (length (held s r') <= 1)%nat) ->
  (length (held (apply s q) r) <= 1)%nat.
Proof.
  intros Hinv. destruct q as [r0 a e d|r0 a| |dt]; cbn [apply].
  - unfold tryAcquire. destruct (held s r0) as [|l0 ls] eqn:Hheld; cbn [snd].
    + unfold held. cbn [rows now List.filter].
      destruct (on r _ && live (now s) _) eqn:Hnew.
      * apply andb_true_iff in Hnew as [Hon _].
        apply bool_decide_eq_true in Hon. cbn in Hon. subst r0.
        unfold held in Hheld. rewrite Hheld. cbn. lia.
      * apply Hinv.
    + apply Hinv.
  - unfold release. destruct (existsb _ _); cbn [snd]; [|apply Hinv].
    unfold held. cbn [rows now].
    etransitivity; [|apply (Hinv r)]. unfold held.
    apply filter_filter_length. auto.
  - unfold reclaimExpired, held. cbn [rows now].
    etransitivity; [|apply (Hinv r)]. unfold held.
    apply filter_filter_length. auto.
  - unfold held. cbn [rows now].
    etransitivity; [|apply (Hinv r)]. unfold held.
    apply filter_length_mono. intros l Hl.
    apply andb_true_iff in Hl as [Hon Hlive]. rewrite Hon. cbn.
    unfold live in *. apply Z.ltb_lt in Hlive. apply Z.ltb_lt. lia.
Qed.

Lemma run_keeps_one qs : forall s,
  (forall r, (length (held s r) <= 1)%nat) ->
  forall r, (length (held (run qs s) r) <= 1)%nat.
Proof.
  induction qs as [|q qs IH]; intros s Hinv r; cbn; [apply Hinv|].
  apply IH. intros r'. apply apply_keeps_one, Hinv.
Qed.

(** C9. Whatever requests are submitted, in whatever order they reach
    the store and however time passes in between, at every instant
    every resource has at most one live lock; so at most one action has
    a mutation of a resource in flight, and an attempt to acquire a
    resource succeeds only when no live lock on it is left. *)
Theorem at_most_one_live_lock (t : Z) (qs : list request) (r : resource) :
  let s := run qs (initial t) in
  (length (held s r) <= 1)%nat /\
  (forall a1 a2, in_flight s r a1 -> in_flight s r a2 -> a1 = a2) /\
  (forall a e d, fst (tryAcquire r a e d s) = true <-> held s r = []).
Proof.
  intros s.
  assert (Hone : (length (held s r) <= 1)%nat).
  { apply run_keeps_one. intros r'. cbn. lia. }
  split; [exact Hone|]. split.
  - intros a1 a2 (l1 & Hl1 & <-) (l2 & Hl2 & <-).
    destruct (held s r) as [|l [|l' ls]]; cbn in *; try lia; try contradiction.
    destruct Hl1 as [<-|[]]. destruct Hl2 as [<-|[]]. reflexivity.
  - intros a e d. unfold tryAcquire.
    destruct (held s r); cbn; split; intros Heq; try reflexivity;
      discriminate Heq.
Qed.

(** Two submitters ask for the same cluster, one after the other: the
    action of the first is the only one in flight. *)
Lemma at_most_one_live_lock_witness :
  let r := (CLUSTER, "c1") in
  let s := run [TryAcquire r "a1" "e1" 10; TryAcquire r "a2" "e2" 10]
               (initial 0) in
  in_flight s r "a1" /\ forall a, in_flight s r a -> a = "a1".
Proof.
  intros r s.
  assert (H1 : in_flight s r "a1").
  { exists (Lock r "a1" "e1" 0 10). split; [left|]; reflexivity. }
  split; [exact H1|]. intros a Ha.
  exact (proj1 (proj2 (at_most_one_live_lock 0 _ r)) a "a1" Ha H1).
Defined.

(** Two submitters ask for the same cluster: the first gets it, the
    second does not, neither before nor after the sweep, until the lease
    of the first has run out. *)
Example two_submitters :
  let r := (CLUSTER, "c1") in
  let s1 := run [TryAcquire r "a1" "e1" 10] (initial 0) in
  let s2 := run [Tick 3; ReclaimExpired] s1 in
  let s3 := run [Tick 7] s2 in
  fst (tryAcquire r "a2" "e2" 10 s1) = false /\
  fst (tryAcquire r "a2" "e2" 10 s2) = false /\
  fst (tryAcquire r "a2" "e2" 10 s3) = true /\
  fst (release r "a2" s2) = false /\
  fst (release r "a1" s2) = true.
Proof. repeat split; vm_compute; reflexivity. Qed.

End LockManagerFacts.

(** ** More on the driver *)

Module LoadBalancerDriverMore.
Import LoadBalancerDriver.
Import LoadBalancerDriverFacts.

Section Facts.
Context {B : Type} `{NeutronClient B}.

(** *** The granularity of the timeout *)

Lemma wait_loop_rounds n : forall waited waited' lb_id timeout timeout' inf
    (w : world B),
  rounds waited timeout = n -> rounds waited' timeout' = n ->
  wait_loop waited lb_id timeout inf w = wait_loop waited' lb_id timeout' inf w.
Proof.
  induction n as [|n IH]; intros waited waited' lb_id timeout timeout' inf w Hr Hr'.
  - apply rounds_0 in Hr. apply rounds_0 in Hr'.
    rewrite !wait_loop_unfold.
    destruct (decide (waited < timeout)); [lia|].
    destruct (decide (waited' < timeout')); [lia|]. reflexivity.
  - apply rounds_S in Hr as [Hlt Hr]. apply rounds_S in Hr' as [Hlt' Hr'].
    rewrite (wait_loop_unfold waited), (wait_loop_unfold waited').
    destruct (decide (waited < timeout)); [|lia].
    destruct (decide (waited' < timeout')); [|lia].
    destruct (call _ _ w) as [[lb|e] w1]; [|reflexivity].
    destruct (lb_ready inf lb); [reflexivity|].
    apply IH; assumption.
Qed.

(** X1. The timeout of [_wait_for_lb_ready] counts in steps of two
    seconds: a timeout that is zero or negative returns False at once,
    without a poll, and two timeouts with the same number of steps
    behave alike; an odd timeout [2k - 1] waits as long as [2k]. *)
Theorem wait_timeout_granularity lb_id inf (w : world B) :
  (forall timeout, timeout <= 0 ->
     _wait_for_lb_ready lb_id timeout inf w = (Ret false, w)) /\
  (forall timeout timeout',
     rounds 0 timeout = rounds 0 timeout' ->
     _wait_for_lb_ready lb_id timeout inf w
     = _wait_for_lb_ready lb_id timeout' inf w) /\
  (forall k, 0 < k ->
     _wait_for_lb_ready lb_id (2 * k - 1) inf w
     = _wait_for_lb_ready lb_id (2 * k) inf w).
Proof.
  unfold _wait_for_lb_ready. split; [|split].
  - intros timeout Hle. rewrite wait_loop_unfold.
    destruct (decide (0 < timeout)); [lia|reflexivity].
  - intros timeout timeout' Hr. eapply wait_loop_rounds; [exact Hr|reflexivity].
  - intros k Hk. eapply wait_loop_rounds; [reflexivity|].
    unfold rounds. f_equal.
    replace (2 * k - 0 + 1) with (1 + k * 2) by lia.
    replace (2 * k - 1 - 0 + 1) with (0 + k * 2) by lia.
    rewrite !Z.div_add by lia. reflexivity.
Qed.

(** *** [lb_delete], whatever its outcome *)

(** One guarded block of [lb_delete]: when it returns, its delete call
    was made if the id is given; when it raises, it was made or not. *)
Lemma delete_block_any (k : kind) (op : string -> B -> outcome unit * B)
    lb_id (x : option string) (w : world B) o w' :
  if_id x (fun i =>
    call (op i) (fun _ => Deleted k i) ;;;
    _wait_for_lb_ready lb_id 60 false ;;; ret tt) w = (o, w') ->
  exists t, trace w' = trace w ++ t /\
    match o with
    | Ret _ => mutations t = dels k x
    | Raise _ => mutations t = [] \/ mutations t = dels k x
    end.
Proof.
  unfold if_id, dels. destruct x as [i|].
  - destruct (String.eqb i "").
    + intros Hr. injection Hr as <- <-. exists []. rewrite app_nil_r. auto.
    + unfold bind. destruct (call _ _ w) as [[u|e] w1] eqn:Hcall.
      * apply call_inv_Ret in Hcall as [_ Ht1].
        destruct (_wait_for_lb_ready _ _ _ w1) as [[r|e] w2] eqn:Hwait;
          apply wait_quiet in Hwait as (t2 & Ht2 & Hq); intros Hr;
          injection Hr as <- <-; exists ([Deleted k i] ++ t2);
          (split; [rewrite Ht2, Ht1, <- app_assoc; reflexivity|]);
          rewrite mutations_app, Hq; auto.
      * apply call_inv_Raise in Hcall as [_ Ht1]. intros Hr.
        injection Hr as <- <-. exists []. rewrite app_nil_r. auto.
  - intros Hr. injection Hr as <- <-. exists []. rewrite app_nil_r. auto.
Qed.

(** What [lb_delete] has done, whatever its outcome. *)
Lemma lb_delete_any (kwargs : gmap string string) (w : world B) o w' :
  lb_delete kwargs w = (o, w') ->
  let planned lb_id :=
    dels Healthmonitor (kwargs !! "healthmonitor")
    ++ dels Pool (kwargs !! "pool")
    ++ dels Listener (kwargs !! "listener")
    ++ [Deleted Loadbalancer lb_id] in
  exists t, trace w' = trace w ++ t /\
    match o with
    | Ret r =>
        r = (true, "LB deletion succeeded") /\
        exists lb_id, kwargs !! "loadbalancer" = Some lb_id /\
                      mutations t = planned lb_id
    | Raise e =>
        (kwargs !! "loadbalancer" = None /\ e = KeyError "loadbalancer" /\
         t = []) \/
        (exists lb_id, kwargs !! "loadbalancer" = Some lb_id /\
                       mutations t `prefix_of` planned lb_id)
    end.
Proof.
  intros Hrun planned. unfold lb_delete in Hrun.
  unfold bind at 1 in Hrun. unfold getitem in Hrun.
  destruct (kwargs !! "loadbalancer") as [lb_id|] eqn:Hlb; cbn [ret raise] in Hrun.
  2:{ injection Hrun as <- <-. exists []. rewrite app_nil_r. auto. }
  unfold bind at 1 in Hrun.
  destruct (if_id (kwargs !! "healthmonitor") _ w) as [[u1|e1] w1] eqn:Hhm;
    apply delete_block_any in Hhm as (t1 & Ht1 & Hm1).
  2:{ injection Hrun as <- <-. exists t1. split; [exact Ht1|]. right.
      exists lb_id. split; [reflexivity|]. unfold planned.
      destruct Hm1 as [->| ->]; [apply prefix_nil|apply prefix_app_r; reflexivity]. }
  unfold bind at 1 in Hrun.
  destruct (if_id (kwargs !! "pool") _ w1) as [[u2|e2] w2] eqn:Hpool;
    apply delete_block_any in Hpool as (t2 & Ht2 & Hm2).
  2:{ injection Hrun as <- <-. exists (t1 ++ t2).
      split; [rewrite Ht2, Ht1, <- app_assoc; reflexivity|]. right.
      exists lb_id. split; [reflexivity|]. unfold planned.
      rewrite mutations_app, Hm1. apply prefix_app.
      destruct Hm2 as [->| ->]; [apply prefix_nil|apply prefix_app_r; reflexivity]. }
  unfold bind at 1 in Hrun.
  destruct (if_id (kwargs !! "listener") _ w2) as [[u3|e3] w3] eqn:Hlis;
    apply delete_block_any in Hlis as (t3 & Ht3 & Hm3).
  2:{ injection Hrun as <- <-. exists (t1 ++ t2 ++ t3).
      split; [rewrite Ht3, Ht2, Ht1, <- !app_assoc; reflexivity|]. right.
      exists lb_id. split; [reflexivity|]. unfold planned.
      rewrite !mutations_app, Hm1, Hm2. do 2 apply prefix_app.
      destruct Hm3 as [->| ->]; [apply prefix_nil|apply prefix_app_r; reflexivity]. }
  unfold bind at 1 in Hrun.
  destruct (call (loadbalancer_delete lb_id) _ w3) as [[u4|e4] w4] eqn:Hdel.
  2:{ apply call_inv_Raise in Hdel as [_ Ht4]. injection Hrun as <- <-.
      exists (t1 ++ t2 ++ t3).
      split; [rewrite Ht4, Ht3, Ht2, Ht1, <- !app_assoc; reflexivity|]. right.
      exists lb_id. split; [reflexivity|]. unfold planned.
      rewrite !mutations_app, Hm1, Hm2, Hm3. do 2 apply prefix_app.
      apply prefix_app_r. reflexivity. }
  apply call_inv_Ret in Hdel as [_ Ht4].
  unfold bind in Hrun.
  destruct (_wait_for_lb_ready lb_id _ false w4) as [[r|e5] w5] eqn:Hwait;
    apply wait_quiet in Hwait as (t5 & Ht5 & Hm5); injection Hrun as <- <-;
    exists (t1 ++ t2 ++ t3 ++ [Deleted Loadbalancer lb_id] ++ t5);
    (split; [rewrite Ht5, Ht4, Ht3, Ht2, Ht1, <- !app_assoc; reflexivity|]).
  - split; [reflexivity|]. exists lb_id. split; [reflexivity|].
    unfold planned. rewrite !mutations_app, Hm1, Hm2, Hm3, Hm5, app_nil_r.
    reflexivity.
  - right. exists lb_id. split; [reflexivity|].
    unfold planned. rewrite !mutations_app, Hm1, Hm2, Hm3, Hm5, app_nil_r.
    reflexivity.
Qed.

(** X2. [lb_delete] issues its delete calls in the order of its
    docstring (health monitor, pool, listener, load balancer), each of
    the first three only for an id that is given and not empty.  When it
    returns, all of them were made and what it returns is success; when
    it raises, the calls made are an initial part of that sequence, and
    what follows in it is left in place. *)
Theorem lb_delete_order (kwargs : gmap string string) (w : world B) o w' :
  lb_delete kwargs w = (o, w') ->
  let planned lb_id :=
    dels Healthmonitor (kwargs !! "healthmonitor")
    ++ dels Pool (kwargs !! "pool")
    ++ dels Listener (kwargs !! "listener")
    ++ [Deleted Loadbalancer lb_id] in
  exists t, trace w' = trace w ++ t /\
    match o with
    | Ret r =>
        r = (true, "LB deletion succeeded") /\
        exists lb_id, kwargs !! "loadbalancer" = Some lb_id /\
                      mutations t = planned lb_id
    | Raise e =>
        (kwargs !! "loadbalancer" = None /\ e = KeyError "loadbalancer" /\
         t = []) \/
        (exists lb_id, kwargs !! "loadbalancer" = Some lb_id /\
                       mutations t `prefix_of` planned lb_id)
    end.
Proof. apply lb_delete_any. Qed.

(** *** [lb_create], whatever its outcome *)

Lemma bind_cases {W A C} (m : M W A) (k : A -> M W C) w o w' :
  bind m k w = (o, w') ->
  (exists a w1, m w = (Ret a, w1) /\ k a w1 = (o, w')) \/
  (exists e, m w = (Raise e, w') /\ o = Raise e).
Proof.
  unfold bind. destruct (m w) as [[a|e] w1]; intros Hr.
  - left. eauto.
  - injection Hr as <- <-. right. eauto.
Qed.

Lemma getitem_cases {W A} (d : gmap string A) key (w : W) o w' :
  getitem d key w = (o, w') ->
  w' = w /\
  ((exists v, d !! key = Some v /\ o = Ret v) \/
   (d !! key = None /\ o = Raise (KeyError key))).
Proof.
  unfold getitem. destruct (d !! key) as [v|]; intros Hr;
    injection Hr as <- <-; split; eauto.
Qed.

(** [made w w' created] : between [w] and [w'] the resources of [created]
    were created, in this order, and nothing was deleted. *)
Local Abbreviation made w w' created :=
  (exists t, trace w' = trace w ++ t /\ mutations t = map created_ev created).

Lemma made_refl (w : world B) : made w w [].
Proof. exists []. rewrite app_nil_r. auto. Qed.

Lemma made_call (w w1 w2 : world B) created k
    (op : B -> outcome resource * B) r :
  made w w1 created ->
  call op (fun r => Created k (id r)) w1 = (Ret r, w2) ->
  made w w2 (created ++ [(k, id r)]).
Proof.
  intros (t & Ht & Hm) Hc. apply call_inv_Ret in Hc as [_ Hc].
  exists (t ++ [Created k (id r)]). split.
  - rewrite Hc, Ht, <- app_assoc. reflexivity.
  - rewrite mutations_app, Hm, map_app. reflexivity.
Qed.

Lemma made_call_raise {A} (w w1 w2 : world B) created
    (op : B -> outcome A * B) ev e :
  made w w1 created -> call op ev w1 = (Raise e, w2) -> made w w2 created.
Proof.
  intros (t & Ht & Hm) Hc. apply call_inv_Raise in Hc as [_ Hc].
  exists t. rewrite Hc. auto.
Qed.

Lemma made_wait (w w1 w2 : world B) created lb_id timeout inf o :
  made w w1 created ->
  _wait_for_lb_ready lb_id timeout inf w1 = (o, w2) ->
  made w w2 created.
Proof.
  intros (t & Ht & Hm) Hw. apply wait_quiet in Hw as (t' & Ht' & Hq).
  exists (t ++ t'). split.
  - rewrite Ht', Ht, <- app_assoc. reflexivity.
  - rewrite mutations_app, Hm, Hq, app_nil_r. reflexivity.
Qed.

(** A run of [lb_create] either reaches a failing step, or creates
    without deleting: it returns True, or raises where it stands. *)
Lemma lb_create_any vip pool (w : world B) o w' :
  lb_create vip pool w = (o, w') ->
  (exists created msg w2, failing_step vip pool w created msg w2) \/
  (exists created,
      made w w' created /\
      map fst created `prefix_of` [Loadbalancer; Listener; Pool] /\
      ((exists r, o = Ret (true, r)) \/ exists e, o = Raise e)).
Proof.
  unfold lb_create. cbn zeta. intros Hrun.
  pose proof (made_refl w) as Hmade.
  (* the load balancer *)
  apply bind_cases in Hrun as [(subnet & ? & Hs & Hrun)|(e & Hs & ->)];
    apply getitem_cases in Hs as [-> [(v & Hs & Heq)|[Hs Heq]]];
    try discriminate Heq;
    [injection Heq as <-| right; exists []; eauto 6 using prefix_nil].
  apply bind_cases in Hrun as [(admin & ? & Ha & Hrun)|(e & Ha & ->)];
    apply getitem_cases in Ha as [-> [(v & Ha & Heq)|[Ha Heq]]];
    try discriminate Heq;
    [injection Heq as <-| right; exists []; eauto 6 using prefix_nil].
  apply bind_cases in Hrun as [(lb & w1 & Hclb & Hrun)|(e & Hclb & ->)].
  2:{ right. exists []. split; [eapply made_call_raise; eassumption|].
      eauto using prefix_nil. }
  assert (Hlb : creates_loadbalancer vip w lb w1) by (exists subnet, admin; auto).
  apply (made_call _ _ _ _ _ _ _ Hmade) in Hclb. clear Hmade.
  cbn [app] in Hclb.
  assert (Hp1 : map fst [(Loadbalancer, id lb)]
                `prefix_of` [Loadbalancer; Listener; Pool])
    by (exists [Listener; Pool]; reflexivity).
  apply bind_cases in Hrun as [(res1 & w2 & Hw1 & Hrun)|(e & Hw1 & ->)].
  2:{ right. eexists. split; [eapply made_wait; eassumption|]. eauto. }
  destruct res1; cbn [negb] in Hrun.
  2:{ left. do 3 eexists. eapply fails_at_loadbalancer; eassumption. }
  pose proof (made_wait _ _ _ _ _ _ _ _ Hclb Hw1) as Hmade. clear Hclb.
  (* the listener *)
  apply bind_cases in Hrun as [(protocol & ? & Hp & Hrun)|(e & Hp & ->)];
    apply getitem_cases in Hp as [-> [(v & Hp & Heq)|[Hp Heq]]];
    try discriminate Heq; [injection Heq as <-| right; eauto 6].
  apply bind_cases in Hrun as [(port & ? & Hpp & Hrun)|(e & Hpp & ->)];
    apply getitem_cases in Hpp as [-> [(v & Hpp & Heq)|[Hpp Heq]]];
    try discriminate Heq; [injection Heq as <-| right; eauto 6].
  apply bind_cases in Hrun as [(admin' & ? & Ha' & Hrun)|(e & Ha' & ->)];
    apply getitem_cases in Ha' as [-> [(v & Ha' & Heq)|[Ha' Heq]]];
    try discriminate Heq; [injection Heq as <-| right; eauto 6].
  apply bind_cases in Hrun as [(l & w3 & Hcl & Hrun)|(e & Hcl & ->)].
  2:{ right. eexists. split; [eapply made_call_raise; eassumption|]. eauto. }
  assert (Hl : creates_listener vip lb w2 l w3)
    by (exists protocol, port, admin'; auto).
  apply (made_call _ _ _ _ _ _ _ Hmade) in Hcl. clear Hmade Hp1.
  cbn [app] in Hcl.
  assert (Hp2 : map fst [(Loadbalancer, id lb); (Listener, id l)]
                `prefix_of` [Loadbalancer; Listener; Pool])
    by (exists [Pool]; reflexivity).
  apply bind_cases in Hrun as [(res2 & w4 & Hw2 & Hrun)|(e & Hw2 & ->)].
  2:{ right. eexists. split; [eapply made_wait; eassumption|]. eauto. }
  destruct res2; cbn [negb] in Hrun.
  2:{ left. do 3 eexists. eapply fails_at_listener; eassumption. }
  pose proof (made_wait _ _ _ _ _ _ _ _ Hcl Hw2) as Hmade. clear Hcl.
  (* the pool *)
  apply bind_cases in Hrun as [(lb_method & ? & Hm & Hrun)|(e & Hm & ->)];
    apply getitem_cases in Hm as [-> [(v & Hm & Heq)|[Hm Heq]]];
    try discriminate Heq; [injection Heq as <-| right; eauto 6].
  apply bind_cases in Hrun as [(pprot & ? & Hpr & Hrun)|(e & Hpr & ->)];
    apply getitem_cases in Hpr as [-> [(v & Hpr & Heq)|[Hpr Heq]]];
    try discriminate Heq; [injection Heq as <-| right; eauto 6].
  apply bind_cases in Hrun as [(padmin & ? & Hpa & Hrun)|(e & Hpa & ->)];
    apply getitem_cases in Hpa as [-> [(v & Hpa & Heq)|[Hpa Heq]]];
    try discriminate Heq; [injection Heq as <-| right; eauto 6].
  apply bind_cases in Hrun as [(po & w5 & Hcp & Hrun)|(e & Hcp & ->)].
  2:{ right. eexists. split; [eapply made_call_raise; eassumption|]. eauto. }
  assert (Hpo : creates_pool pool l w4 po w5)
    by (exists lb_method, pprot, padmin; auto).
  apply (made_call _ _ _ _ _ _ _ Hmade) in Hcp. clear Hmade Hp2.
  cbn [app] in Hcp.
  assert (Hp3 : map fst [(Loadbalancer, id lb); (Listener, id l); (Pool, id po)]
                `prefix_of` [Loadbalancer; Listener; Pool])
    by (exists []; reflexivity).
  apply bind_cases in Hrun as [(res3 & w6 & Hw3 & Hrun)|(e & Hw3 & ->)].
  2:{ right. eexists. split; [eapply made_wait; eassumption|]. eauto. }
  destruct res3; cbn [negb] in Hrun.
  2:{ left. do 3 eexists. eapply fails_at_pool; eassumption. }
  injection Hrun as <- <-. right. eexists.
  split; [eapply made_wait; eassumption|]. eauto.
Qed.

Lemma key_of_inj k k' : key_of k = key_of k' -> k = k'.
Proof. destruct k, k'; cbn; intros Hk; try reflexivity; discriminate Hk. Qed.

(** What [result] holds was recorded for a created resource. *)
Lemma result_of_lookup (created : list (kind * string)) k i :
  result_of created !! key_of k = Some i -> (k, i) ∈ created.
Proof.
  unfold result_of.
  assert (Hgen : forall d : gmap string string,
             foldl (fun d c => <[key_of (fst c) := snd c]> d) d created
               !! key_of k = Some i ->
             d !! key_of k = Some i \/ (k, i) ∈ created).
  { induction created as [|[k0 i0] created IH]; intros d Hd; cbn in Hd.
    - left. exact Hd.
    - destruct (IH _ Hd) as [Hl|Hin].
      + destruct (decide (key_of k0 = key_of k)) as [Heq|Hne].
        * rewrite Heq, lookup_insert_eq in Hl. injection Hl as <-.
          apply key_of_inj in Heq as <-. right. apply elem_of_cons. auto.
        * rewrite lookup_insert_ne in Hl by exact Hne. auto.
      + right. apply elem_of_cons. auto. }
  intros Hd. destruct (Hgen ∅ Hd) as [Hl|Hin]; [|exact Hin].
  rewrite lookup_empty in Hl. discriminate Hl.
Qed.

Lemma dels_recorded (created : list (kind * string)) k :
  Forall (fun e => exists c, c ∈ created /\ e = deleted_ev c)
         (dels k (result_of created !! key_of k)).
Proof.
  unfold dels. destruct (result_of created !! key_of k) as [i|] eqn:Hi;
    [|constructor].
  destruct (String.eqb i ""); constructor; [|constructor].
  exists (k, i). split; [apply result_of_lookup, Hi|reflexivity].
Qed.

(** X3. Whatever the outcome of [lb_create] (a result, a failure or an
    exception), what it has changed outside is: creations, in the order
    load balancer, listener, pool, and after them deletions of
    resources created in this very call; there are deletions only after
    a readiness poll has returned False. *)
Theorem lb_create_deletes_only_created vip pool (w : world B) o w' :
  lb_create vip pool w = (o, w') ->
  exists t created dl,
    trace w' = trace w ++ t /\
    mutations t = map created_ev created ++ dl /\
    map fst created `prefix_of` [Loadbalancer; Listener; Pool] /\
    Forall (fun e => exists c, c ∈ created /\ e = deleted_ev c) dl /\
    (dl <> [] -> exists msg w2, failing_step vip pool w created msg w2).
Proof.
  intros Hrun.
  destruct (lb_create_any _ _ _ _ _ Hrun)
    as [(created & msg & w2 & Hfail)|(created & (t & Ht & Hm) & Hpre & _)].
  2:{ exists t, created, []. rewrite app_nil_r.
      repeat split; auto. intros Hne. contradiction. }
  rewrite (lb_create_from_failing_step _ _ _ _ _ _ Hfail) in Hrun.
  destruct (failing_step_trace _ _ _ _ _ _ Hfail) as (tc & Htc & Hmc).
  assert (Hpre : map fst created `prefix_of` [Loadbalancer; Listener; Pool]).
  { destruct Hfail; cbn;
      [exists [Listener; Pool]|exists [Pool]|exists []]; reflexivity. }
  unfold _cleanup, bind, emit in Hrun.
  destruct (lb_delete _ _) as [od wd] eqn:Hdel.
  apply lb_delete_any in Hdel as (td & Htd & Hod). cbn [trace] in Htd.
  assert (Hw' : wd = w') by (destruct od; injection Hrun as _ <-; reflexivity).
  subst wd.
  exists (tc ++ [LogError msg] ++ td), created, (mutations td).
  split; [rewrite Htd, Htc, <- !app_assoc; reflexivity|].
  split; [rewrite !mutations_app, Hmc; reflexivity|].
  split; [exact Hpre|]. split; [|eauto].
  assert (Hplanned : forall lb_id,
             result_of created !! "loadbalancer" = Some lb_id ->
             Forall (fun e => exists c, c ∈ created /\ e = deleted_ev c)
               (dels Healthmonitor (result_of created !! "healthmonitor")
                ++ dels Pool (result_of created !! "pool")
                ++ dels Listener (result_of created !! "listener")
                ++ [Deleted Loadbalancer lb_id])).
  { intros lb_id Hlb. repeat apply Forall_app_2.
    - apply (dels_recorded created Healthmonitor).
    - apply (dels_recorded created Pool).
    - apply (dels_recorded created Listener).
    - constructor; [|constructor]. exists (Loadbalancer, lb_id).
      split; [apply result_of_lookup, Hlb|reflexivity]. }
  destruct od as [r|e].
  - destruct Hod as (_ & lb_id & Hlb & ->). apply Hplanned, Hlb.
  - destruct Hod as [(_ & _ & ->)|(lb_id & Hlb & [rest Hrest])];
      [constructor|].
    specialize (Hplanned lb_id Hlb). rewrite Hrest in Hplanned.
    apply Forall_app in Hplanned as [Hp _]. exact Hp.
Qed.

(** X4. A dict without a key that a step needs makes [lb_create] raise
    [KeyError] when that step is reached, and what the earlier steps
    created stays: without 'subnet' nothing has been created; without
    'protocol' the load balancer has been created, has become ready, and
    is left behind; without 'lb_method' in the pool dict the load
    balancer and the listener are left behind. *)
Theorem lb_create_missing_key vip pool (w : world B) :
  (vip !! "subnet" = None ->
   lb_create vip pool w = (Raise (KeyError "subnet"), w)) /\
  (forall lb w1 w2,
     creates_loadbalancer vip w lb w1 -> waits lb true w1 w2 ->
     vip !! "protocol" = None ->
     lb_create vip pool w = (Raise (KeyError "protocol"), w2) /\
     exists t, trace w2 = trace w ++ t /\
               mutations t = [Created Loadbalancer (id lb)] /\
               net_count t = 1) /\
  (forall lb w1 w2 l w3 w4,
     creates_loadbalancer vip w lb w1 -> waits lb true w1 w2 ->
     creates_listener vip lb w2 l w3 -> waits lb true w3 w4 ->
     pool !! "lb_method" = None ->
     lb_create vip pool w = (Raise (KeyError "lb_method"), w4) /\
     exists t, trace w4 = trace w ++ t /\
               mutations t = [Created Loadbalancer (id lb);
                              Created Listener (id l)] /\
               net_count t = 2).
Proof.
  split; [|split].
  - intros Hs. unfold lb_create, bind, getitem. rewrite Hs. reflexivity.
  - intros lb w1 w2 Hlb Hw1 Hp. split.
    + unfold lb_create.
      rewrite (creates_loadbalancer_run _ _ _ _ _ Hlb).
      rewrite (waits_run _ _ _ _ _ Hw1). cbn [negb].
      unfold bind, getitem. rewrite Hp. reflexivity.
    + apply creates_loadbalancer_trace in Hlb.
      apply waits_trace in Hw1 as (t1 & Ht1 & Hq1).
      exists ([Created Loadbalancer (id lb)] ++ t1).
      assert (Hm : mutations ([Created Loadbalancer (id lb)] ++ t1)
                   = [Created Loadbalancer (id lb)])
        by (rewrite mutations_app, Hq1; reflexivity).
      split; [rewrite Ht1, Hlb, <- app_assoc; reflexivity|].
      split; [exact Hm|]. rewrite net_count_mutations, Hm. reflexivity.
  - intros lb w1 w2 l w3 w4 Hlb Hw1 Hl Hw2 Hm. split.
    + unfold lb_create.
      rewrite (creates_loadbalancer_run _ _ _ _ _ Hlb).
      rewrite (waits_run _ _ _ _ _ Hw1). cbn [negb].
      rewrite (creates_listener_run _ _ _ _ _ _ Hl).
      rewrite (waits_run _ _ _ _ _ Hw2). cbn [negb].
      unfold bind, getitem. rewrite Hm. reflexivity.
    + apply creates_loadbalancer_trace in Hlb.
      apply waits_trace in Hw1 as (t1 & Ht1 & Hq1).
      apply creates_listener_trace in Hl as [Hl _].
      apply waits_trace in Hw2 as (t2 & Ht2 & Hq2).
      exists ([Created Loadbalancer (id lb)] ++ t1
              ++ [Created Listener (id l)] ++ t2).
      assert (Hmm : mutations ([Created Loadbalancer (id lb)] ++ t1
                               ++ [Created Listener (id l)] ++ t2)
                    = [Created Loadbalancer (id lb); Created Listener (id l)])
        by (rewrite !mutations_app, Hq1, Hq2; reflexivity).
      split; [rewrite Ht2, Hl, Ht1, Hlb, <- !app_assoc; reflexivity|].
      split; [exact Hmm|]. rewrite net_count_mutations, Hmm. reflexivity.
Qed.

End Facts.

(** *** Runs on the scripted backend *)

Import Scripted.
Import ScriptedRuns.

Lemma wait_timeout_granularity_witness :
  let w := start [] None in
  _wait_for_lb_ready "lb-1" 0 false w = (Ret false, w) /\
  _wait_for_lb_ready "lb-1" (2 * 1 - 1) false w
  = _wait_for_lb_ready "lb-1" (2 * 1) false w.
Proof.
  intros w. split.
  - apply (proj1 (wait_timeout_granularity "lb-1" false w)). lia.
  - apply (proj2 (proj2 (wait_timeout_granularity "lb-1" false w))). lia.
Defined.

(** The backend refuses to delete the listener: the health monitor and
    the pool are gone, the listener and the load balancer stay. *)
Lemma lb_delete_order_witness :
  let w := start [] (Some Listener) in
  let run := lb_delete everything w in
  fst run = Raise (ServiceError "delete refused") /\
  mutations (trace (snd run))
  = [Deleted Healthmonitor "hm-1"; Deleted Pool "pool-1"] /\
  exists t, trace (snd run) = trace w ++ t /\
    match fst run with
    | Ret r =>
        r = (true, "LB deletion succeeded") /\
        exists lb_id, everything !! "loadbalancer" = Some lb_id /\
          mutations t
          = dels Healthmonitor (everything !! "healthmonitor")
            ++ dels Pool (everything !! "pool")
            ++ dels Listener (everything !! "listener")
            ++ [Deleted Loadbalancer lb_id]
    | Raise e =>
        (everything !! "loadbalancer" = None /\ e = KeyError "loadbalancer" /\
         t = []) \/
        (exists lb_id, everything !! "loadbalancer" = Some lb_id /\
           mutations t `prefix_of`
             dels Healthmonitor (everything !! "healthmonitor")
             ++ dels Pool (everything !! "pool")
             ++ dels Listener (everything !! "listener")
             ++ [Deleted Loadbalancer lb_id])
    end.
Proof.
  intros w run. split; [vm_compute; reflexivity|].
  split; [vm_compute; reflexivity|].
  apply (lb_delete_order everything w (fst run) (snd run)).
  subst run. apply surjective_pairing.
Defined.

(** The pool does not become ready and the backend refuses to delete
    the listener: three creations, then the deletion of the pool. *)
Lemma lb_create_deletes_only_created_witness :
  let w := start [ready "lb-1"; ready "lb-1"] (Some Listener) in
  let run := lb_create vip pool w in
  fst run = Raise (ServiceError "delete refused") /\
  mutations (trace (snd run))
  = [Created Loadbalancer "lb-1"; Created Listener "listener-1";
     Created Pool "pool-1"; Deleted Pool "pool-1"] /\
  exists t created dl,
    trace (snd run) = trace w ++ t /\
    mutations t = map created_ev created ++ dl /\
    map fst created `prefix_of` [Loadbalancer; Listener; Pool] /\
    Forall (fun e => exists c, c ∈ created /\ e = deleted_ev c) dl /\
    (dl <> [] -> exists msg w2, failing_step vip pool w created msg w2).
Proof.
  intros w run. split; [vm_compute; reflexivity|].
  split; [vm_compute; reflexivity|].
  apply (lb_create_deletes_only_created vip pool w (fst run) (snd run)).
  subst run. apply surjective_pairing.
Defined.

Lemma lb_create_missing_key_witness :
  let w := start [ready "lb-1"] None in
  let w1 := World (Script [ready "lb-1"] None) [Created Loadbalancer "lb-1"] in
  let w2 := World (Script [] None)
              [Created Loadbalancer "lb-1"; Polled "lb-1" (ready "lb-1")] in
  lb_create vip_without_protocol pool w = (Raise (KeyError "protocol"), w2) /\
  exists t, trace w2 = trace w ++ t /\
            mutations t = [Created Loadbalancer "lb-1"] /\
            net_count t = 1.
Proof.
  intros w w1 w2.
  apply (proj1 (proj2 (lb_create_missing_key vip_without_protocol pool w))
           (Resource "lb-1" "PENDING_CREATE" "OFFLINE") w1 w2).
  - exists (PStr "subnet-1"), (PBool true). repeat split.
  - unfold waits. vm_compute. reflexivity.
  - vm_compute. reflexivity.
Defined.

End LoadBalancerDriverMore.

(** ** The rollback of [lb_create] *)

Module LoadBalancerRollback.
Import LoadBalancerDriver.
Import LoadBalancerDriverFacts.
Import LoadBalancerDriverMore.

Section Facts.
Context {B : Type} `{NeutronClient B}.

Lemma failing_step_loadbalancer vip pool (w : world B) created msg w2 :
  failing_step vip pool w created msg w2 ->
  exists lb_id, result_of created !! "loadbalancer" = Some lb_id.
Proof.
  intros [lb w1 w2' Hlb Hw1
         |lb w1 w2' l w3 w4 Hlb Hw1 Hl Hw2
         |lb w1 w2' l w3 w4 p w5 w6 Hlb Hw1 Hl Hw2 Hp Hw3];
    exists (id lb); cbn;
    rewrite ?lookup_insert_ne by done; apply lookup_insert_eq.
Qed.

Lemma filter_created_ev (l : list (kind * string)) :
  List.filter is_created (map created_ev l) = map created_ev l /\
  List.filter is_deleted (map created_ev l) = [].
Proof.
  induction l as [|c l [IH1 IH2]]; [split; reflexivity|].
  cbn. rewrite IH1, IH2. split; reflexivity.
Qed.

Lemma filter_deleted_ev (l : list (kind * string)) :
  List.filter is_deleted (map deleted_ev l) = map deleted_ev l /\
  List.filter is_created (map deleted_ev l) = [].
Proof.
  induction l as [|c l [IH1 IH2]]; [split; reflexivity|].
  cbn. rewrite IH1, IH2. split; reflexivity.
Qed.

(** Creations followed by some of their deletions: what is left. *)
Lemma net_count_partial (created : list (kind * string)) (dl : list event) :
  dl `prefix_of` map deleted_ev (rev created) ->
  net_count (map created_ev created ++ dl)
  = Z.of_nat (length created) - Z.of_nat (length dl) /\
  (length dl <= length created)%nat.
Proof.
  intros [rest Hrest].
  assert (Hdl : exists l, dl = map deleted_ev l).
  { exists (take (length dl) (rev created)).
    rewrite <- List.firstn_map, Hrest, take_app_length. reflexivity. }
  destruct Hdl as [l ->]. split.
  - unfold net_count. rewrite !List.filter_app.
    destruct (filter_created_ev created) as [-> ->].
    destruct (filter_deleted_ev l) as [-> ->].
    rewrite app_nil_r. cbn [app]. rewrite !length_map. reflexivity.
  - apply (f_equal (@length event)) in Hrest.
    rewrite length_app, !length_map, length_rev in Hrest.
    rewrite length_map. lia.
Qed.

(** C1, as the code has it.  The backend is assumed never to hand out
    an empty id for a listener or a pool.
    - When [lb_create] returns a failure, the readiness poll after one
      of its steps (load balancer, listener, pool) has returned False,
      everything created so far, the resource of the failing step
      included, has been deleted again, newest first (pool, listener,
      load balancer), and creations and deletions cancel out.
    - Once the readiness poll after a step has returned False,
      [lb_create] deletes newest first; when the clean-up returns, it
      returns the failure and the net count is zero; when the clean-up
      raises, [lb_create] raises the same, only an initial part of the
      deletions has been made, and the net count is the number of
      resources created less the number of deletions made. *)
Theorem lb_create_rollback vip pool (w : world B) :
  proper_ids ->
  (forall m w',
     lb_create vip pool w = (Ret (false, m), w') ->
     exists created msg w2 t,
       failing_step vip pool w created msg w2 /\ m = Msg msg /\
       trace w' = trace w ++ t /\
       mutations t = map created_ev created ++ map deleted_ev (rev created) /\
       net_count t = 0) /\
  (forall created msg w2,
     failing_step vip pool w created msg w2 ->
     exists o w' t dl,
       lb_create vip pool w = (o, w') /\
       trace w' = trace w ++ t /\
       mutations t = map created_ev created ++ dl /\
       dl `prefix_of` map deleted_ev (rev created) /\
       net_count t = Z.of_nat (length created) - Z.of_nat (length dl) /\
       (length dl <= length created)%nat /\
       match o with
       | Ret r =>
           r = (false, Msg msg) /\ dl = map deleted_ev (rev created) /\
           net_count t = 0
       | Raise e =>
           fst (lb_delete (result_of created)
                  (World (backend w2) (trace w2 ++ [LogError msg])))
           = Raise e
       end).
Proof.
  intros Hids. split.
  - intros m w'. apply lb_create_failure_balanced. exact Hids.
  - intros created msg w2 Hfail.
    destruct (failing_step_trace _ _ _ _ _ _ Hfail) as (tc & Htc & Hmc).
    destruct (failing_step_loadbalancer _ _ _ _ _ _ Hfail) as [lb_id Hlb].
    pose proof (failing_step_dels _ _ _ _ _ _ _ Hids Hfail Hlb) as Hplan.
    rewrite (lb_create_from_failing_step _ _ _ _ _ _ Hfail).
    unfold _cleanup, bind, emit.
    destruct (lb_delete (result_of created)
                (World (backend w2) (trace w2 ++ [LogError msg])))
      as [[r|e] w3] eqn:Hdel;
      apply lb_delete_any in Hdel as (td & Htd & Ho); cbn [trace] in Htd.
    + destruct Ho as (_ & lb_id' & Hlb' & Hmd).
      rewrite Hlb in Hlb'. injection Hlb' as <-. rewrite Hplan in Hmd.
      assert (Hm : mutations (tc ++ [LogError msg] ++ td)
                   = map created_ev created ++ map deleted_ev (rev created)).
      { rewrite !mutations_app, Hmc, Hmd. reflexivity. }
      assert (Hnet : net_count (tc ++ [LogError msg] ++ td) = 0).
      { rewrite net_count_mutations, Hm. apply net_count_balanced. }
      exists (Ret (false, Msg msg)), w3, (tc ++ [LogError msg] ++ td),
             (map deleted_ev (rev created)).
      split; [reflexivity|].
      split; [rewrite Htd, Htc, <- !app_assoc; reflexivity|].
      split; [exact Hm|]. split; [reflexivity|].
      split; [rewrite Hnet, length_map, length_rev; lia|].
      split; [rewrite length_map, length_rev; lia|]. auto.
    + destruct Ho as [(Hnone & _)|(lb_id' & Hlb' & Hmd)];
        [rewrite Hlb in Hnone; discriminate Hnone|].
      rewrite Hlb in Hlb'. injection Hlb' as <-. rewrite Hplan in Hmd.
      assert (Hm : mutations (tc ++ [LogError msg] ++ td)
                   = map created_ev created ++ mutations td).
      { rewrite !mutations_app, Hmc. reflexivity. }
      destruct (net_count_partial created (mutations td) Hmd) as [Hnet Hlen].
      exists (Raise e), w3, (tc ++ [LogError msg] ++ td), (mutations td).
      split; [reflexivity|].
      split; [rewrite Htd, Htc, <- !app_assoc; reflexivity|].
      split; [exact Hm|]. split; [exact Hmd|].
      split; [rewrite net_count_mutations, Hm; exact Hnet|].
      split; [exact Hlen|]. reflexivity.
Qed.

End Facts.

(** *** Runs on the scripted backend *)

Import Scripted.

(** The load balancer is ready after the first two steps and absent
    after the third: the step of the pool fails. *)
Lemma scripted_fails_at_pool broken :
  let w5 :=
    World (Script [] broken)
      [Created Loadbalancer "lb-1"; Polled "lb-1" (ready "lb-1");
       Created Listener "listener-1"; Polled "lb-1" (ready "lb-1");
       Created Pool "pool-1"] in
  failing_step vip pool (start [ready "lb-1"; ready "lb-1"] broken)
    [(Loadbalancer, "lb-1"); (Listener, "listener-1"); (Pool, "pool-1")]
    "Failed in creating pool (pool-1)."
    (snd (_wait_for_lb_ready "lb-1" 60 false w5)).
Proof.
  intros w5.
  apply (fails_at_pool vip pool (start [ready "lb-1"; ready "lb-1"] broken)
           (Resource "lb-1" "PENDING_CREATE" "OFFLINE")
           (World (Script [ready "lb-1"; ready "lb-1"] broken)
              [Created Loadbalancer "lb-1"])
           (World (Script [ready "lb-1"] broken)
              [Created Loadbalancer "lb-1"; Polled "lb-1" (ready "lb-1")])
           (Resource "listener-1" "PENDING_CREATE" "OFFLINE")
           (World (Script [ready "lb-1"] broken)
              [Created Loadbalancer "lb-1"; Polled "lb-1" (ready "lb-1");
               Created Listener "listener-1"])
           (World (Script [] broken)
              [Created Loadbalancer "lb-1"; Polled "lb-1" (ready "lb-1");
               Created Listener "listener-1"; Polled "lb-1" (ready "lb-1")])
           (Resource "pool-1" "PENDING_CREATE" "OFFLINE") w5).
  - exists (PStr "subnet-1"), (PBool true). repeat split.
  - unfold waits. destruct broken as [[]|]; vm_compute; reflexivity.
  - exists (PStr "HTTP"), (PInt 80), (PBool true). repeat split.
  - unfold waits. destruct broken as [[]|]; vm_compute; reflexivity.
  - exists (PStr "ROUND_ROBIN"), (PStr "HTTP"), (PBool true). repeat split.
  - unfold waits. destruct broken as [[]|]; vm_compute; reflexivity.
Defined.

Lemma lb_create_rollback_witness :
  let w := start [ready "lb-1"; ready "lb-1"] None in
  let w' := snd (lb_create vip pool w) in
  exists created msg w2 t,
    failing_step vip pool w created msg w2 /\
    Msg "Failed in creating pool (pool-1)." = Msg msg /\
    trace w' = trace w ++ t /\
    mutations t = map created_ev created ++ map deleted_ev (rev created) /\
    net_count t = 0.
Proof.
  intros w w'.
  apply (proj1 (lb_create_rollback vip pool w scripted_proper_ids) _ w').
  vm_compute. reflexivity.
Defined.

(** C1, as stated, fails: the pool does not become ready, so the third
    step fails, and the backend refuses to delete the pool; the
    clean-up raises at its first deletion, [lb_create] raises instead
    of returning a failure, and the three resources stay. *)
Lemma lb_create_rollback_incomplete :
  let w := start [ready "lb-1"; ready "lb-1"] (Some Pool) in
  let run := lb_create vip pool w in
  (exists created msg w2, failing_step vip pool w created msg w2) /\
  fst run = Raise (ServiceError "delete refused") /\
  mutations (trace (snd run))
  = [Created Loadbalancer "lb-1"; Created Listener "listener-1";
     Created Pool "pool-1"] /\
  net_count (trace (snd run)) = 3.
Proof.
  intros w run. split; [|repeat split; vm_compute; reflexivity].
  do 3 eexists. apply scripted_fails_at_pool.
Qed.

End LoadBalancerRollback.

(** ** The pool members *)

Module LoadBalancerMembersFacts.
Import LoadBalancerDriver.
Import LoadBalancerDriverFacts.
Import LoadBalancerDriverMore.
Import LoadBalancerMembers.

Section Facts.
Context {B N : Type} `{NeutronClient B} `{MemberClient B N}.

(** *** [_get_node_address] *)

Lemma last_address_cons version addr rest :
  last_address version (addr :: rest) =
  if of_version version addr then
    match last (List.filter (of_version version) rest) with
    | Some _ => last_address version rest
    | None => addr !! "addr"
    end
  else last_address version rest.
Proof.
  unfold last_address. cbn [List.filter].
  destruct (of_version version addr); [|reflexivity].
  rewrite last_cons. destruct (last _); reflexivity.
Qed.

(** The inner loop on a list of proper addresses: the last address of
    the wanted version is recorded for the network, if there is one. *)
Lemma scan_addrs_spec version network addrs :
  forall (address : gmap string pyval) (w : mworld B),
  (forall addr, addr ∈ addrs ->
     is_Some (addr !! "version") /\
     (of_version version addr = true -> is_Some (addr !! "addr"))) ->
  scan_addrs version network addrs address w
  = (Ret match last_address version addrs with
         | Some a => <[network := a]> address
         | None => address
         end, w) /\
  (last_address version addrs = None ->
   last (List.filter (of_version version) addrs) = None).
Proof.
  induction addrs as [|addr rest IH]; intros address w Hwf; [split; reflexivity|].
  destruct (Hwf addr ltac:(left)) as [[v Hv] Haddr].
  assert (Hrest : forall a, a ∈ rest ->
            is_Some (a !! "version") /\
            (of_version version a = true -> is_Some (a !! "addr")))
    by (intros a Ha; apply Hwf; right; exact Ha).
  rewrite last_address_cons. cbn [scan_addrs].
  unfold bind at 1. rewrite (getitem_Some _ _ _ _ Hv).
  assert (Hov : of_version version addr = py_eq_int v version)
    by (unfold of_version; rewrite Hv; reflexivity).
  rewrite Hov in Haddr |- *.
  destruct (py_eq_int v version).
  - destruct (Haddr eq_refl) as [a Ha].
    unfold bind. rewrite (getitem_Some _ _ _ _ Ha).
    destruct (IH (<[network := a]> address) w Hrest) as [-> Hnone].
    destruct (last (List.filter (of_version version) rest)) as [x|] eqn:Hlast.
    + destruct (last_address version rest) as [a'|] eqn:Hla.
      * rewrite insert_insert_eq. split; [reflexivity|discriminate].
      * specialize (Hnone eq_refl). discriminate Hnone.
    + assert (Hla : last_address version rest = None)
        by (unfold last_address; rewrite Hlast; reflexivity).
      rewrite Hla, Ha. split; [reflexivity|discriminate].
  - destruct (IH address w Hrest) as [-> Hnone]. split; [reflexivity|].
    intros Hla. cbn [List.filter]. rewrite Hov. apply Hnone, Hla.
Qed.

Lemma scan_networks_spec version items :
  forall (address : gmap string pyval) (w : mworld B),
  NoDup items.*1 ->
  (forall network addrs addr, (network, addrs) ∈ items -> addr ∈ addrs ->
     is_Some (addr !! "version") /\
     (of_version version addr = true -> is_Some (addr !! "addr"))) ->
  exists r,
    scan_networks version items address w = (Ret r, w) /\
    forall n, r !! n =
      match (list_to_map items : gmap string _) !! n
            ≫= last_address version with
      | Some a => Some a
      | None => address !! n
      end.
Proof.
  induction items as [|[n0 addrs0] rest IH]; intros address w Hnd Hwf.
  - exists address. split; [reflexivity|]. intros n.
    cbn. rewrite lookup_empty. reflexivity.
  - cbn in Hnd. apply NoDup_cons in Hnd as [Hn0 Hnd].
    destruct (scan_addrs_spec version n0 addrs0 address w) as [Hscan _].
    { intros addr Ha. eapply Hwf; [left|exact Ha]. }
    destruct (IH match last_address version addrs0 with
                 | Some a => <[n0 := a]> address
                 | None => address
                 end w Hnd) as (r & Hr & Hlook).
    { intros network addrs addr Hin Ha. eapply Hwf; [right; exact Hin|exact Ha]. }
    exists r. split.
    + cbn [scan_networks]. unfold bind. rewrite Hscan. exact Hr.
    + intros n. rewrite Hlook. cbn [list_to_map foldr fst snd].
      destruct (decide (n0 = n)) as [<-|Hne].
      * rewrite lookup_insert_eq. cbn.
        rewrite (not_elem_of_list_to_map_1 _ _ Hn0). cbn.
        destruct (last_address version addrs0);
          [apply lookup_insert_eq|reflexivity].
      * rewrite lookup_insert_ne by exact Hne.
        destruct (_ ≫= _); [reflexivity|].
        destruct (last_address version addrs0);
          [apply lookup_insert_ne; exact Hne|reflexivity].
Qed.

(** When the loops return, the addresses were proper. *)
Lemma scan_addrs_returns version network addrs :
  forall (address : gmap string pyval) (w : mworld B) r w',
  scan_addrs version network addrs address w = (Ret r, w') ->
  forall addr, addr ∈ addrs ->
    is_Some (addr !! "version") /\
    (of_version version addr = true -> is_Some (addr !! "addr")).
Proof.
  induction addrs as [|addr0 rest IH]; intros address w r w' Hrun addr Hin.
  - apply elem_of_nil in Hin. contradiction.
  - cbn [scan_addrs] in Hrun.
    apply bind_inv_Ret in Hrun as (v & ? & Hv & Hrun).
    apply getitem_inv_Ret in Hv as [Hv ->].
    destruct (py_eq_int v version) eqn:Heq.
    + apply bind_inv_Ret in Hrun as (a & ? & Ha & Hrun).
      apply getitem_inv_Ret in Ha as [Ha ->].
      apply elem_of_cons in Hin as [->|Hin]; [|eapply IH; eassumption].
      split; eauto.
    + apply elem_of_cons in Hin as [->|Hin]; [|eapply IH; eassumption].
      split; [eauto|]. unfold of_version. rewrite Hv, Heq. discriminate.
Qed.

Lemma scan_networks_returns version items :
  forall (address : gmap string pyval) (w : mworld B) r w',
  scan_networks version items address w = (Ret r, w') ->
  forall network addrs addr, (network, addrs) ∈ items -> addr ∈ addrs ->
    is_Some (addr !! "version") /\
    (of_version version addr = true -> is_Some (addr !! "addr")).
Proof.
  induction items as [|[n0 addrs0] rest IH];
    intros address w r w' Hrun network addrs addr Hin Ha.
  - apply elem_of_nil in Hin. contradiction.
  - cbn [scan_networks] in Hrun.
    apply bind_inv_Ret in Hrun as (a1 & w1 & Hscan & Hrun).
    apply elem_of_cons in Hin as [Heq|Hin].
    + injection Heq as -> ->. eapply scan_addrs_returns; eassumption.
    + eapply IH; eassumption.
Qed.

(** What [_get_node_address] does with the details of a node. *)
Lemma get_node_address_all node version (w : mworld B) b' :
  (forall node_addresses,
     get_details node (backend (driver w))
     = (Ret (NodeDetail (Some node_addresses)), b') ->
     let w1 := MWorld (World b' (trace (driver w))) (members w) in
     (well_formed version node_addresses ->
      _get_node_address node version w
      = (Ret (omap (last_address version) node_addresses), w1)) /\
     (forall r w', _get_node_address node version w = (Ret r, w') ->
                   well_formed version node_addresses)) /\
  (get_details node (backend (driver w)) = (Ret (NodeDetail None), b') ->
   exists w', _get_node_address node version w
              = (Raise (TypeError "'NoneType' object is not iterable"), w')).
Proof.
  split.
  - intros na Hget w1.
    assert (Hcall : ncall (get_details node) (fun _ => []) w
                    = (Ret (NodeDetail (Some na)), w1)).
    { unfold ncall. rewrite Hget, app_nil_r. reflexivity. }
    split.
    + intros Hwf. unfold _get_node_address, bind. rewrite Hcall. cbn [addresses].
      destruct (scan_networks_spec version (map_to_list na) ∅ w1)
        as (r & Hr & Hlook).
      { apply NoDup_fst_map_to_list. }
      { intros network addrs addr Hin Ha.
        apply elem_of_map_to_list in Hin. eapply Hwf; eassumption. }
      rewrite Hr. f_equal. f_equal. apply map_eq. intros n.
      rewrite Hlook, list_to_map_to_list, lookup_omap, lookup_empty.
      destruct (_ ≫= _); reflexivity.
    + intros r w' Hrun. unfold _get_node_address, bind in Hrun.
      rewrite Hcall in Hrun. cbn [addresses] in Hrun.
      intros network addrs addr Hin Ha.
      eapply scan_networks_returns; [exact Hrun| |exact Ha].
      apply elem_of_map_to_list, Hin.
  - intros Hget. unfold _get_node_address, bind, ncall. rewrite Hget.
    eexists. reflexivity.
Qed.

(** X5. [_get_node_address] returns, for every network on which the node
    has an address of the wanted version, the last such address in the
    list of that network, and nothing for the other networks.  It
    returns exactly when every address has a 'version' and every address
    of the wanted version has an 'addr'; details without 'addresses'
    make it raise [TypeError]. *)
Theorem get_node_address_spec node version (w : mworld B) b' :
  (forall node_addresses,
     get_details node (backend (driver w))
     = (Ret (NodeDetail (Some node_addresses)), b') ->
     let w1 := MWorld (World b' (trace (driver w))) (members w) in
     (well_formed version node_addresses ->
      _get_node_address node version w
      = (Ret (omap (last_address version) node_addresses), w1)) /\
     (forall r w', _get_node_address node version w = (Ret r, w') ->
                   well_formed version node_addresses)) /\
  (get_details node (backend (driver w)) = (Ret (NodeDetail None), b') ->
   exists w', _get_node_address node version w
              = (Raise (TypeError "'NoneType' object is not iterable"), w')).
Proof. apply get_node_address_all. Qed.

Lemma get_node_address_run node version (w : mworld B) b' node_addresses :
  get_details node (backend (driver w))
  = (Ret (NodeDetail (Some node_addresses)), b') ->
  well_formed version node_addresses ->
  _get_node_address node version w
  = (Ret (omap (last_address version) node_addresses),
     MWorld (World b' (trace (driver w))) (members w)).
Proof.
  intros Hget Hwf.
  apply (proj1 (proj1 (get_node_address_all node version w b') _ Hget) Hwf).
Qed.

(** *** [member_add] and [member_remove] *)

(** [still w w'] : nothing happened to the pool and nothing was
    recorded by the driver between [w] and [w']. *)
Local Abbreviation still w w' :=
  (members w' = members w /\ trace (driver w') = trace (driver w)).

Lemma ncall_silent {A} (op : B -> outcome A * B) (w : mworld B) o w' :
  ncall op (fun _ => []) w = (o, w') -> still w w'.
Proof.
  unfold ncall. destruct (op _) as [[a|e] b]; intros Hr;
    injection Hr as <- <-; cbn; rewrite ?app_nil_r; auto.
Qed.

Lemma scan_addrs_still version network addrs :
  forall (address : gmap string pyval) (w : mworld B) o w',
  scan_addrs version network addrs address w = (o, w') -> w' = w.
Proof.
  induction addrs as [|addr rest IH]; intros address w o w' Hrun.
  - injection Hrun as _ <-. reflexivity.
  - cbn [scan_addrs] in Hrun.
    apply bind_cases in Hrun as [(v & ? & Hv & Hrun)|(e & Hv & _)];
      apply getitem_cases in Hv as [-> _]; [|reflexivity].
    destruct (py_eq_int v version); [|eapply IH, Hrun].
    apply bind_cases in Hrun as [(a & ? & Ha & Hrun)|(e & Ha & _)];
      apply getitem_cases in Ha as [-> _]; [|reflexivity].
    eapply IH, Hrun.
Qed.

Lemma scan_networks_still version items :
  forall (address : gmap string pyval) (w : mworld B) o w',
  scan_networks version items address w = (o, w') -> w' = w.
Proof.
  induction items as [|[n0 addrs0] rest IH]; intros address w o w' Hrun.
  - injection Hrun as _ <-. reflexivity.
  - cbn [scan_networks] in Hrun.
    apply bind_cases in Hrun as [(a & w1 & Hs & Hrun)|(e & Hs & _)];
      apply scan_addrs_still in Hs as ->; [|reflexivity].
    eapply IH, Hrun.
Qed.

Lemma get_node_address_still node version (w : mworld B) o w' :
  _get_node_address node version w = (o, w') -> still w w'.
Proof.
  unfold _get_node_address. intros Hrun.
  apply bind_cases in Hrun as [(d & w1 & Hd & Hrun)|(e & Hd & _)];
    apply ncall_silent in Hd; [|exact Hd].
  destruct (addresses d).
  - apply scan_networks_still in Hrun as ->. exact Hd.
  - injection Hrun as _ <-. exact Hd.
Qed.

Lemma in_driver_wait lb_id timeout inf (w : mworld B) o w' :
  in_driver (_wait_for_lb_ready lb_id timeout inf) w = (o, w') ->
  members w' = members w /\
  exists t, trace (driver w') = trace (driver w) ++ t /\ mutations t = [].
Proof.
  unfold in_driver.
  destruct (_wait_for_lb_ready _ _ _ (driver w)) as [o1 d] eqn:Hw.
  intros Hr. injection Hr as <- <-. split; [reflexivity|].
  apply wait_quiet in Hw. exact Hw.
Qed.

(** X6. [member_add] creates at most one member and touches no other
    resource: when it returns an id, it has created the member with that
    id in the pool, on the port and subnet given; when it returns None,
    it has created nothing and has logged why; when it raises, it has
    created nothing, or it has created the member and the readiness poll
    after it has raised, so that the id is not returned. *)
Theorem member_add_outcomes node lb_id pool_id port subnet
    (w : mworld B) o w' :
  member_add node lb_id pool_id port subnet w = (o, w') ->
  (exists t, trace (driver w') = trace (driver w) ++ t /\ mutations t = []) /\
  match o with
  | Ret (Some i) =>
      exists address,
        members w' = members w
                     ++ [MemberCreated pool_id address port subnet i]
  | Ret None => exists msg, members w' = members w ++ [MemberLogError msg]
  | Raise e =>
      members w' = members w \/
      exists address i,
        members w' = members w
                     ++ [MemberCreated pool_id address port subnet i]
  end.
Proof.
  unfold member_add. intros Hrun.
  assert (Hnil : forall w0 w1 : mworld B, still w0 w1 ->
            exists t, trace (driver w1) = trace (driver w0) ++ t
                      /\ mutations t = []).
  { intros w0 w1 [_ Ht]. exists []. rewrite app_nil_r. auto. }
  apply bind_cases in Hrun as [(addrs & w1 & Ha & Hrun)|(e & Ha & ->)];
    apply get_node_address_still in Ha as Hs1;
    [|split; [apply Hnil, Hs1|left; apply Hs1]].
  destruct Hs1 as [Hm1 Ht1].
  destruct (bool_decide (size addrs = 0%nat)).
  { unfold bind, log_error, ret in Hrun. injection Hrun as <- <-. cbn.
    split; [exists []; rewrite app_nil_r; auto|].
    eexists. rewrite Hm1. reflexivity. }
  apply bind_cases in Hrun as [(so & w2 & Hso & Hrun)|(e & Hso & ->)];
    apply ncall_silent in Hso as [Hm2 Ht2];
    [|split; [apply Hnil; split; congruence|left; congruence]].
  apply bind_cases in Hrun as [(net_id & ? & Hni & Hrun)|(e & Hni & ->)];
    apply getitem_cases in Hni as [-> _];
    [|split; [apply Hnil; split; congruence|left; congruence]].
  apply bind_cases in Hrun as [(net & w3 & Hnet & Hrun)|(e & Hnet & ->)];
    apply ncall_silent in Hnet as [Hm3 Ht3];
    [|split; [apply Hnil; split; congruence|left; congruence]].
  apply bind_cases in Hrun as [(name & ? & Hnm & Hrun)|(e & Hnm & ->)];
    apply getitem_cases in Hnm as [-> _];
    [|split; [apply Hnil; split; congruence|left; congruence]].
  assert (Hm : members w3 = members w) by congruence.
  assert (Ht : trace (driver w3) = trace (driver w)) by congruence.
  clear Hm1 Hm2 Hm3 Ht1 Ht2 Ht3.
  assert (Hkey : forall (found : option pyval),
    match found with
    | Some address =>
        member <- ncall (pool_member_create pool_id address port subnet)
                        (fun m => [MemberCreated pool_id address port
                                                 subnet (id m)]) ;;
        in_driver (_wait_for_lb_ready lb_id 60 false) ;;;
        ret (Some (id member))
    | None => log_error ("Node is not in subnet " +:+ subnet) ;;; ret None
    end w3 = (o, w') ->
    (exists t, trace (driver w') = trace (driver w) ++ t /\ mutations t = []) /\
    match o with
    | Ret (Some i) =>
        exists address,
          members w' = members w
                       ++ [MemberCreated pool_id address port subnet i]
    | Ret None => exists msg, members w' = members w ++ [MemberLogError msg]
    | Raise e =>
        members w' = members w \/
        exists address i,
          members w' = members w
                       ++ [MemberCreated pool_id address port subnet i]
    end).
  { intros [address|] Hfound.
    - apply bind_cases in Hfound as [(m & w4 & Hc & Hfound)|(e & Hc & ->)].
      + assert (Hw4 : members w4 = members w
                        ++ [MemberCreated pool_id address port subnet (id m)]
                      /\ trace (driver w4) = trace (driver w)).
        { unfold ncall in Hc. destruct (pool_member_create _ _ _ _ _)
            as [[m'|e'] b]; [|discriminate Hc].
          injection Hc as <- <-. cbn. rewrite Hm, Ht. auto. }
        destruct Hw4 as [Hm4 Ht4].
        apply bind_cases in Hfound as [(res & w5 & Hw & Hfound)|(e & Hw & ->)];
          apply in_driver_wait in Hw as (Hm5 & t & Ht5 & Hq).
        * injection Hfound as <- <-.
          split; [exists t; rewrite Ht5, Ht4; auto|].
          exists address. congruence.
        * split; [exists t; rewrite Ht5, Ht4; auto|].
          right. exists address, (id m). congruence.
      + assert (Hw4 : still w3 w').
        { unfold ncall in Hc. destruct (pool_member_create _ _ _ _ _)
            as [[m'|e'] b]; [discriminate Hc|].
          injection Hc as _ <-. cbn. auto. }
        destruct Hw4 as [Hm4 Ht4].
        split; [apply Hnil; split; congruence|left; congruence].
    - unfold bind, log_error, ret in Hfound. injection Hfound as <- <-. cbn.
      split; [exists []; rewrite app_nil_r; auto|].
      eexists. rewrite Hm. reflexivity. }
  destruct name as [| | |s| |];
    try (apply (Hkey None); exact Hrun);
    try (injection Hrun as <- <-;
         split; [exists []; rewrite app_nil_r; auto|left; exact Hm]).
  apply (Hkey (addrs !! s)). exact Hrun.
Qed.

(** X7. A node whose addresses are all of another version than 4 is not
    added: [member_add] returns None, logs that the node has no valid
    IPv4 address, and makes no call to Neutron. *)
Theorem member_add_without_ipv4 node lb_id pool_id port subnet
    (w : mworld B) node_addresses b' :
  get_details node (backend (driver w))
  = (Ret (NodeDetail (Some node_addresses)), b') ->
  (forall network addrs addr,
     node_addresses !! network = Some addrs -> addr ∈ addrs ->
     exists v, addr !! "version" = Some v /\ py_eq_int v 4 = false) ->
  member_add node lb_id pool_id port subnet w
  = (Ret None,
     MWorld (World b' (trace (driver w)))
       (members w ++ [MemberLogError
          ("Node (" +:+ node_id node
           +:+ ") does not have valid IPv4 address.")])).
Proof.
  intros Hget Hv6.
  assert (Hov : forall network addrs addr,
            node_addresses !! network = Some addrs -> addr ∈ addrs ->
            of_version 4 addr = false).
  { intros network addrs addr Hn Ha.
    destruct (Hv6 _ _ _ Hn Ha) as (v & Hv & Hne).
    unfold of_version. rewrite Hv. exact Hne. }
  assert (Hwf : well_formed 4 node_addresses).
  { intros network addrs addr Hn Ha. split.
    - destruct (Hv6 _ _ _ Hn Ha) as (v & Hv & _). eauto.
    - rewrite (Hov _ _ _ Hn Ha). discriminate. }
  unfold member_add, bind.
  rewrite (get_node_address_run node 4 w b' node_addresses Hget Hwf).
  assert (Hempty : omap (last_address 4) node_addresses = ∅).
  { apply map_eq. intros n. rewrite lookup_omap, lookup_empty.
    destruct (node_addresses !! n) as [addrs|] eqn:Hn; [cbn|reflexivity].
    unfold last_address.
    assert (Hf : List.filter (of_version 4) addrs = []).
    { assert (Hall : forall a, a ∈ addrs -> of_version 4 a = false)
        by (intros a Ha; eapply Hov; eassumption).
      clear Hn. induction addrs as [|a addrs IH]; [reflexivity|].
      cbn. rewrite (Hall a ltac:(left)). apply IH.
      intros a' Ha'. apply Hall. right. exact Ha'. }
    rewrite Hf. reflexivity. }
  rewrite Hempty, map_size_empty. reflexivity.
Qed.

(** X8. [member_remove] never raises.  It returns True when the delete
    call and the polls after it did not raise, whether or not the load
    balancer became ready within the timeout; it returns False, after
    logging the error, when the delete call raised (nothing is deleted)
    or when a poll raised (the member is deleted all the same). *)
Theorem member_remove_never_raises lb_id pool_id member_id (w : mworld B) :
  exists b w',
    member_remove lb_id pool_id member_id w = (Ret b, w') /\
    (b = true ->
     members w' = members w ++ [MemberDeleted pool_id member_id]) /\
    (b = false ->
     exists msg,
       members w' = members w ++ [MemberLogError msg] \/
       members w' = members w ++ [MemberDeleted pool_id member_id;
                                  MemberLogError msg]) /\
    (forall b1 res d,
       pool_member_delete pool_id member_id (backend (driver w))
       = (Ret tt, b1) ->
       _wait_for_lb_ready lb_id 60 false (World b1 (trace (driver w)))
       = (Ret res, d) ->
       b = true).
Proof.
  unfold member_remove, try_except, bind, ncall, in_driver, log_error, ret.
  destruct (pool_member_delete pool_id member_id (backend (driver w)))
    as [[[]|e] b1]; cbn [driver members].
  - destruct (_wait_for_lb_ready lb_id 60 false (World b1 (trace (driver w))))
      as [[res|e] d] eqn:Hwait; cbn [driver members].
    + exists true. eexists. split; [reflexivity|].
      split; [reflexivity|]. split; [discriminate|reflexivity].
    + exists false. eexists. split; [reflexivity|].
      split; [discriminate|]. split.
      * intros _. eexists. right. rewrite <- app_assoc. reflexivity.
      * intros b1' res d' Hd Hw. injection Hd as <-.
        rewrite Hwait in Hw. discriminate Hw.
  - exists false. eexists. split; [reflexivity|].
    split; [discriminate|]. split.
    + intros _. eexists. left. reflexivity.
    + intros b1' res d' Hd. discriminate Hd.
Qed.

End Facts.

(** *** Runs on the scripted node and pool *)

Import Scripted.
Import ScriptedMembers.

Ltac enumerate Hin :=
  apply elem_of_map_to_list in Hin; vm_compute in Hin;
  repeat (apply elem_of_cons in Hin as [Hin|Hin];
          [injection Hin as -> ->|]);
  [..|apply elem_of_nil in Hin; contradiction].

Lemma two_networks_well_formed : well_formed 4 two_networks.
Proof.
  intros network addrs addr Hn Ha. enumerate Hn;
    repeat (apply elem_of_cons in Ha as [->|Ha];
            [split; [eexists; reflexivity|intros _; eexists; reflexivity]|]);
    apply elem_of_nil in Ha; contradiction.
Defined.

(** The node has two IPv4 addresses on "private" and none on "public":
    the later one is returned for "private", and "public" is left out. *)
Lemma get_node_address_spec_witness :
  let w := mstart [] None in
  _get_node_address (Some two_networks) 4 w
  = (Ret (omap (last_address 4) two_networks), w) /\
  omap (last_address 4) two_networks !! "private" = Some (PStr "10.0.0.4") /\
  omap (last_address 4) two_networks !! "public" = None.
Proof.
  intros w. split; [|split; vm_compute; reflexivity].
  apply (proj1 (proj1 (get_node_address_spec (H0 := members_client) (Some two_networks) 4 w
                         (Script [] None)) two_networks ltac:(reflexivity))
           two_networks_well_formed).
Defined.

Lemma member_add_outcomes_witness :
  let w := mstart [] None in
  let run := member_add (Some two_networks) "lb-1" "pool-1" (PInt 80)
                        "subnet-1" w in
  fst run = Ret (Some "member-1") /\
  exists address,
    members (snd run)
    = members w ++ [MemberCreated "pool-1" address (PInt 80) "subnet-1"
                                  "member-1"].
Proof.
  intros w run.
  assert (Hfst : fst run = Ret (Some "member-1")) by (vm_compute; reflexivity).
  split; [exact Hfst|].
  pose proof (member_add_outcomes (H0 := members_client) (Some two_networks)
                "lb-1" "pool-1" (PInt 80) "subnet-1" w (fst run) (snd run)
                (surjective_pairing _)) as [_ Hm].
  rewrite Hfst in Hm. exact Hm.
Defined.

Lemma member_add_without_ipv4_witness :
  let w := mstart [] None in
  member_add (Some ipv6_only) "lb-1" "pool-1" (PInt 80) "subnet-1" w
  = (Ret None,
     MWorld (World (Script [] None) [])
       [MemberLogError "Node (node-1) does not have valid IPv4 address."]).
Proof.
  intros w.
  apply (member_add_without_ipv4 (H0 := members_client) (Some ipv6_only) "lb-1" "pool-1" (PInt 80)
           "subnet-1" w ipv6_only (Script [] None) ltac:(reflexivity)).
  intros network addrs addr Hn Ha. enumerate Hn.
  apply elem_of_cons in Ha as [->|Ha];
    [|apply elem_of_nil in Ha; contradiction].
  exists (PInt 6). split; reflexivity.
Defined.

(** The load balancer never becomes ready, and the member is removed
    all the same. *)
Lemma member_remove_never_raises_witness :
  let w := mstart [] None in
  member_remove "lb-1" "pool-1" "member-1" w
  = (Ret true,
     MWorld (snd (_wait_for_lb_ready "lb-1" 60 false (start [] None)))
            [MemberDeleted "pool-1" "member-1"]) /\
  fst (_wait_for_lb_ready "lb-1" 60 false (start [] None)) = Ret false.
Proof.
  intros w. split; [|vm_compute; reflexivity].
  destruct (member_remove_never_raises (H0 := members_client)
              "lb-1" "pool-1" "member-1" w)
    as (b & w' & Hrun & _ & _ & Htrue).
  rewrite Hrun.
  assert (Hb : b = true).
  { apply (Htrue (Script [] None) false
             (snd (_wait_for_lb_ready "lb-1" 60 false (start [] None))));
      vm_compute; reflexivity. }
  subst b. assert (Hw' : snd (member_remove "lb-1" "pool-1" "member-1" w) = w')
    by (rewrite Hrun; reflexivity).
  rewrite <- Hw'. vm_compute. reflexivity.
Defined.

End LoadBalancerMembersFacts.

(** ** More on the controller *)

Module ClusterControllerMore.
Import ClusterController.
Import ClusterControllerFacts.
Import ClusterAnswers.

Section Facts.
Context {R context sobj request : Type}.
Context `{Consts} `{Utils} `{Objects sobj} `{RpcClient R context sobj}.
Variable req_context : request -> context.
Variable policy_enforce :
  forall A, string -> request ->
    M (world R context sobj) A -> M (world R context sobj) A.
Variable api_version :
  forall A, string -> request ->
    M (world R context sobj) A -> M (world R context sobj) A.

Local Abbreviation W := (world R context sobj).

Ltac quiet_goal :=
  repeat first
    [ apply quiet_py_get | apply quiet_py_get_default | apply quiet_py_len
    | apply quiet_first_key | apply quiet_py_setitem
    | apply quiet_parsed | apply quiet_with_location
    | apply quiet_checked_request | apply quiet_checked_vorc_request
    | apply quiet_sanitize_policy
    | apply quiet_py_set_len | apply quiet_check_nodes
    | apply quiet_bind; [|intros ?]
    | apply quiet_try_except;
        [|let e := fresh in let k := fresh in let He := fresh in
          intros e k He; destruct e; inversion He]
    | progress auto with quiet
    | match goal with
      | |- quiet (if ?b then _ else _) => destruct b
      | |- quiet (match ?x with _ => _ end) => destruct x
      end ].

(** Follows a run through its quiet steps and its tests, up to the RPC
    call; a run that ends before has raised in an unchanged world. *)
Ltac trace_run Hrun :=
  repeat
    match type of Hrun with
    | raise _ _ = _ =>
        injection Hrun as <- <-; left; split; [reflexivity|eauto]
    | (if ?b then _ else _) _ = _ => destruct b eqn:?
    | bind (rpc_client _) _ _ = _ => fail 1
    | bind ?m ?k ?w = _ =>
        let a := fresh "a" in
        let e := fresh "e" in
        let Hm := fresh "Hm" in
        let Heq := fresh "Heq" in
        let Hq := fresh "Hq" in
        assert (Hq : quiet m) by (solve [quiet_goal]);
        destruct (quiet_bind_cases m k w Hq)
          as [(a & Hm & Heq)|(e & Hm & Heq)];
        rewrite Heq in Hrun; clear Heq Hq;
        [ | injection Hrun as <- <-; left; split; [reflexivity|eauto] ]
    end.

Lemma call_then_location c (w : W) (o : outcome (gmap string pyval)) w' :
  (res <- rpc_client c ;; with_location res) w = (o, w') ->
  after_call w c
    (fun resp a => <["location" := location_of a]> resp) o w'.
Proof.
  unfold after_call, bind.
  destruct (rpc_client c w) as [[resp|e] w1] eqn:Hrpc;
    apply rpc_client_calls in Hrpc as [Hcalls Hrpc]; intros Hrun.
  - unfold with_location, bind, getitem in Hrun.
    exists (Ret resp). destruct (resp !! "action") as [a|];
      injection Hrun as <- <-; auto.
  - injection Hrun as <- <-. exists (Raise e). auto.
Qed.

Lemma call_then_cluster c (w : W) (o : outcome (gmap string pyval)) w' :
  (cluster <- rpc_client c ;;
   action_id <- getitem cluster "action" ;;
   let cluster := base.delete "action" cluster in
   ret (<["location" := PStr ("/actions/" +:+ py_str action_id)]>
        (<["cluster" := PDict cluster]> ∅))) w = (o, w') ->
  after_call w c
    (fun resp a => <["location" := location_of a]>
                     (<["cluster" := PDict (base.delete "action" resp)]> ∅))
    o w'.
Proof.
  unfold after_call, bind.
  destruct (rpc_client c w) as [[resp|e] w1] eqn:Hrpc;
    apply rpc_client_calls in Hrpc as [Hcalls Hrpc]; intros Hrun.
  - unfold getitem in Hrun.
    exists (Ret resp). destruct (resp !! "action") as [a|];
      injection Hrun as <- <-; auto.
  - injection Hrun as <- <-. exists (Raise e). auto.
Qed.

Lemma call_then_delete c (w : W) (o : outcome (gmap string pyval)) w' :
  (res <- rpc_client c ;;
   action_id <- getitem res "action" ;;
   ret (<["location" := PStr ("/actions/" +:+ py_str action_id)]> ∅)) w
  = (o, w') ->
  after_call w c (fun _ a => <["location" := location_of a]> ∅) o w'.
Proof.
  unfold after_call, bind.
  destruct (rpc_client c w) as [[resp|e] w1] eqn:Hrpc;
    apply rpc_client_calls in Hrpc as [Hcalls Hrpc]; intros Hrun.
  - unfold getitem in Hrun.
    exists (Ret resp). destruct (resp !! "action") as [a|];
      injection Hrun as <- <-; auto.
  - injection Hrun as <- <-. exists (Raise e). auto.
Qed.

Lemma do_resize_cases req cluster_id this_action body (w : W)
    (o : outcome (gmap string pyval)) w' :
  _do_resize req_context req cluster_id this_action body w = (o, w') ->
  (w' = w /\ exists e, o = Raise e) \/
  exists c, after_call w c
              (fun resp a => <["location" := location_of a]> resp) o w'.
Proof.
  unfold _do_resize. intros Hrun. trace_run Hrun.
  right. eexists. apply call_then_location. exact Hrun.
Qed.

Lemma replace_nodes_cases req cluster_id this_action body (w : W)
    (o : outcome (gmap string pyval)) w' :
  versioned api_version req ->
  _replace_nodes req_context api_version req cluster_id this_action body w
  = (o, w') ->
  (w' = w /\ exists e, o = Raise e) \/
  exists c, after_call w c
              (fun resp a => <["location" := location_of a]> resp) o w'.
Proof.
  unfold _replace_nodes. intros Hvers Hrun. rewrite Hvers in Hrun.
  trace_run Hrun.
  destruct a0; try (injection Hrun as <- <-; left; split; [reflexivity|eauto]).
  trace_run Hrun.
  right. eexists. apply call_then_location. exact Hrun.
Qed.

Lemma nodes_request_cases (cls method : string) ctx params (w : W)
    (o : outcome (gmap string pyval)) w' :
  (res <- (norm_req <- lift (normalize_req cls params None) ;;
           obj <- checked_vorc_request cls norm_req ;;
           rpc_client (call2 ctx method obj)) ;;
   with_location res) w = (o, w') ->
  (w' = w /\ exists e, o = Raise e) \/
  exists c, after_call w c
              (fun resp a => <["location" := location_of a]> resp) o w'.
Proof.
  intros Hrun. unfold bind at 1 in Hrun.
  destruct ((norm_req <- lift (normalize_req cls params None) ;;
             obj <- checked_vorc_request cls norm_req ;;
             rpc_client (call2 ctx method obj)) w) as [o1 w1] eqn:Hreq.
  assert (Hcases : (w1 = w /\ exists e, o1 = Raise e) \/
                   exists obj, rpc_client (call2 ctx method obj) w = (o1, w1)).
  { trace_run Hreq. right. eauto. }
  destruct Hcases as [[-> [e ->]]|[obj Hrpc]].
  - injection Hrun as <- <-. left. eauto.
  - right. exists (call2 ctx method obj). apply call_then_location.
    unfold bind. rewrite Hrpc. exact Hrun.
Qed.

(** X9. Every run of [create], [update], [delete] and [action], for a
    request that the decorators let through.  Either it raises in an
    unchanged world, no call made; or exactly one RPC call was made and
    the engine moved by it.  In that case an exception of the call is
    passed on as it is, an answer without 'action' ends in
    [KeyError 'action'] although the call has been made, and an answer
    with an action gives the result of the operation: [create] and
    [update] return the answer, less its 'action', under 'cluster' next
    to the location; [delete] returns the location alone; [action]
    returns the answer with the location added. *)
Theorem perform_outcomes req op (w : W) (o : outcome (gmap string pyval)) w' :
  authorized policy_enforce req ->
  versioned api_version req ->
  perform req_context policy_enforce api_version req op w = (o, w') ->
  (w' = w /\ exists e, o = Raise e) \/
  exists c, after_call w c (expected_result op) o w'.
Proof.
  intros Hauth Hvers Hrun.
  destruct op as [body|cluster_id body|cluster_id|cluster_id body];
    cbn [perform] in Hrun.
  - unfold create in Hrun. rewrite Hauth in Hrun. trace_run Hrun.
    right. eexists. apply call_then_cluster. exact Hrun.
  - unfold update in Hrun. rewrite Hauth in Hrun. trace_run Hrun.
    right. eexists. apply call_then_cluster. exact Hrun.
  - unfold delete in Hrun. rewrite Hauth in Hrun.
    right. eexists. apply call_then_delete. exact Hrun.
  - unfold action in Hrun. rewrite Hauth in Hrun. cbn zeta in Hrun.
    trace_run Hrun;
      first
        [ right; eexists; apply call_then_location; exact Hrun
        | apply nodes_request_cases in Hrun; exact Hrun
        | apply do_resize_cases in Hrun; exact Hrun
        | apply (replace_nodes_cases _ _ _ _ _ _ _ Hvers) in Hrun;
          exact Hrun ].
Qed.

Lemma singleton_truthy k (v : pyval) : py_truthy (PDict {[k := v]}) = true.
Proof. cbn. rewrite map_size_singleton. reflexivity. Qed.

(** The run of [action] on a body with the single key [name], up to the
    branch for [name]. *)
Ltac dispatch Hauth :=
  unfold action; rewrite Hauth; cbn zeta; rewrite singleton_truthy;
  unfold bind at 1, py_len, ret; rewrite map_size_singleton;
  change (Z.of_nat 1 <? 1) with false; change (1 <? Z.of_nat 1) with false;
  cbn iota;
  unfold bind at 1, first_key; rewrite map_to_list_singleton; unfold ret;
  cbn iota beta;
  repeat match goal with
         | |- context [bool_decide (?a ∈ SUPPORTED_ACTIONS)] =>
             let r := eval vm_compute in (bool_decide (a ∈ SUPPORTED_ACTIONS)) in
             change (bool_decide (a ∈ SUPPORTED_ACTIONS)) with r
         | |- context [String.eqb ?a ?b] =>
             let r := eval vm_compute in (String.eqb a b) in
             change (String.eqb a b) with r
         end;
  cbn [negb];
  try rewrite (py_get_Some _ _ _ _ _ (lookup_singleton_eq _ _));
  reflexivity.

Section Branches.
Variable req : request.
Variable cluster_id : string.
Variable v : pyval.
Variable w : W.
Hypothesis Hauth : authorized policy_enforce req.

Local Abbreviation action_on name :=
  (action req_context policy_enforce api_version req cluster_id
          (PDict {[name := v]}) w).

Lemma action_add_nodes :
  action_on "add_nodes"
  = (nodes <- py_get_default v "nodes" (PList []) ;;
     res <- _add_nodes (req_context req) cluster_id nodes ;;
     with_location res) w.
Proof. dispatch Hauth. Qed.

Lemma action_del_nodes :
  action_on "del_nodes"
  = (nodes <- py_get_default v "nodes" (PList []) ;;
     res <- _del_nodes (req_context req) cluster_id nodes ;;
     with_location res) w.
Proof. dispatch Hauth. Qed.

Lemma action_resize :
  action_on "resize"
  = _do_resize req_context req cluster_id "resize"
               (PDict {["resize" := v]}) w.
Proof. dispatch Hauth. Qed.

Lemma action_scale_out :
  action_on "scale_out"
  = (count <- py_get v "count" ;;
     answered (cluster_scale_out (req_context req) cluster_id count)) w.
Proof. dispatch Hauth. Qed.

Lemma action_scale_in :
  action_on "scale_in"
  = (count <- py_get v "count" ;;
     answered (cluster_scale_in (req_context req) cluster_id count)) w.
Proof. dispatch Hauth. Qed.

Lemma action_policy_attach :
  action_on "policy_attach"
  = (data <- _sanitize_policy v ;;
     answered (cluster_policy_attach (req_context req) cluster_id data)) w.
Proof. dispatch Hauth. Qed.

Lemma action_policy_detach :
  action_on "policy_detach"
  = (policy_id <- py_get_default v "policy_id" PNone ;;
     if negb (py_truthy policy_id) then
       raise (HTTPBadRequest "No policy specified for detach.")
     else
       answered (cluster_policy_detach (req_context req) cluster_id
                                       policy_id)) w.
Proof. dispatch Hauth. Qed.

Lemma action_policy_update :
  action_on "policy_update"
  = (data <- _sanitize_policy v ;;
     answered (cluster_policy_update (req_context req) cluster_id data)) w.
Proof. dispatch Hauth. Qed.

Lemma action_check :
  action_on "check"
  = (if negb (is_dict v) then
       raise (HTTPBadRequest "The params provided is not a map.")
     else answered (cluster_check (req_context req) cluster_id v)) w.
Proof. dispatch Hauth. Qed.

Lemma action_recover :
  action_on "recover"
  = (if negb (is_dict v) then
       raise (HTTPBadRequest "The params provided is not a map.")
     else answered (cluster_recover (req_context req) cluster_id v)) w.
Proof. dispatch Hauth. Qed.

Lemma action_replace_nodes :
  action_on "replace_nodes"
  = _replace_nodes req_context api_version req cluster_id "replace_nodes"
                   (PDict {["replace_nodes" := v]}) w.
Proof. dispatch Hauth. Qed.

End Branches.

Lemma sanitize_policy_rejects (d : gmap string pyval) (w : W) :
  d !! CP_POLICY_ID = None \/
  (exists v p x, d !! CP_ENABLED = Some v /\
     parse_bool_param CP_ENABLED v = Raise (InvalidParameter p x)) ->
  exists msg, _sanitize_policy (PDict d) w = (Raise (HTTPBadRequest msg), w).
Proof.
  unfold _sanitize_policy.
  destruct (d !! CP_POLICY_ID) as [i|] eqn:Hid; cbn [negb].
  - intros [Hnone|(v & p & x & Hv & Hparse)]; [discriminate|].
    rewrite bool_decide_eq_true_2 by eauto. cbn [negb]. rewrite Hv.
    unfold bind, try_except, lift. rewrite Hparse. eexists. reflexivity.
  - intros _. rewrite bool_decide_eq_false_2 by (intros [? ?]; discriminate).
    eexists. reflexivity.
Qed.

(** X10. An action whose data cannot be used is answered with
    [HTTPBadRequest], and no RPC call is made: [check] and [recover]
    with data that is not a dict; [policy_attach] and [policy_update]
    with data that is not a dict, that has no policy id, or whose
    'enabled' [parse_bool_param] refuses with [InvalidParameter];
    [policy_detach] with a dict whose 'policy_id' is missing or falsy. *)
Theorem action_rejects_bad_data req cluster_id name v (w : W) :
  authorized policy_enforce req ->
  bad_data name v ->
  exists msg,
    action req_context policy_enforce api_version req cluster_id
           (PDict {[name := v]}) w
    = (Raise (HTTPBadRequest msg), w).
Proof.
  intros Hauth Hbad.
  assert (Hpolicy : forall d c,
    (exists msg, _sanitize_policy (PDict d) w
                 = (Raise (HTTPBadRequest msg), w)) ->
    exists msg, (data <- _sanitize_policy (PDict d) ;; answered (c data)) w
                = (Raise (HTTPBadRequest msg), w)).
  { intros d c [msg Hmsg]. exists msg. unfold bind. rewrite Hmsg.
    reflexivity. }
  destruct Hbad as [v Hv|v Hv|v name [->| ->] Hv|d name [->| ->] Hid
                   |d name v p x [->| ->] Hv Hparse|d Hd].
  - rewrite action_check by exact Hauth. rewrite Hv. eexists. reflexivity.
  - rewrite action_recover by exact Hauth. rewrite Hv. eexists. reflexivity.
  - rewrite action_policy_attach by exact Hauth.
    destruct v; try discriminate Hv; eexists; reflexivity.
  - rewrite action_policy_update by exact Hauth.
    destruct v; try discriminate Hv; eexists; reflexivity.
  - rewrite action_policy_attach by exact Hauth.
    apply Hpolicy, sanitize_policy_rejects. left. exact Hid.
  - rewrite action_policy_update by exact Hauth.
    apply Hpolicy, sanitize_policy_rejects. left. exact Hid.
  - rewrite action_policy_attach by exact Hauth.
    apply Hpolicy, sanitize_policy_rejects. right. eauto.
  - rewrite action_policy_update by exact Hauth.
    apply Hpolicy, sanitize_policy_rejects. right. eauto.
  - rewrite action_policy_detach by exact Hauth.
    unfold bind at 1, py_get_default, ret. rewrite Hd. eexists. reflexivity.
Qed.
(** X11. [_sanitize_policy] on any data.  It leaves the world alone.
    When it returns, the data was a dict with a policy id, and what is
    returned has the keys of the data and its values, but for 'enabled',
    which, when given, is the boolean [parse_bool_param] made of it.
    It never raises [InvalidParameter]; data that is no dict or has no
    policy id gives [HTTPBadRequest]. *)
Theorem sanitize_policy_spec data (w : W) o w' :
  _sanitize_policy data w = (o, w') ->
  w' = w /\
  match o with
  | Ret d' =>
      exists d, data = PDict d /\ is_Some (d !! CP_POLICY_ID) /\
        dom d' = dom d /\
        (forall k, k <> CP_ENABLED -> d' !! k = d !! k) /\
        (forall v, d !! CP_ENABLED = Some v ->
           exists b, parse_bool_param CP_ENABLED v = Ret b /\
                     d' !! CP_ENABLED = Some (PBool b))
  | Raise e =>
      (forall p x, e <> InvalidParameter p x) /\
      (is_dict data = false \/
       (exists d, data = PDict d /\ d !! CP_POLICY_ID = None) ->
       exists msg, e = HTTPBadRequest msg)
  end.
Proof.
  intros Hrun.
  split; [exact (quiet_snd _ _ _ _ (quiet_sanitize_policy data) Hrun)|].
  apply (f_equal fst) in Hrun. cbn [fst] in Hrun. subst o.
  unfold _sanitize_policy.
  destruct data as [| | | | |d]; try (split; [discriminate|eauto]).
  destruct (decide (is_Some (d !! CP_POLICY_ID))) as [Hid|Hid].
  - rewrite bool_decide_eq_true_2 by exact Hid. cbn [negb].
    destruct (d !! CP_ENABLED) as [v|] eqn:Hv.
    + unfold bind, try_except, lift.
      destruct (parse_bool_param CP_ENABLED v) as [b|e] eqn:Hparse.
      * cbn. exists d. split; [reflexivity|].
        split; [exact Hid|]. split; [|split].
        -- rewrite dom_insert_L. apply elem_of_dom_2 in Hv.
           apply subseteq_union_1_L, singleton_subseteq_l. exact Hv.
        -- intros k Hk. apply lookup_insert_ne. congruence.
        -- intros v' Hv'. rewrite Hv in Hv'. injection Hv' as <-. exists b.
           split; [exact Hparse|]. apply lookup_insert_eq.
      * destruct e; cbn;
          (split; [discriminate|]);
          intros [Hd|(d0 & Hd & Hnone)];
          try discriminate Hd;
          try (injection Hd as <-; rewrite Hnone in Hid;
               destruct Hid as [? Hid]; discriminate Hid);
          eauto.
    + cbn. exists d. split; [reflexivity|].
      split; [exact Hid|]. split; [reflexivity|]. split; [reflexivity|].
      intros v Hv'. rewrite Hv in Hv'. discriminate Hv'.
  - rewrite bool_decide_eq_false_2 by exact Hid. cbn [negb].
    cbn. split; [discriminate|eauto].
Qed.
(** X12. A resize that only sets the bounds of the cluster: no
    adjustment type, number, step or strictness.  What
    [parse_int_param] raises for [min_size] is passed on as it is, no
    call made.  When both bounds are parsed, to [n] and [m], and [m] is
    not positive or not below [n], the request goes to the engine as
    [cluster_resize(ctx, id, None, None, n, m, None, True)]: a
    [max_size] of zero or less is never compared with [min_size]. *)
Theorem do_resize_bounds_only req cluster_id this_action
    (b data : gmap string pyval) (w : W) :
  b !! this_action = Some (PDict data) ->
  dict_get data ADJUSTMENT_TYPE PNone = PNone ->
  dict_get data ADJUSTMENT_NUMBER PNone = PNone ->
  dict_get data ADJUSTMENT_MIN_STEP PNone = PNone ->
  dict_get data ADJUSTMENT_STRICT PNone = PNone ->
  let min_size := dict_get data ADJUSTMENT_MIN_SIZE PNone in
  let max_size := dict_get data ADJUSTMENT_MAX_SIZE PNone in
  let run := _do_resize req_context req cluster_id this_action (PDict b) w in
  min_size <> PNone ->
  (forall e, parse_int_param ADJUSTMENT_MIN_SIZE min_size false = Raise e ->
     run = (Raise e, w)) /\
  (forall n m,
     max_size <> PNone ->
     parse_int_param ADJUSTMENT_MIN_SIZE min_size false = Ret n ->
     parse_int_param ADJUSTMENT_MAX_SIZE max_size true = Ret m ->
     m <= 0 \/ n <= m ->
     run = answered (cluster_resize (req_context req) cluster_id PNone None
                                    (Some n) (Some m) None true) w).
Proof.
  intros Hdata Hadj Hnum Hstep Hstrict min_size max_size run Hmin.
  pose proof (do_resize_from_data req_context req cluster_id this_action
                b data w Hdata) as Hrun.
  cbn zeta in Hrun. fold run in Hrun.
  rewrite Hadj, Hnum, Hstep, Hstrict in Hrun.
  fold min_size max_size in Hrun. cbn [is_none negb] in Hrun.
  unfold parsed in Hrun. rewrite (is_none_false _ Hmin) in Hrun.
  cbn [is_none negb] in Hrun.
  rewrite Hrun. clear Hrun. split.
  - intros e He. unfold bind, lift, ret. rewrite He. reflexivity.
  - intros n m Hmax Hn Hm Hle. rewrite (is_none_false _ Hmax).
    assert (Hcheck : (0 <? m) && (m <? n) = false).
    { apply andb_false_iff. destruct Hle; [left|right]; apply Z.ltb_ge; lia. }
    unfold bind at 1 2 3 4 5 6, lift, ret. cbn [negb]. rewrite Hn.
    unfold bind at 1 2. rewrite Hm.
    unfold bind at 1. rewrite Hcheck. reflexivity.
Qed.
Lemma checked_request_run cls norm_req (w : W) :
  checked_request cls norm_req w
  = (match checked cls norm_req with
     | Ret obj => Ret obj
     | Raise e => Raise (converted e)
     end, w).
Proof.
  unfold checked_request, checked, try_except, bind, lift, ret.
  destruct (obj_from_primitive cls norm_req) as [obj|e].
  - destruct (validate norm_req obj) as [[]|e]; [reflexivity|].
    destruct e; reflexivity.
  - destruct e; reflexivity.
Qed.

(** The request object of [update], [get], [_add_nodes] and
    [_del_nodes]: what [normalize_req] raises is passed on, what the two
    steps inside the [try] raise goes through the handlers. *)
Lemma request_then cls params {A} (k : sobj -> M W A) (w : W) :
  (norm_req <- lift (normalize_req cls params None) ;;
   obj <- checked_request cls norm_req ;;
   k obj) w
  = match normalize_req cls params None with
    | Raise e => (Raise e, w)
    | Ret norm_req =>
        match checked cls norm_req with
        | Raise e => (Raise (converted e), w)
        | Ret obj => k obj w
        end
    end.
Proof.
  unfold bind at 1, lift.
  destruct (normalize_req cls params None) as [norm_req|e]; [|reflexivity].
  unfold bind. rewrite checked_request_run.
  destruct (checked cls norm_req); reflexivity.
Qed.

(** X13. [create] and the exceptions of the request object, whose
    three steps ([normalize_req], [obj_from_primitive],
    [jsonschema.validate]) are all inside the [try].  A [ValueError] of
    any step gives [HTTPBadRequest] with its text.  Any other exception,
    [ValidationError] among them, is passed on as it is, as is what
    reading [obj.cluster] raises.  No call is made in these cases.
    Otherwise the one call made is
    [call2(ctx, 'cluster_create2', obj.cluster)]. *)
Theorem create_validation req body (w : W) :
  authorized policy_enforce req ->
  let run := create req_context policy_enforce req body w in
  let built := built_request "ClusterCreateRequest" body (Some "cluster") in
  (forall msg, built = Raise (ValueError msg) ->
     run = (Raise (HTTPBadRequest (text_type (ValueError msg))), w)) /\
  (forall e, built = Raise e -> (forall msg, e <> ValueError msg) ->
     run = (Raise e, w)) /\
  (forall obj e, built = Ret obj -> obj_cluster obj = Raise e ->
     run = (Raise e, w)) /\
  (forall obj cluster_obj,
     built = Ret obj -> obj_cluster obj = Ret cluster_obj ->
     after_call w (call2 (req_context req) "cluster_create2" cluster_obj)
                (expected_result (Create body)) (fst run) (snd run)).
Proof.
  intros Hauth run built.
  assert (Hrun : run =
    match built with
    | Raise e =>
        (Raise (match e with
                | ValueError _ => HTTPBadRequest (text_type e)
                | _ => e
                end), w)
    | Ret obj =>
        (cluster_obj <- lift (obj_cluster obj) ;;
         cluster <- rpc_client (call2 (req_context req) "cluster_create2"
                                      cluster_obj) ;;
         action_id <- getitem cluster "action" ;;
         let cluster := base.delete "action" cluster in
         ret (<["location" := PStr ("/actions/" +:+ py_str action_id)]>
              (<["cluster" := PDict cluster]> ∅))) w
    end).
  { unfold run, built, create, built_request. rewrite Hauth.
    unfold bind at 1, try_except, bind at 1 2 3, lift, ret.
    destruct (normalize_req _ body _) as [norm_req|e];
      [|destruct e; reflexivity].
    destruct (obj_from_primitive _ norm_req) as [obj|e];
      [|destruct e; reflexivity].
    destruct (validate norm_req obj) as [[]|e]; [reflexivity|].
    destruct e; reflexivity. }
  split; [|split; [|split]].
  - intros msg Hb. rewrite Hrun, Hb. reflexivity.
  - intros e Hb Hne. rewrite Hrun, Hb.
    destruct e; try reflexivity. exfalso. eapply Hne. reflexivity.
  - intros obj e Hb He. rewrite Hrun, Hb. unfold bind, lift. rewrite He.
    reflexivity.
  - intros obj cluster_obj Hb Hc. apply call_then_cluster.
    rewrite <- surjective_pairing, Hrun, Hb.
    unfold bind at 1, lift. rewrite Hc. reflexivity.
Qed.

(** X14. [update].  A body that is not a dict gives [AttributeError];
    a body without 'cluster', or with a null one, [HTTPBadRequest]; a
    'cluster' that is no dict, [TypeError].  Otherwise the request is
    built from the 'cluster' dict with 'identity' set to the id of the
    URL, whatever identity the body gave.  What [normalize_req] raises
    is passed on as it is, for it is outside the [try]; a [ValueError]
    or [ValidationError] of the two steps inside gives
    [HTTPBadRequest]; no call is made in these cases.  Otherwise the
    one call made is [call2(ctx, 'cluster_update2', obj)]. *)
Theorem update_validation req cluster_id body (w : W) :
  authorized policy_enforce req ->
  let run := update req_context policy_enforce req cluster_id body w in
  (is_dict body = false -> run = (Raise (AttributeError "get"), w)) /\
  (forall b, body = PDict b -> dict_get b "cluster" PNone = PNone ->
     exists msg, run = (Raise (HTTPBadRequest msg), w)) /\
  (forall b data, body = PDict b -> b !! "cluster" = Some data ->
     data <> PNone -> is_dict data = false ->
     run = (Raise (TypeError "item assignment"), w)) /\
  (forall b d, body = PDict b -> b !! "cluster" = Some (PDict d) ->
     let params := PDict (<["identity" := PStr cluster_id]> d) in
     match normalize_req "ClusterUpdateRequest" params None with
     | Raise e => run = (Raise e, w)
     | Ret norm_req =>
         match checked "ClusterUpdateRequest" norm_req with
         | Raise e => run = (Raise (converted e), w)
         | Ret obj =>
             after_call w (call2 (req_context req) "cluster_update2" obj)
                        (expected_result (Update cluster_id body))
                        (fst run) (snd run)
         end
     end).
Proof.
  intros Hauth run.
  assert (Hrun : run =
    (data <- py_get body "cluster" ;;
     if is_none data then
       raise (HTTPBadRequest
         "Malformed request data, missing 'cluster' key in request body.")
     else
     params <- py_setitem data "identity" (PStr cluster_id) ;;
     norm_req <- lift (normalize_req "ClusterUpdateRequest" params None) ;;
     obj <- checked_request "ClusterUpdateRequest" norm_req ;;
     cluster <- rpc_client (call2 (req_context req) "cluster_update2" obj) ;;
     action_id <- getitem cluster "action" ;;
     let cluster := base.delete "action" cluster in
     ret (<["location" := PStr ("/actions/" +:+ py_str action_id)]>
          (<["cluster" := PDict cluster]> ∅))) w).
  { unfold run, update. rewrite Hauth. reflexivity. }
  clearbody run. subst run.
  split; [|split; [|split]].
  - intros Hbody. destruct body; try reflexivity. discriminate Hbody.
  - intros b -> Hnone. rewrite py_get_dict, Hnone. eexists. reflexivity.
  - intros b data -> Hdata Hnn Hnd.
    rewrite (py_get_Some _ _ _ _ _ Hdata), (is_none_false _ Hnn).
    destruct data; try reflexivity. discriminate Hnd.
  - intros b d -> Hdata params.
    rewrite (py_get_Some _ _ _ _ _ Hdata). cbn [is_none].
    unfold py_setitem. rewrite bind_ret_l. fold params.
    rewrite request_then.
    destruct (normalize_req _ params None) as [norm_req|e]; [|reflexivity].
    destruct (checked _ norm_req) as [obj|e]; [|reflexivity].
    apply call_then_cluster. rewrite <- surjective_pairing. reflexivity.
Qed.

Lemma checked_vorc_request_missing name norm_req (w : W) :
  name ∉ vorc ->
  checked_vorc_request name norm_req w = (Raise (AttributeError name), w).
Proof.
  intros Hname. unfold checked_vorc_request, try_except, bind, vorc_getattr.
  rewrite bool_decide_eq_false_2 by exact Hname. reflexivity.
Qed.

Lemma nodes_classes_missing :
  ("ClusterAddNodesRequest" ∉ vorc) /\ ("ClusterDelNodesRequest" ∉ vorc).
Proof.
  split; intros Hin;
    repeat (apply elem_of_cons in Hin as [Hin|Hin]; [discriminate Hin|]);
    apply elem_of_nil in Hin; exact Hin.
Qed.

(** X17. [add_nodes] and [del_nodes] never reach the engine.  The
    request classes they name, [ClusterAddNodesRequest] and
    [ClusterDelNodesRequest], are not among those that
    [senlin/objects/requests/clusters.py] defines.  With a dict for
    data, the request is normalised from the cluster id and the 'nodes'
    of the data, an empty list when there is none; what [normalize_req]
    raises is passed on as it is; otherwise the lookup of the class
    inside the [try] raises [AttributeError], which neither handler
    catches.  No call is made. *)
Theorem nodes_actions_never_call req cluster_id name
    (d : gmap string pyval) (w : W) :
  authorized policy_enforce req ->
  name = "add_nodes" \/ name = "del_nodes" ->
  let run := action req_context policy_enforce api_version req cluster_id
                    (PDict {[name := PDict d]}) w in
  let cls := if String.eqb name "add_nodes" then "ClusterAddNodesRequest"
             else "ClusterDelNodesRequest" in
  let params :=
    PDict (<["identity" := PStr cluster_id]>
           (<["nodes" := dict_get d "nodes" (PList [])]> ∅)) in
  (cls ∉ vorc) /\
  match normalize_req cls params None with
  | Raise e => run = (Raise e, w)
  | Ret _ => run = (Raise (AttributeError cls), w)
  end.
Proof.
  intros Hauth [-> | ->]; cbn zeta;
    cbn [String.eqb Ascii.eqb Bool.eqb];
    (split; [apply nodes_classes_missing|]);
    [rewrite action_add_nodes by exact Hauth; unfold _add_nodes
    |rewrite action_del_nodes by exact Hauth; unfold _del_nodes];
    cbn [py_get_default]; rewrite bind_ret_l;
    cbn zeta; unfold bind, lift;
    (destruct (normalize_req _ _ None) as [norm_req|e]; [|reflexivity]);
    rewrite checked_vorc_request_missing by apply nodes_classes_missing;
    reflexivity.
Qed.
(** X15. Data that reaches the engine unchecked.  With a dict for
    data, [scale_out] and [scale_in] always make their call, with the
    'count' of the data as it is, None when there is none; [check] and
    [recover] make theirs with the whole dict; [policy_detach] with a
    truthy 'policy_id' makes its call with that value; [policy_attach]
    and [policy_update] make theirs with what [_sanitize_policy]
    returned. *)
Theorem action_forwards_data req cluster_id (d : gmap string pyval) (w : W) :
  authorized policy_enforce req ->
  let on name := action req_context policy_enforce api_version req cluster_id
                        (PDict {[name := PDict d]}) w in
  let ctx := req_context req in
  on "scale_out"
  = answered (cluster_scale_out ctx cluster_id (dict_get d "count" PNone)) w /\
  on "scale_in"
  = answered (cluster_scale_in ctx cluster_id (dict_get d "count" PNone)) w /\
  on "check" = answered (cluster_check ctx cluster_id (PDict d)) w /\
  on "recover" = answered (cluster_recover ctx cluster_id (PDict d)) w /\
  (py_truthy (dict_get d "policy_id" PNone) = true ->
   on "policy_detach"
   = answered (cluster_policy_detach ctx cluster_id
                 (dict_get d "policy_id" PNone)) w) /\
  (forall d', fst (_sanitize_policy (PDict d) w) = Ret d' ->
     on "policy_attach"
     = answered (cluster_policy_attach ctx cluster_id d') w /\
     on "policy_update"
     = answered (cluster_policy_update ctx cluster_id d') w).
Proof.
  intros Hauth on ctx. unfold on.
  rewrite action_scale_out, action_scale_in, action_check, action_recover,
    action_policy_detach, action_policy_attach, action_policy_update
    by exact Hauth.
  do 4 (split; [reflexivity|]). split.
  - intros Hid. unfold py_get_default. rewrite bind_ret_l, Hid. reflexivity.
  - intros d' Hd'.
    assert (Hrun : _sanitize_policy (PDict d) w = (Ret d', w)).
    { pose proof (quiet_sanitize_policy (R := R) (context := context)
                    (PDict d) w) as Hq.
      destruct (_sanitize_policy (PDict d) w) as [o w1].
      cbn in Hd', Hq. subst o w1. reflexivity. }
    split; unfold bind at 1; rewrite Hrun; reflexivity.
Qed.

(** X16. Data without a [get] method.  For [add_nodes], [del_nodes],
    [scale_out], [scale_in], [resize], [policy_detach] and
    [replace_nodes], data that is not a dict (a null, a list, a string)
    ends in [AttributeError], not in [HTTPBadRequest]; no call is
    made. *)
Theorem action_data_without_get req cluster_id name v (w : W) :
  authorized policy_enforce req ->
  versioned api_version req ->
  name ∈ [ADD_NODES; DEL_NODES; SCALE_OUT; SCALE_IN; RESIZE; POLICY_DETACH;
          REPLACE_NODES] ->
  is_dict v = false ->
  action req_context policy_enforce api_version req cluster_id
         (PDict {[name := v]}) w
  = (Raise (AttributeError "get"), w).
Proof.
  intros Hauth Hvers Hname Hv.
  repeat (apply elem_of_cons in Hname as [->|Hname]);
    [..|apply elem_of_nil in Hname; contradiction].
  - rewrite action_add_nodes by exact Hauth.
    destruct v; try reflexivity. discriminate Hv.
  - rewrite action_del_nodes by exact Hauth.
    destruct v; try reflexivity. discriminate Hv.
  - rewrite action_scale_out by exact Hauth.
    destruct v; try reflexivity. discriminate Hv.
  - rewrite action_scale_in by exact Hauth.
    destruct v; try reflexivity. discriminate Hv.
  - rewrite action_resize by exact Hauth. unfold _do_resize.
    rewrite (py_get_Some _ _ _ _ _ (lookup_singleton_eq _ _)).
    destruct v; try reflexivity. discriminate Hv.
  - rewrite action_policy_detach by exact Hauth.
    destruct v; try reflexivity. discriminate Hv.
  - rewrite action_replace_nodes by exact Hauth. unfold _replace_nodes.
    rewrite Hvers, (py_get_Some _ _ _ _ _ (lookup_singleton_eq _ _)).
    destruct v; try reflexivity. discriminate Hv.
Qed.

End Facts.

(** *** The statements above on the canned engine *)

Section Runs.
Import Canned.

Lemma perform_outcomes_witness :
  let run := perform (fun _ => tt) pass pass tt (Delete "c1") start in
  exists c, after_call start c (expected_result (Delete "c1"))
                       (fst run) (snd run).
Proof.
  intros run.
  destruct (perform_outcomes (fun _ => tt) pass pass tt (Delete "c1") start
              (fst run) (snd run) pass_authorized pass_versioned
              (surjective_pairing _)) as [[_ [e He]]|Hcall].
  - vm_compute in He. discriminate He.
  - exact Hcall.
Defined.

Lemma action_rejects_bad_data_witness :
  exists msg,
    run_action "c1" (PDict {["check" := PList []]})
    = (Raise (HTTPBadRequest msg), start).
Proof.
  apply (action_rejects_bad_data (fun _ => tt) pass pass tt "c1" "check"
           (PList []) start pass_authorized).
  apply bad_check. reflexivity.
Defined.

Lemma sanitize_policy_spec_witness :
  let data : gmap string pyval :=
    <["policy_id" := PStr "p1"]> (<["enabled" := PBool false]> ∅) in
  let run := _sanitize_policy (R := unit) (context := unit) (sobj := pyval)
                              (PDict data) start in
  snd run = start /\
  exists d', fst run = Ret d' /\ dom d' = dom data.
Proof.
  intros data run.
  pose proof (sanitize_policy_spec (PDict data) start (fst run) (snd run)
                (surjective_pairing _)) as [Hw Ho].
  split; [exact Hw|].
  destruct (fst run) as [d'|e] eqn:Hrun; [|vm_compute in Hrun; discriminate].
  destruct Ho as (d & Hd & _ & Hdom & _). injection Hd as <-.
  exists d'. split; [reflexivity|exact Hdom].
Defined.

Lemma do_resize_bounds_only_witness :
  let data : gmap string pyval :=
    <["min_size" := PInt 5]> (<["max_size" := PInt (-1)]> ∅) in
  run_do_resize "c1" (PDict {["resize" := PDict data]})
  = answered (cluster_resize tt "c1" PNone None (Some 5) (Some (-1)) None true)
             start.
Proof.
  intros data.
  refine (proj2 (do_resize_bounds_only (fun _ => tt) tt "c1" "resize"
                   {["resize" := PDict data]} data start
                   (lookup_singleton_eq _ _) _ _ _ _ _)
                5 (-1) _ _ _ _);
    try reflexivity; try discriminate.
  left. lia.
Defined.

Lemma create_validation_witness :
  create (H1 := Picky.objects) (fun _ => tt) pass tt (PDict ∅) start
  = (Raise (HTTPBadRequest "invalid"), start) /\
  create (H1 := Picky.objects) (fun _ => tt) pass tt
         (PDict {["cluster" := PDict ∅]}) start
  = (Raise (ValidationError "'name' is a required property"), start).
Proof.
  split.
  - exact (proj1 (create_validation (H1 := Picky.objects) (fun _ => tt) pass
                    tt (PDict ∅) start pass_authorized)
                 "Request body missing key" eq_refl).
  - refine (proj1 (proj2 (create_validation (H1 := Picky.objects)
                            (fun _ => tt) pass tt
                            (PDict {["cluster" := PDict ∅]}) start
                            pass_authorized))
                  (ValidationError "'name' is a required property") _ _).
    + vm_compute. reflexivity.
    + discriminate.
Defined.

Lemma update_validation_witness :
  update (H1 := Picky.objects) (fun _ => tt) pass tt "c1"
         (PDict {["cluster" := PDict {["identity" := PStr "c2"]}]}) start
  = (Raise (HTTPBadRequest "'name' is a required property"), start).
Proof.
  exact (proj2 (proj2 (proj2
           (update_validation (H1 := Picky.objects) (fun _ => tt) pass tt "c1"
              (PDict {["cluster" := PDict {["identity" := PStr "c2"]}]})
              start pass_authorized)))
           _ _ eq_refl (lookup_singleton_eq _ _)).
Defined.

Lemma action_forwards_data_witness :
  run_action "c1" (PDict {["scale_out" := PDict {["count" := PStr "lots"]}]})
  = answered (cluster_scale_out tt "c1" (PStr "lots")) start.
Proof.
  exact (proj1 (action_forwards_data (fun _ => tt) pass pass tt "c1"
                  {["count" := PStr "lots"]} start pass_authorized)).
Defined.

Lemma action_data_without_get_witness :
  run_action "c1" (PDict {["scale_in" := PNone]})
  = (Raise (AttributeError "get"), start).
Proof.
  apply (action_data_without_get (fun _ => tt) pass pass tt "c1" "scale_in"
           PNone start pass_authorized pass_versioned).
  - repeat constructor.
  - reflexivity.
Defined.

Lemma nodes_actions_never_call_witness :
  run_action "c1" (PDict {["del_nodes" := PDict ∅]})
  = (Raise (AttributeError "ClusterDelNodesRequest"), start).
Proof.
  exact (proj2 (nodes_actions_never_call (fun _ => tt) pass pass tt "c1"
                  "del_nodes" ∅ start pass_authorized (or_intror eq_refl))).
Defined.

End Runs.

End ClusterControllerMore.


(** ** The operations that read *)

Module ClusterQueriesFacts.
Import ClusterController.
Import ClusterControllerFacts.
Import ClusterAnswers.
Import ClusterControllerMore.
Import ClusterQueries.

Section Facts.
Context {R context sobj request : Type}.
Context `{Consts} `{Utils} `{Objects sobj} `{RpcClient R context sobj}.
Context `{QueryConsts} `{QueryClient R context sobj}.
Variable req_context : request -> context.
Variable req_params : request -> list (string * pyval).
Variable is_space : Ascii.ascii -> bool.
Variable policy_enforce :
  forall V A, string -> request -> M V A -> M V A.
Variable api_version :
  forall V A, string -> request -> M V A -> M V A.

Local Abbreviation W := (world R context sobj).
Local Abbreviation QW := (qworld R context sobj).

(** *** [get] *)

(** X18. [get], for a request that the decorators let through.  The
    request object is built from the cluster id alone.  What
    [normalize_req] raises is passed on as it is; a [ValueError] or
    [ValidationError] of the two steps inside the [try] gives
    [HTTPBadRequest]; no call is made in these cases.  Otherwise
    exactly one call is made, [call2(ctx, 'cluster_get2', obj)]; its
    exception is passed on, and its answer is returned under 'cluster',
    whatever it holds: no 'action' is looked for and no location is
    added. *)
Theorem get_outcomes req cluster_id (w : W) :
  let_through policy_enforce api_version req ->
  let run := get req_context policy_enforce req cluster_id w in
  match normalize_req "ClusterGetRequest"
          (PDict (<["identity" := PStr cluster_id]> ∅)) None with
  | Raise e => run = (Raise e, w)
  | Ret norm_req =>
      match checked "ClusterGetRequest" norm_req with
      | Raise e => run = (Raise (converted e), w)
      | Ret obj =>
          let c := call2 (req_context req) "cluster_get2" obj in
          calls (snd run) = calls w ++ [c] /\
          exists oc,
            rpc c (engine w) = (oc, engine (snd run)) /\
            fst run = match oc with
                      | Ret cluster => Ret (<["cluster" := PDict cluster]> ∅)
                      | Raise e => Raise e
                      end
      end
  end.
Proof.
  intros [Hauth _] run.
  assert (Hrun : run
    = match normalize_req "ClusterGetRequest"
              (PDict (<["identity" := PStr cluster_id]> ∅)) None with
      | Raise e => (Raise e, w)
      | Ret norm_req =>
          match checked "ClusterGetRequest" norm_req with
          | Raise e => (Raise (converted e), w)
          | Ret obj =>
              (cluster <- rpc_client (call2 (req_context req) "cluster_get2"
                                            obj) ;;
               ret (<["cluster" := PDict cluster]> ∅)) w
          end
      end).
  { unfold run, get. rewrite Hauth. apply request_then. }
  clearbody run. subst run.
  destruct (normalize_req _ _ None) as [norm_req|e]; [|reflexivity].
  destruct (checked _ norm_req) as [obj|e]; [|reflexivity].
  cbn zeta. unfold bind.
  destruct (rpc_client _ w) as [oc w1] eqn:Hrpc.
  apply rpc_client_calls in Hrpc as [Hcalls Hrpc].
  destruct oc as [cluster|e]; (split; [exact Hcalls|]).
  - exists (Ret cluster). split; [exact Hrpc|reflexivity].
  - exists (Raise e). split; [exact Hrpc|reflexivity].
Qed.

(** *** [index] *)

Lemma whitelist_keys key :
  is_Some (whitelist !! key) <->
  key ∈ [CLUSTER_NAME; CLUSTER_STATUS; PARAM_LIMIT; PARAM_MARKER;
         PARAM_SORT; PARAM_GLOBAL_PROJECT].
Proof.
  unfold whitelist. rewrite !lookup_insert_is_Some, lookup_empty.
  rewrite !elem_of_cons, elem_of_nil. split.
  - intros [->|[_ [->|[_ [->|[_ [->|[_ [->|[_ [->|[_ [x Hx]]]]]]]]]]]]];
      try tauto. discriminate Hx.
  - intros Hkey.
    destruct (decide (PARAM_GLOBAL_PROJECT = key)); [tauto|].
    destruct (decide (PARAM_SORT = key)); [tauto|].
    destruct (decide (PARAM_MARKER = key)); [tauto|].
    destruct (decide (PARAM_LIMIT = key)); [tauto|].
    destruct (decide (CLUSTER_STATUS = key)); [tauto|].
    destruct (decide (CLUSTER_NAME = key)); [tauto|].
    exfalso. destruct Hkey as [?|[?|[?|[?|[?|[?|[]]]]]]]; congruence.
Qed.

Lemma check_keys_rejects pre key post (w : QW) :
  Forall (fun k => is_Some (whitelist !! k)) pre ->
  ~ is_Some (whitelist !! key) ->
  check_keys (pre ++ key :: post) w
  = (Raise (HTTPBadRequest ("Invalid parameter '" +:+ key +:+ "'")), w).
Proof.
  intros Hpre Hkey. induction Hpre as [|k pre Hk Hpre IH]; cbn.
  - rewrite bool_decide_eq_false_2 by exact Hkey. reflexivity.
  - rewrite bool_decide_eq_true_2 by exact Hk. exact IH.
Qed.

Lemma check_keys_accepts keys (w : QW) :
  Forall (fun k => is_Some (whitelist !! k)) keys ->
  check_keys keys w = (Ret tt, w).
Proof.
  intros Hkeys. induction Hkeys as [|k keys Hk Hkeys IH]; cbn.
  - reflexivity.
  - rewrite bool_decide_eq_true_2 by exact Hk. exact IH.
Qed.

(** X19. [index], for a request that the decorators let through.
    - The first query parameter whose name is none of the six of the
      whitelist is answered with [HTTPBadRequest] naming it, whatever
      comes after it; no call is made.
    - When all names are in the whitelist: what [parse_bool_param]
      raises for the global-project parameter (False when not given) is
      passed on, as is what [normalize_req] raises; a [ValueError] or
      [ValidationError] of the two steps inside the [try] gives
      [HTTPBadRequest]; no call is made in these cases.  Otherwise the
      one call made is [cluster_list2] with the object built from the
      allowed parameters, the global-project parameter taken out and
      'project_safe' set to the negation of what was parsed; its answer
      is returned under 'clusters', its exception passed on. *)
Theorem index_parameters req (w : QW) :
  let_through policy_enforce api_version req ->
  let names := [CLUSTER_NAME; CLUSTER_STATUS; PARAM_LIMIT; PARAM_MARKER;
                PARAM_SORT; PARAM_GLOBAL_PROJECT] in
  let run := index req_context req_params policy_enforce req w in
  (forall pre key post,
     (req_params req).*1 = pre ++ key :: post ->
     Forall (fun k => k ∈ names) pre -> key ∉ names ->
     run = (Raise (HTTPBadRequest ("Invalid parameter '" +:+ key +:+ "'")),
            w)) /\
  (Forall (fun k => k ∈ names) (req_params req).*1 ->
   let allowed := get_allowed_params (req_params req) whitelist in
   match parse_bool_param PARAM_GLOBAL_PROJECT
           (dict_get allowed PARAM_GLOBAL_PROJECT (PBool false)) with
   | Raise e => run = (Raise e, w)
   | Ret unsafe =>
       let params :=
         <["project_safe" := PBool (negb unsafe)]>
           (base.delete PARAM_GLOBAL_PROJECT allowed) in
       match normalize_req "ClusterListRequestBody" (PDict params) None with
       | Raise e => run = (Raise e, w)
       | Ret norm_req =>
           match checked "ClusterListRequestBody" norm_req with
           | Raise e => run = (Raise (converted e), w)
           | Ret obj =>
               let q := cluster_list2 (req_context req) obj in
               asked (snd run) = asked w ++ [q] /\
               calls (controller (snd run)) = calls (controller w) /\
               exists oc,
                 ask q (engine (controller w))
                 = (oc, engine (controller (snd run))) /\
                 fst run = match oc with
                           | Ret clusters =>
                               Ret (<["clusters" := clusters]> ∅)
                           | Raise e => Raise e
                           end
           end
       end
   end).
Proof.
  intros [Hauth _] names run. split.
  - intros pre key post Hkeys Hpre Hkey.
    unfold run, index. rewrite Hauth, Hkeys. unfold bind at 1.
    rewrite check_keys_rejects; [reflexivity| |].
    + eapply Forall_impl; [exact Hpre|]. intros k. apply whitelist_keys.
    + intros Hin. apply Hkey, whitelist_keys, Hin.
  - intros Hkeys allowed.
    assert (Hrun : run
      = match parse_bool_param PARAM_GLOBAL_PROJECT
                (dict_get allowed PARAM_GLOBAL_PROJECT (PBool false)) with
        | Raise e => (Raise e, w)
        | Ret unsafe =>
            match normalize_req "ClusterListRequestBody"
                    (PDict (<["project_safe" := PBool (negb unsafe)]>
                              (base.delete PARAM_GLOBAL_PROJECT allowed)))
                    None with
            | Raise e => (Raise e, w)
            | Ret norm_req =>
                match checked "ClusterListRequestBody" norm_req with
                | Raise e => (Raise (converted e), w)
                | Ret obj =>
                    (clusters <- rpc_query (cluster_list2 (req_context req)
                                                          obj) ;;
                     ret (<["clusters" := clusters]> ∅)) w
                end
            end
        end).
    { unfold run, index. rewrite Hauth. unfold bind at 1.
      rewrite check_keys_accepts
        by (eapply Forall_impl; [exact Hkeys|]; intros k;
            apply whitelist_keys).
      cbn zeta. fold allowed. unfold bind at 1, lift.
      destruct (parse_bool_param _ _) as [unsafe|e]; [|reflexivity].
      unfold bind at 1.
      destruct (normalize_req _ _ None) as [norm_req|e]; [|reflexivity].
      unfold bind at 1, in_controller. rewrite checked_request_run.
      destruct (checked _ norm_req) as [obj|e]; destruct w; reflexivity. }
    clearbody run. subst run.
    destruct (parse_bool_param _ _) as [unsafe|e]; [|reflexivity].
    cbn zeta.
    destruct (normalize_req _ _ None) as [norm_req|e]; [|reflexivity].
    destruct (checked _ norm_req) as [obj|e]; [|reflexivity].
    cbn zeta. unfold bind, rpc_query.
    destruct (ask _ _) as [oc r].
    destruct oc as [clusters|e]; cbn; (split; [reflexivity|]);
      (split; [reflexivity|]).
    + exists (Ret clusters). split; reflexivity.
    + exists (Raise e). split; reflexivity.
Qed.

(** *** [collect] *)

Lemma lstrip_spec s :
  exists pre, s = (pre ++ lstrip is_space s)%string /\
              blank is_space pre = true.
Proof.
  induction s as [|c s [pre [Hs Hpre]]]; cbn.
  - exists ""%string. split; reflexivity.
  - destruct (is_space c) eqn:Hc.
    + exists (String c pre). split.
      * exact (f_equal (String c) Hs).
      * cbn. rewrite Hc. exact Hpre.
    + exists ""%string. split; reflexivity.
Qed.

Lemma lstrip_head s c rest :
  lstrip is_space s = String c rest -> is_space c = false.
Proof.
  induction s as [|c0 s IH]; cbn; [discriminate|].
  destruct (is_space c0) eqn:Hc0; [exact IH|].
  intros Heq. injection Heq as <- _. exact Hc0.
Qed.

Lemma lstrip_blank s :
  lstrip is_space s = ""%string <-> blank is_space s = true.
Proof.
  induction s as [|c s IH]; cbn; [tauto|].
  destruct (is_space c); cbn; [exact IH|]. split; discriminate.
Qed.

Lemma blank_app s t :
  blank is_space (s ++ t) = blank is_space s && blank is_space t.
Proof.
  induction s as [|c s IH]; [reflexivity|].
  change (blank is_space (String c (s +:+ t))
          = blank is_space (String c s) && blank is_space t).
  cbn [blank]. rewrite IH, andb_assoc. reflexivity.
Qed.

Lemma rstrip_spec s :
  exists post, s = (rstrip is_space s ++ post)%string /\
               blank is_space post = true.
Proof.
  induction s as [|c s [post [Hs Hpost]]]; cbn [rstrip].
  - exists ""%string. split; reflexivity.
  - destruct (rstrip is_space s) as [|c1 kept] eqn:Hr.
    + destruct (is_space c) eqn:Hc.
      * exists (String c post).
        split; [exact (f_equal (String c) Hs)|]. cbn. rewrite Hc. exact Hpost.
      * exists post. split; [exact (f_equal (String c) Hs)|exact Hpost].
    + exists post. split; [exact (f_equal (String c) Hs)|exact Hpost].
Qed.

Lemma rstrip_blank s :
  rstrip is_space s = ""%string <-> blank is_space s = true.
Proof.
  induction s as [|c s IH]; cbn; [tauto|].
  destruct (rstrip is_space s) as [|c1 kept].
  - destruct (is_space c); cbn.
    + split; [intros _; apply IH; reflexivity|reflexivity].
    + split; discriminate.
  - split; [discriminate|]. intros Hb.
    apply andb_true_iff in Hb as [_ Hb]. apply IH in Hb. discriminate Hb.
Qed.

Lemma rstrip_head s c rest :
  s = String c rest -> is_space c = false ->
  exists kept, rstrip is_space s = String c kept.
Proof.
  intros -> Hc. cbn. destruct (rstrip is_space rest); rewrite ?Hc; eauto.
Qed.

Lemma rstrip_last s init c :
  rstrip is_space s = (init ++ String c "")%string -> is_space c = false.
Proof.
  revert init. induction s as [|c0 s IH]; intros init; cbn.
  - destruct init; discriminate.
  - destruct (rstrip is_space s) as [|c1 kept] eqn:Hr.
    + destruct (is_space c0) eqn:Hc0; [destruct init; discriminate|].
      destruct init as [|c2 init]; cbn; intros Heq.
      * injection Heq as <-. exact Hc0.
      * injection Heq as _ Heq. destruct init; discriminate Heq.
    + destruct init as [|c2 init]; cbn; intros Heq.
      * injection Heq as _ Heq. discriminate Heq.
      * injection Heq as _ Heq. apply (IH init). exact Heq.
Qed.

Lemma strip_blank s :
  strip is_space s = ""%string <-> blank is_space s = true.
Proof.
  unfold strip. rewrite rstrip_blank.
  destruct (lstrip_spec s) as [pre [Hs Hpre]].
  rewrite Hs at 2. rewrite blank_app, Hpre. reflexivity.
Qed.

(** X20. [collect], for a request that the decorators let through.
    A path of whitespace only (the empty path among them) is answered
    with [HTTPBadRequest], no call made.  Any other path is some
    whitespace, a text [p] and some whitespace, where [p] is not empty
    and neither begins nor ends with whitespace; the run is the one
    call [cluster_collect(ctx, cluster_id, p)], whose answer or
    exception is handed back as it is. *)
Theorem collect_strips_path req cluster_id path (w : QW) :
  let_through policy_enforce api_version req ->
  let run := collect req_context is_space policy_enforce api_version req
                     cluster_id path w in
  (blank is_space path = true ->
   run = (Raise (HTTPBadRequest "Required path attribute is missing."), w)) /\
  (blank is_space path = false ->
   exists pre p post,
     path = (pre ++ p ++ post)%string /\
     blank is_space pre = true /\ blank is_space post = true /\
     (exists c rest, p = String c rest /\ is_space c = false) /\
     (forall init c, p = (init ++ String c "")%string -> is_space c = false) /\
     run = rpc_query (cluster_collect (req_context req) cluster_id p) w).
Proof.
  intros [Hauth Hvers] run. unfold run, collect. rewrite Hvers, Hauth.
  cbn zeta. split.
  - intros Hblank. apply strip_blank in Hblank. rewrite Hblank. reflexivity.
  - intros Hblank.
    destruct (strip is_space path) as [|c rest] eqn:Hstrip.
    { apply strip_blank in Hstrip. congruence. }
    cbn [String.eqb]. rewrite <- Hstrip.
    destruct (lstrip_spec path) as [pre [Hpath Hpre]].
    destruct (rstrip_spec (lstrip is_space path)) as [post [Hl Hpost]].
    fold (strip is_space path) in Hl.
    exists pre, (strip is_space path), post.
    split; [rewrite <- Hl; exact Hpath|].
    split; [exact Hpre|]. split; [exact Hpost|]. split; [|split].
    + destruct (lstrip is_space path) as [|c0 rest0] eqn:Hls.
      { unfold strip in Hstrip. rewrite Hls in Hstrip. discriminate Hstrip. }
      pose proof (lstrip_head _ _ _ Hls) as Hc0.
      destruct (rstrip_head _ c0 rest0 eq_refl Hc0) as [kept Hkept].
      exists c0, kept. unfold strip. rewrite Hls. split; assumption.
    + intros init c1 Heq. eapply rstrip_last. exact Heq.
    + reflexivity.
Qed.

End Facts.

(** *** The statements above on the canned engine *)

Section Runs.
Import Canned CannedQueries.

Lemma pass_let_through req :
  let_through (request := list (string * pyval)) CannedQueries.pass
              CannedQueries.pass req.
Proof. split; reflexivity. Qed.

Lemma get_outcomes_witness :
  let run := get (fun _ => tt) CannedQueries.pass [] "c1" Canned.start in
  let c := call2 tt "cluster_get2"
             (PDict (<["identity" := PStr "c1"]> ∅)) in
  calls (snd run) = [c] /\
  exists oc,
    rpc c tt = (oc, ClusterController.engine (snd run)) /\
    fst run = match oc with
              | Ret cluster => Ret (<["cluster" := PDict cluster]> ∅)
              | Raise e => Raise e
              end.
Proof.
  exact (get_outcomes (fun _ => tt) CannedQueries.pass CannedQueries.pass []
           "c1" Canned.start (pass_let_through [])).
Defined.

Lemma index_parameters_witness :
  let req := [("limit", PStr "2"); ("colour", PStr "red");
              ("shape", PStr "round")] in
  index (fun _ => tt) (fun req => req) CannedQueries.pass req begin
  = (Raise (HTTPBadRequest "Invalid parameter 'colour'"), begin).
Proof.
  intros req.
  refine (proj1 (index_parameters (fun _ => tt) (fun req => req)
                   CannedQueries.pass CannedQueries.pass req begin
                   (pass_let_through req))
                ["limit"] "colour" ["shape"] eq_refl _ _).
  - repeat constructor.
  - intros Hin. repeat (apply elem_of_cons in Hin as [Hin|Hin];
                        [discriminate Hin|]).
    apply elem_of_nil in Hin. exact Hin.
Defined.

Lemma collect_strips_path_witness :
  collect (request := list (string * pyval)) (fun _ => tt) blank_char
          CannedQueries.pass CannedQueries.pass [] "c1" "   " begin
  = (Raise (HTTPBadRequest "Required path attribute is missing."), begin).
Proof.
  exact (proj1 (collect_strips_path (fun _ => tt) blank_char
                  CannedQueries.pass CannedQueries.pass [] "c1" "   " begin
                  (pass_let_through []))
               eq_refl).
Defined.

End Runs.

End ClusterQueriesFacts.


(** ** The driver's Neutron client *)

Module LoadBalancerClientFacts.
Import LoadBalancerClient.

Section Facts.
Context {C N : Type}.
Variable NeutronClient : C -> outcome N.
Variable truthy : N -> bool.

Lemma nc_again (self : driver) c :
  _nc self = Some c -> truthy c = true ->
  nc NeutronClient truthy self = (Ret c, self).
Proof. intros Hc Ht. unfold nc. rewrite Hc, Ht. reflexivity. Qed.

Lemma nc_times_again n (self : driver) c :
  _nc self = Some c -> truthy c = true ->
  nc_times NeutronClient truthy n self = (Ret (replicate n c), self).
Proof.
  intros Hc Ht. induction n as [|n IH]; [reflexivity|].
  cbn [nc_times]. unfold bind at 1. rewrite (nc_again _ _ Hc Ht).
  unfold bind at 1. rewrite IH. reflexivity.
Qed.

(** X21. The client is built once.  On a fresh driver, when
    [NeutronClient(ctx)] gives a client that counts as true, any number
    of calls of [nc], one at least, return that same client each time,
    and exactly one client has been built, from the context the driver
    was made with.  When building raises, [nc] raises the same and the
    driver is as before, so that the next call tries again. *)
Theorem nc_builds_once (context : C) n :
  let self := __init__ context in
  (forall c,
     NeutronClient context = Ret c -> truthy c = true ->
     exists self',
       nc_times NeutronClient truthy (S n) self
       = (Ret (replicate (S n) c), self') /\
       _nc self' = Some c /\ built self' = 1%nat /\ ctx self' = context) /\
  (forall e,
     NeutronClient context = Raise e ->
     nc NeutronClient truthy self = (Raise e, self)).
Proof.
  intros self. split.
  - intros c Hc Ht. exists (Driver context (Some c) 1).
    split; [|repeat split].
    assert (Hfirst : nc NeutronClient truthy self
                     = (Ret c, Driver context (Some c) 1)).
    { unfold nc. cbn [self __init__ _nc ctx]. rewrite Hc. reflexivity. }
    cbn [nc_times]. unfold bind at 1. rewrite Hfirst. unfold bind at 1.
    rewrite (nc_times_again n (Driver context (Some c) 1) c eq_refl Ht).
    reflexivity.
  - intros e He. unfold nc. cbn [self __init__ _nc ctx]. rewrite He.
    reflexivity.
Qed.

End Facts.

Lemma nc_builds_once_witness :
  exists self',
    nc_times (fun ctx : string => Ret ("client of " +:+ ctx))
             (fun _ => true) 3 (__init__ "admin")
    = (Ret (replicate 3 "client of admin"), self') /\
    built self' = 1%nat.
Proof.
  destruct (proj1 (nc_builds_once (fun ctx : string => Ret ("client of " +:+ ctx))
                     (fun _ => true) "admin" 2)
                  "client of admin" eq_refl eq_refl)
    as (self' & Hrun & _ & Hbuilt & _).
  exists self'. split; [exact Hrun|exact Hbuilt].
Defined.

End LoadBalancerClientFacts.
